(* ===== verification/_CoqProject ===== *)
-Q . S2P
Prelude.v
PyDict.v
Questions.v
PyString.v
QuestionsMain.v
Board.v
Rules.v
RulesPy.v
ResultHeap.v
Reach.v
Minimax.v
MinimaxPy.v
MinimaxHeap.v
Solver.v
Play.v
