(* ===== verification/Prelude.v ===== *)
(** * A verification development of two CS50AI programs: tic-tac-toe and TF-IDF question answering

    The repository holds two unrelated Python programs:
    - [src/search/tictactoe/tictactoe.py]: the rules of 3x3 tic-tac-toe
      ([initial_state], [player], [actions], [result], [winner], [terminal],
      [utility]) and a full-depth minimax search ([minimax] with its local
      [max_value] and [min_value]).  The search calls the rules, and
      nothing else.  No state is shared: every function maps a board, a
      Python list of three lists of cells, to a value, and [result] works
      on a [deepcopy].
    - [src/language/questions/questions.py]: a TF-IDF question-answering
      script (file loading, NLTK tokenisation, IDF computation, ranking of
      files and sentences).  It shares nothing with the game.

    ** Files, in dependency order
    - [Prelude] (this file): the Python values the model needs:
      - the exceptions the code can raise ([exn]);
      - a result monad [pyres] with stdpp's [x ← m; k] notation;
      - Python list indexing with negative indices and [IndexError]
        ([py_norm], [py_get], [py_setitem]);
      - the [for] loop with an accumulator ([py_for]);
      - [range];
      - the generic lemmas on the "keep the first strictly better
        candidate" loop that both [max_value] and [min_value] run
        ([Section Selection]);
      - the hint database [pyres] and the tactics [simpl_res], [inv_res];
      - [try]/[except] ([py_try]) and the generic lemmas on loops
        ([foldl_inv], [py_for_Ok], [py_for_total_inv], [py_for_inv],
        [py_for_establish], [py_for_Raise]) and filters.
    - [PyDict]: a Python [dict] as the list of its items in insertion order
      ([dict_get], [dict_subscript] with [KeyError], [dict_setitem]), and
      [sorted(..., key=..., reverse=True)] as a stable descending insertion
      sort [sorted_desc].  Its theorems: the sort is a permutation,
      non-increasing, stable, and its first [n] keys outrank the rest.
    - [Questions]: [compute_idfs], [top_files] and [top_sentences] of
      [questions.py].
      - Floats are the class [PyFloat] of the operations the code uses,
        with the laws [PyFloatLaws] of comparisons on floats that are not
        NaN.
      - The iteration order of a Python [set] of strings (hash order,
        which changes with [PYTHONHASHSEED]) is the [Variable set_order].
      - Each function is its loop, which fills a dict ([idf_counts],
        [tfidf_scores], [sentence_scores]), then the sort.  [top_sentences]
        threads the loop variable [word] that outlives its loop.
    - [PyString]: the [str] methods [questions.py] calls, on strings of
      code points 0 to 255: [split] and [join] on one character
      ([py_split], [py_join], [split_newline]), [lower()] ([py_lower]),
      [isalpha()] ([py_isalpha]) and [os.path.join] ([os_path_join]).
    - [QuestionsMain]: [load_files], [tokenize] and [main] of
      [questions.py].
      - The outside world is two interfaces (type classes): [PyOS]
        ([os.listdir] and [open(...).read()], either of which may raise)
        and [Nltk] ([word_tokenize], [sent_tokenize]).  The theorems hold
        for every instance.
      - [main argv query_line] is the whole script as one computation in
        [pyres]: [sys.argv] is [argv], the line typed at [input] is
        [query_line], and the lines [print] writes are the result.  It
        composes [load_files], the [file_words] comprehension
        ([file_words_of]), [compute_idfs], [top_files], the loop over
        passages and sentences ([extract_sentences]), [compute_idfs] and
        [top_sentences], with the set order of Questions.
      - The witnesses run [main] on an in-memory corpus with toy
        tokenizers and rational floats.
    - [Board]: the board as the code has it.
      - [mark] is [X | O], a cell is [option mark] with [EMPTY = None], a
        board is [list (list cell)], and [initial_state] is the empty grid.
      - [cell_at] reads [board[i][j]] with Python's indexing.
      - The type invariant [wf_board] says "three rows of three cells".
      - [count_mark] counts the cells of a mark, and [place] is the pure
        write of one cell.
    - [Rules]: [player], [actions], [result], [winner] (with the [~i]
      anti-diagonal), [terminal] and [utility], each translated from its
      Python function.  Their theorems state the functional behaviour on
      every branch, errors included.
    - [RulesPy]: the same functions translated again with every read
      [board[i][j]] a [py_get] that may raise [IndexError] ([cell_get])
      and the early [return]s of [winner]'s loops ([py_any], [py_find]).
      On a well-formed board they compute what Rules.v computes.
    - [ResultHeap]: [result] on the Python heap.  Boards are objects: a
      grid (the outer list) refers to row objects, held in a [gmap] from
      locations to objects.  [deepcopy_grid] follows
      [copy._deepcopy_list] with its memo, and the write
      [new_board[i][j] = player_move] replaces a row object of the copy.
    - [Reach]: a game played through [result], as the step relation
      [play_step] (a board that is not [terminal], one of its [actions],
      the board [result] returns) and its reflexive-transitive closure
      [reachable] from [initial_state].  The driver that plays games
      (the course's runner) is not in the repository.  It is modelled
      from the specification.  The invariants proved by rule induction
      are the shape of the board, the X/O count balance, turn
      alternation, and "at most one player has a line".
    - [Minimax]: [max_value] and [min_value] as a mutual [Fixpoint] on the
      recursion depth, inside [Section Search].  Its [Variable iter_order]
      is the iteration order of the Python [set] returned by [actions]
      (CPython's hash order, which the code does not fix).  Its
      [Hypothesis iter_order_perm] says only that this order is a
      permutation.
      - The abstract specification is [minimax_value], a natural-semantics
        relation on boards with an explicit player to move, whose inner
        rule is nested through [Forall2] over the actions.
      - The refinement lemma [search_spec] carries the proofs: the code
        computes that value whatever the order, never raises, and returns
        the first optimal move of the order (strict-improvement
        tie-break).
    - [MinimaxPy]: the same search over the functions of RulesPy.v
      ([max_value_py], [min_value_py], [minimax_py]), with [player]
      called before [terminal] as in the source, and its agreement with
      Minimax.v on well-formed boards ([code_refine]).
    - [MinimaxHeap]: the search once more, on board objects of the heap
      of ResultHeap.v ([max_value_heap], [min_value_heap],
      [minimax_heap]).  The heap is threaded through the loops, since
      every [result] allocates a new board; the computation may raise or
      meet a heap not of the shape of boards, so it lives in
      [hres A = option (pyres A)] with [hbind] and the loop [hfor].
    - [Solver]: a memoising evaluator of [minimax_value] over a [gmap]
      table, proved sound.  It is not code of the repository.  It decides
      facts about the whole game tree (the empty board is a draw) in
      about a second, where running [max_value] on the empty board
      would take a minute of [vm_compute] and much longer in the kernel
      checker.
    - [Play]: the end-to-end contract.
      - [self_play] lets [minimax] move for both sides.
      - From [initial_state] it always ends on a terminal board of
        utility 0, whatever the set order.
      - The concrete scenarios of the spec are decided for every order.
      - Under CPython's order of the empty board's action set,
        [cpython_order], [minimax] opens on the edge cell (0, 1).

    ** The theorems
    - Rules: [result] on each branch: a legal move ([result_legal]), an
      occupied cell ([result_occupied]), out of range
      ([result_out_of_range]), and negative aliases
      ([result_negative_alias]).  [actions] is the set of empty cells.
      [winner], [utility] and [terminal] agree with the eight lines of the
      specification.
    - MinimaxPy: the code, the rules with their [IndexError]s and the
      search over them ([minimax_py]), computes what the model computes
      on every well-formed board ([code_refine]).
    - ResultHeap: [result] keeps the caller's board and rows unchanged
      and puts the new board at a fresh location ([result_heap_spec]);
      on a board whose rows are one object, [deepcopy] keeps the sharing
      and the move marks a whole column ([aliased_rows_result]).
    - MinimaxHeap: [minimax] on a board object of distinct rows returns
      what [minimax] returns on the board's value
      ([minimax_heap_spec]): the calls of [result] for the siblings of
      a node do not disturb one another.
    - Reach: invariants of every reachable board.
    - Minimax: refinement of [minimax_value] ([max_min_value_refine]),
      optimality and the tie-break of [minimax] on every reachable board
      ([minimax_optimal], [minimax_first_optimal]), absence of
      exceptions, independence of the fuel and of the iteration order.
    - Play: the draw under self-play, the opening move, and the scenarios.
    - Questions: [compute_idfs] gives [np.log(numDocs / df)] for each word
      ([compute_idfs_spec]), the scores of [top_files] and [top_sentences]
      ([tfidf_scores_spec], [sentence_scores_spec]), and their rankings
      ([top_files_top], [top_sentences_top]).  The ranking [main] runs
      never raises ([ranking_no_raise]).  [top_sentences] drops sentences
      of score 0 ([top_sentences_nonzero]), and its answer depends on the
      hash order ([top_sentences_hash_order]).
    - QuestionsMain: [main] composes the components without raising when
      the corpus can be read, and prints at most one sentence, taken from
      a line of a file of the corpus ([main_no_raise]); it exits on a
      wrong argument count ([main_usage]).  Conversely, every sentence
      with a token, of every line of a top file, is a key of [sentences]
      under its tokens ([extract_sentences_complete]).  [load_files] maps the listed
      names to their contents ([load_files_spec]) and raises the error of
      the first unreadable entry ([load_files_error]).
    - PyString: the passages [split("\n")] gives are the text again when
      joined, and hold no newline ([join_split_newline]).
    Each numbered property (C1, C2, ... in its doc comment) whose
    statement has hypotheses has a witness lemma that applies it to a
    concrete input; the other lemmas are the steps of their proofs.

    ** Fuel
    [max_value]/[min_value] take a [nat] fuel that counts nested calls.
    It stands for Python's recursion limit: running out raises
    [RecursionError].  [minimax] runs with [recursion_limit = 1000], the
    CPython default.  The theorems show that any fuel above the number of
    empty cells (at most 9) gives the same answer and never raises.  So the
    exact frame accounting of CPython does not matter.  [self_play] takes
    a number of rounds, and nine rounds suffice from the empty board
    because each round fills one cell.  [Solver.solve] takes fuel 10, one
    more than the depth of the game tree.

    ** What modelling showed
    - [result] accepts indices in [-3, 0) as aliases of the cells counted
      from the end, raises [IndexError] out of range and a bare
      [Exception] on an occupied cell.  The specification names one
      IllegalMoveError for all of these.
    - [winner] prefers X when both players have a line.  No reachable
      board has two.
    - [player]'s test [board == initial_state()] is redundant
      ([player_counts]).
    - Under CPython's set order, the first move is the edge (0, 1), not the
      corner or center the specification promises.
    - The specification's second scenario, [[X,O,X],[X,O,O],[_,_,_]], is
      an immediate win for X at (2, 0).
    - [top_sentences] computes the density with the loop variable [word]
      left over from the loop: the last query word visited, not every query
      word.  So the sentence it ranks first can change with the hash seed.
      It drops sentences whose score is 0.  The [except KeyError] branches
      re-raise, but [main] never reaches them.
    - [load_files] reads every entry of the directory, not only the
      [.txt] files its docstring names; a subdirectory makes it raise.
      [tokenize] keeps stopwords, which its docstring says it removes.

    ** Not modelled
    - [questions.py]: the file system, the console and NLTK are
      interfaces, not models: [os.listdir], [open], [word_tokenize] and
      [sent_tokenize] are the methods of [PyOS] and [Nltk], [input] is an
      argument and [print] the result.  A console that ends before a
      query ([EOFError] from [input]) is not modelled.  Strings are
      limited to code points below 256, where [lower()] and [isalpha()]
      are written out.  Floating-point rounding is not modelled: the
      theorems hold for every implementation of [PyFloat], and the
      witnesses use rationals with a stand-in for [np.log].  The import
      [string] is unused.
    - In [tictactoe.py], the theorems about the search are proved of
      the model ([Minimax], over the pure functions of Rules.v, whose
      [cell_at] reads a missing cell as [EMPTY]).  The code with its
      [IndexError]s is RulesPy.v and MinimaxPy.v, and [code_refine]
      shows that the two agree on every well-formed board; every board a
      game reaches is well-formed ([reachable_wf]).  The heap is modelled
      where the code writes: [result] (ResultHeap.v) and the search that
      passes its boards on (MinimaxHeap.v).  The functions that only
      read a board see its value, which is what they are given there.
    - The unused import [from turtle import left] has no behaviour. *)

From Stdlib Require Import ZArith Lia.
From stdpp Require Export base list decidable option sets relations.

Declare Scope py_scope.
Delimit Scope py_scope with py.
Open Scope Z_scope.

(** ** Exceptions and the result monad *)

(** The exceptions the modelled code can raise: [IndexError] from a list
    subscript out of range, the bare [raise Exception] of [result],
    [RecursionError] when the interpreter's recursion limit is hit,
    [KeyError] from a dict subscript, [ZeroDivisionError] from [/], and
    [UnboundLocalError] when a local variable is read before assignment,
    [SystemExit] from [sys.exit], and [OSError] (with its subclasses, and
    the [UnicodeDecodeError] of a read) from the file system. *)
Inductive exn := IndexError | Exception | RecursionError | KeyError | ZeroDivisionError
               | UnboundLocalError | SystemExit | OSError.

#[export] Instance exn_eq_dec : EqDecision exn.
Proof. solve_decision. Defined.

(** A Python computation returns a value or raises. *)
Inductive pyres (A : Type) : Type :=
| Ok (a : A)
| Raise (e : exn).
Arguments Ok {A} a.
Arguments Raise {A} e.

#[export] Instance pyres_ret : MRet pyres := λ A a, Ok a.
#[export] Instance pyres_bind : MBind pyres :=
  λ A B f m, match m with Ok a => f a | Raise e => Raise e end.
#[export] Instance pyres_fmap : FMap pyres :=
  λ A B f m, match m with Ok a => Ok (f a) | Raise e => Raise e end.

Notation "'raise' e" := (Raise e) (at level 10) : py_scope.

(** [try: body except e: handler] *)
Definition py_try {A} (body : pyres A) (e : exn) (handler : pyres A) : pyres A :=
  match body with
  | Raise e' => if decide (e' = e) then handler else Raise e'
  | Ok a => Ok a
  end.

(** ** Python's [==] and [in] *)

(** [x == y] on the values the code compares: marks, [None] and lists. *)
Class PyEq (A : Type) := py_eq : A → A → bool.
Infix "==" := py_eq (at level 70, no associativity) : py_scope.

(** The law of [==]: it decides equality of the modelled values. *)
Class PyEqLaw (A : Type) `{PyEq A} := py_eq_spec : ∀ x y : A, py_eq x y = true ↔ x = y.

(** [None == None], and [Some] compares the contents. *)
#[export] Instance option_py_eq `{PyEq A} : PyEq (option A) :=
  λ x y, match x, y with
         | None, None => true
         | Some a, Some b => py_eq a b
         | _, _ => false
         end.

(** List [==]: same length and equal elements, compared in order. *)
#[export] Instance list_py_eq `{PyEq A} : PyEq (list A) :=
  fix go l1 l2 := match l1, l2 with
                  | [], [] => true
                  | x :: l1', y :: l2' => py_eq x y && go l1' l2'
                  | _, _ => false
                  end.

(** [x in l] *)
Definition py_in `{PyEq A} (x : A) (l : list A) : bool := existsb (py_eq x) l.

#[export] Instance option_py_eq_law `{PyEqLaw A} : PyEqLaw (option A).
Proof.
  intros [x|] [y|]; cbn; split; try done.
  - intros Hxy. f_equal. by apply (py_eq_spec x y).
  - intros [= ->]. by apply (py_eq_spec y y).
Qed.

#[export] Instance list_py_eq_law `{PyEqLaw A} : PyEqLaw (list A).
Proof.
  intros l1. induction l1 as [|x l1 IH]; intros [|y l2]; cbn; split; try done.
  - rewrite andb_true_iff. intros [Hxy Hl]. apply (py_eq_spec x y) in Hxy.
    apply (IH l2) in Hl. by subst.
  - intros [= -> ->]. rewrite andb_true_iff. split; [by apply (py_eq_spec y y) | by apply IH].
Qed.

Lemma py_eq_true `{PyEqLaw A} (x : A) : py_eq x x = true.
Proof. by apply py_eq_spec. Qed.

Lemma py_eq_bool_decide `{PyEqLaw A} `{EqDecision A} (x y : A) : py_eq x y = bool_decide (x = y).
Proof. apply eq_bool_prop_intro. rewrite Is_true_true, py_eq_spec. by rewrite bool_decide_spec. Qed.

Lemma py_in_spec `{PyEqLaw A} (x : A) (l : list A) : py_in x l = true ↔ x ∈ l.
Proof.
  unfold py_in. rewrite existsb_exists. split.
  - intros (y & Hy & Hxy). apply py_eq_spec in Hxy. subst. by apply list_elem_of_In.
  - intros Hx. exists x. split; [by apply list_elem_of_In | apply py_eq_true].
Qed.

(** ** Python list indexing *)

(** [l[i]] on a list of length [len]: [0 <= i < len] is the element [i],
    [-len <= i < 0] is the element [len + i] (counted from the end),
    anything else raises [IndexError]. *)
Definition py_norm (len : nat) (i : Z) : option nat :=
  match i with
  | Z0 => if (0 <? len)%nat then Some 0%nat else None
  | Zpos p => let n := Pos.to_nat p in if (n <? len)%nat then Some n else None
  | Zneg p => let n := Pos.to_nat p in if (n <=? len)%nat then Some (len - n)%nat else None
  end.

(** [l[i]] *)
Definition py_get {A} (l : list A) (i : Z) : pyres A :=
  match py_norm (length l) i ≫= (l !!.) with
  | Some x => Ok x
  | None => Raise IndexError
  end.

(** [l[i] = x] on a list: the same index rules, the list keeps its length. *)
Definition py_setitem {A} (l : list A) (i : Z) (x : A) : pyres (list A) :=
  match py_norm (length l) i with
  | Some n => Ok (<[n:=x]> l)
  | None => Raise IndexError
  end.

(** [range(n)] *)
Definition range (n : Z) : list Z := seqZ 0 n.

(** [for x in l: body], where [body] updates an accumulator and may
    raise; the first exception leaves the loop. *)
Fixpoint py_for {A B} (body : B → A → pyres B) (l : list A) (acc : B) : pyres B :=
  match l with
  | [] => Ok acc
  | x :: l' => acc' ← body acc x; py_for body l' acc'
  end.

(** [[f(x) for x in l]], where [f] may raise: the elements are computed
    in order and the first exception ends the comprehension. *)
Fixpoint py_map {A B} (f : A → pyres B) (l : list A) : pyres (list B) :=
  match l with
  | [] => Ok []
  | x :: l' => y ← f x; ys ← py_map f l'; Ok (y :: ys)
  end.

(** [for x in l: if test(x): return True] followed by [return False]:
    the loop stops at the first [x] that passes, and no later [test] runs. *)
Fixpoint py_any {A} (test : A → pyres bool) (l : list A) : pyres bool :=
  match l with
  | [] => Ok false
  | x :: l' => test x ≫= λ found : bool, if found then Ok true else py_any test l'
  end.

(** [for x in l: if test(x): return x] followed by [return None]. *)
Fixpoint py_find {A} (test : A → pyres bool) (l : list A) : pyres (option A) :=
  match l with
  | [] => Ok None
  | x :: l' => test x ≫= λ found : bool, if found then Ok (Some x) else py_find test l'
  end.

(** ** Tactics and hints *)

Create HintDb pyres discriminated.
Create Rewrite HintDb pyres.

Lemma bind_Ok {A B} (a : A) (f : A → pyres B) : (Ok a ≫= f) = f a.
Proof. reflexivity. Qed.

Lemma bind_Raise {A B} (e : exn) (f : A → pyres B) : (Raise e ≫= f) = Raise e.
Proof. reflexivity. Qed.

Lemma bind_Ok_inv {A B} (m : pyres A) (f : A → pyres B) (b : B) :
  (m ≫= f) = Ok b → ∃ a, m = Ok a ∧ f a = Ok b.
Proof. destruct m; simpl; [eauto | discriminate]. Qed.

#[export] Hint Rewrite @bind_Ok @bind_Raise : pyres.
#[export] Hint Rewrite @py_eq_bool_decide : pyres.

(** Rewrite the monad away and split the [Ok] equations. *)
Ltac simpl_res :=
  repeat (autorewrite with pyres in *; simpl in *);
  repeat match goal with
  | H : Ok _ = Ok _ |- _ => injection H as H
  | H : Ok _ = Raise _ |- _ => discriminate H
  | H : Raise _ = Ok _ |- _ => discriminate H
  end.

(** Prove a decidable proposition about concrete values by evaluation. *)
Ltac decide_true := apply (bool_decide_unpack _); vm_compute; reflexivity.

(** Split a hypothesis [m ≫= f = Ok b] into its two steps. *)
Ltac inv_res H :=
  let a := fresh "a" in
  let Ha := fresh "Ha" in
  apply bind_Ok_inv in H as (a & Ha & H).

(** ** Lemmas on indexing and loops *)

(** The three cases of Python's index rule. *)
Lemma py_norm_spec (len : nat) (i : Z) :
  py_norm len i = if decide (0 <= i < Z.of_nat len) then Some (Z.to_nat i)
                  else if decide (- Z.of_nat len <= i < 0) then Some (Z.to_nat (Z.of_nat len + i))
                  else None.
Proof.
  unfold py_norm. destruct i as [|p|p]; cbv zeta;
    [destruct (Nat.ltb_spec 0 len) | destruct (Nat.ltb_spec (Pos.to_nat p) len)
    | destruct (Nat.leb_spec (Pos.to_nat p) len)];
    repeat case_decide; try lia; f_equal; lia.
Qed.

Lemma py_norm_nonneg (len : nat) (i : Z) :
  0 <= i < Z.of_nat len → py_norm len i = Some (Z.to_nat i).
Proof. intros Hi. rewrite py_norm_spec, decide_True by done. done. Qed.

Lemma py_norm_neg (len : nat) (i : Z) :
  - Z.of_nat len <= i < 0 → py_norm len i = Some (Z.to_nat (Z.of_nat len + i)).
Proof. intros Hi. rewrite py_norm_spec, decide_False, decide_True by lia. done. Qed.

Lemma py_norm_out (len : nat) (i : Z) :
  (i < - Z.of_nat len ∨ Z.of_nat len <= i) → py_norm len i = None.
Proof. intros Hi. rewrite py_norm_spec, !decide_False by lia. done. Qed.

Lemma py_norm_lt (len : nat) (i : Z) (n : nat) :
  py_norm len i = Some n → (n < len)%nat.
Proof.
  rewrite py_norm_spec. repeat case_decide; intros Hn; simplify_eq; lia.
Qed.

Lemma py_get_Ok {A} (l : list A) (i : Z) (x : A) :
  py_get l i = Ok x ↔ ∃ n, py_norm (length l) i = Some n ∧ l !! n = Some x.
Proof.
  unfold py_get. destruct (py_norm (length l) i) as [n|] eqn:E; simpl.
  - destruct (l !! n) eqn:El; split; intros H; simpl_res; subst;
      try (destruct H as (? & [= <-] & ?)); eauto; congruence.
  - split; [discriminate | intros (? & ? & _); discriminate].
Qed.

Lemma py_get_nat {A} (l : list A) (n : nat) :
  (n < length l)%nat → ∃ x, l !! n = Some x ∧ py_get l (Z.of_nat n) = Ok x.
Proof.
  intros Hn. destruct (lookup_lt_is_Some_2 l n Hn) as [x Hx].
  exists x. split; [done|]. apply py_get_Ok. exists n. split; [|done].
  rewrite py_norm_nonneg by lia. f_equal. lia.
Qed.

Lemma py_get_norm {A} (l : list A) (i : Z) (n : nat) (x : A) :
  py_norm (length l) i = Some n → l !! n = Some x → py_get l i = Ok x.
Proof. intros Hn Hx. unfold py_get. by rewrite Hn; simpl; rewrite Hx. Qed.

(** [l[i]] returns for every index in [-len, len). *)
Lemma py_get_in_range {A} (l : list A) (i : Z) :
  - Z.of_nat (length l) <= i < Z.of_nat (length l) → ∃ x, py_get l i = Ok x ∧ x ∈ l.
Proof.
  intros Hi. assert (∃ n, py_norm (length l) i = Some n) as [n Hn].
  { destruct (decide (0 <= i)); eexists; [apply py_norm_nonneg | apply py_norm_neg]; lia. }
  destruct (lookup_lt_is_Some_2 l n) as [x Hx]; [by eapply py_norm_lt|].
  exists x. split; [by eapply py_get_norm | by eapply list_elem_of_lookup_2].
Qed.

Lemma py_get_out {A} (l : list A) (i : Z) :
  py_norm (length l) i = None → py_get l i = Raise IndexError.
Proof. intros Hn. unfold py_get. by rewrite Hn. Qed.

(** Altering a present element is inserting its image. *)
Lemma alter_lookup_insert {A} (f : A → A) (l : list A) (n : nat) (x : A) :
  l !! n = Some x → alter f n l = <[n:=f x]> l.
Proof.
  intros Hx. apply list_eq. intros k. destruct (decide (k = n)) as [->|Hk].
  - rewrite list_lookup_alter_eq, list_lookup_insert_eq, Hx; [done|].
    apply lookup_lt_Some in Hx. lia.
  - rewrite list_lookup_alter_ne, list_lookup_insert_ne by congruence. done.
Qed.

Lemma py_setitem_Ok {A} (l : list A) (i : Z) (x : A) (n : nat) :
  py_norm (length l) i = Some n → py_setitem l i x = Ok (<[n:=x]> l).
Proof. unfold py_setitem. by intros ->. Qed.

Lemma py_for_Ok {A B} (body : B → A → pyres B) (step : B → A → B) (l : list A) (acc : B) :
  (∀ acc x, x ∈ l → body acc x = Ok (step acc x)) →
  py_for body l acc = Ok (foldl step acc l).
Proof.
  revert acc. induction l as [|x l IH]; intros acc Hbody; simpl; [done|].
  rewrite Hbody by set_solver. simpl. apply IH. intros. apply Hbody. set_solver.
Qed.

(** A filter that keeps no element of the list is empty. *)
Lemma filter_none {A} (P : A → Prop) `{∀ x, Decision (P x)} (l : list A) :
  (∀ x, x ∈ l → ¬ P x) → filter P l = [].
Proof.
  induction l as [|x l IH]; intros Hno; [done|]. rewrite filter_cons_False by set_solver.
  apply IH. set_solver.
Qed.

(** A filter is non-empty when some element passes it. *)
Lemma length_filter_pos {A} (P : A → Prop) `{∀ x, Decision (P x)} (l : list A) :
  length (filter P l) ≠ 0%nat ↔ ∃ x, x ∈ l ∧ P x.
Proof.
  split.
  - intros Hlen. destruct (filter P l) as [|x l'] eqn:E; [simpl in Hlen; congruence|].
    exists x. assert (x ∈ filter P l) as Hx by (rewrite E; set_solver).
    apply list_elem_of_filter in Hx. tauto.
  - intros (x & Hx & HP) Hlen. apply nil_length_inv in Hlen.
    by apply (filter_nil_not_elem_of P l x Hlen HP).
Qed.

(** [sum(ls, acc)] on lists is [acc] followed by their concatenation. *)
Lemma foldl_app_join {A} (acc : list A) (ls : list (list A)) : foldl app acc ls = acc ++ mjoin ls.
Proof.
  revert acc. induction ls as [|l ls IH]; intros acc; simpl; [by rewrite app_nil_r|].
  by rewrite IH, app_assoc.
Qed.

(** An invariant of each step of a [foldl] holds at its end. *)
Lemma foldl_inv {A B} (P : B → Prop) (f : B → A → B) (l : list A) (acc : B) :
  P acc → (∀ acc x, P acc → P (f acc x)) → P (foldl f acc l).
Proof. revert acc. induction l as [|x l IH]; intros acc Hacc Hf; simpl; [done|]. apply IH; [apply Hf, Hacc | exact Hf]. Qed.

(** Filters by predicates that agree on the list are equal. *)
Lemma filter_ext_in {A} (P Q : A → Prop) `{!∀ y, Decision (P y)} `{!∀ y, Decision (Q y)}
    (l : list A) :
  (∀ y, y ∈ l → P y ↔ Q y) → filter P l = filter Q l.
Proof.
  induction l as [|y l IH]; intros HPQ; [done|]. rewrite !filter_cons.
  rewrite IH by set_solver. assert (P y ↔ Q y) by set_solver.
  destruct (decide (P y)), (decide (Q y)); tauto.
Qed.

(** Two filters of a duplicate-free list whose predicates differ at most at
    [x] differ in length by what they say of [x]. *)
Lemma length_filter_point `{EqDecision A} (P Q : A → Prop)
    `{!∀ y, Decision (P y)} `{!∀ y, Decision (Q y)} (l : list A) (x : A) :
  NoDup l → x ∈ l → (∀ y, y ∈ l → y ≠ x → P y ↔ Q y) →
  (length (filter Q l) + (if decide (P x) then 1 else 0)
   = length (filter P l) + (if decide (Q x) then 1 else 0))%nat.
Proof.
  induction l as [|y l IH]; intros Hnd Hx HPQ; [set_solver|].
  apply NoDup_cons in Hnd as [Hy Hnd]. rewrite !filter_cons.
  destruct (decide (y = x)) as [->|Hne].
  - rewrite (filter_ext_in Q P l) by (intros z Hz; symmetry; apply HPQ; set_solver).
    destruct (decide (P x)), (decide (Q x)); simpl; lia.
  - assert (x ∈ l) as Hxl by set_solver.
    specialize (IH Hnd Hxl (λ z Hz Hzx, HPQ z ltac:(set_solver) Hzx)).
    assert (P y ↔ Q y) as HPQy by (apply HPQ; set_solver).
    destruct (decide (Q y)), (decide (P y)); simpl; tauto || lia.
Qed.

Lemma range_3 : range 3 = [0; 1; 2].
Proof. reflexivity. Qed.

(** An invariant of a step relation holds along its reflexive-transitive
    closure. *)
Lemma rtc_invariant {A} (R : relation A) (I : A → Prop) (x y : A) :
  (∀ a b, R a b → I a → I b) → rtc R x y → I x → I y.
Proof. intros Hstep Hrtc. induction Hrtc; eauto. Qed.

(** Loops whose bodies agree on the elements of the list agree. *)
Lemma py_for_ext_in {A B} (body1 body2 : B → A → pyres B) (l : list A) (acc : B) :
  (∀ acc x, x ∈ l → body1 acc x = body2 acc x) → py_for body1 l acc = py_for body2 l acc.
Proof.
  revert acc. induction l as [|x l IH]; intros acc Hb; simpl; [done|].
  rewrite Hb by set_solver. destruct (body2 acc x); simpl; [|done].
  apply IH. intros. apply Hb. set_solver.
Qed.

(** An invariant of the accumulator that every step keeps holds of the
    result of a loop that returns. *)
Lemma py_for_inv {A B} (P : B → Prop) (body : B → A → pyres B) (l : list A) (acc r : B) :
  P acc → (∀ acc x acc', x ∈ l → P acc → body acc x = Ok acc' → P acc') →
  py_for body l acc = Ok r → P r.
Proof.
  revert acc. induction l as [|x l IH]; intros acc Hacc Hstep Hr; simpl in Hr; [by simplify_eq|].
  inv_res Hr. apply (IH a); [apply (Hstep acc x a); [set_solver | done | done] | | done].
  intros acc1 y acc2 Hy. apply Hstep. set_solver.
Qed.

(** A property that the step on [x] establishes and that every step
    keeps holds of the result of a loop over a list containing [x]. *)
Lemma py_for_establish {A B} (P : B → Prop) (body : B → A → pyres B) (l : list A) (x : A) (acc r : B) :
  x ∈ l → (∀ acc y acc', y ∈ l → P acc → body acc y = Ok acc' → P acc') →
  (∀ acc acc', body acc x = Ok acc' → P acc') →
  py_for body l acc = Ok r → P r.
Proof.
  revert acc. induction l as [|y l IH]; intros acc Hx Hkeep Hest Hr; [set_solver|].
  simpl in Hr. inv_res Hr. apply elem_of_cons in Hx as [->|Hx].
  - eapply py_for_inv; [by eapply Hest | | done]. intros acc1 z acc2 Hz. apply Hkeep. set_solver.
  - apply (IH a); [done | | done | done]. intros acc1 z acc2 Hz. apply Hkeep. set_solver.
Qed.

(** A loop whose every step returns, keeping an invariant, returns a
    result with the invariant. *)
Lemma py_for_total_inv {A B} (P : B → Prop) (body : B → A → pyres B) (l : list A) (acc : B) :
  P acc → (∀ acc x, x ∈ l → P acc → ∃ acc', body acc x = Ok acc' ∧ P acc') →
  ∃ r, py_for body l acc = Ok r ∧ P r.
Proof.
  revert acc. induction l as [|x l IH]; intros acc Hacc Hstep; simpl; [by eexists|].
  destruct (Hstep acc x) as (acc' & -> & Hacc'); [set_solver | done |]. simpl.
  apply IH; [done|]. intros. apply Hstep; [set_solver | done].
Qed.

Lemma Forall2_ex_l {A B} (R : A → B → Prop) (l : list A) (k : list B) :
  Forall2 R l k → ∀ x, x ∈ l → ∃ y, R x y.
Proof. induction 1 as [|x y l k Hxy _ IH]; intros z Hz; [set_solver|]. apply elem_of_cons in Hz as [->|Hz]; eauto. Qed.

(** A comprehension whose every call returns computes the pure [map]. *)
Lemma py_map_Ok {A B} (f : A → pyres B) (g : A → B) (l : list A) :
  (∀ x, x ∈ l → f x = Ok (g x)) → py_map f l = Ok (g <$> l).
Proof.
  induction l as [|x l IH]; intros Hf; simpl; [done|].
  rewrite Hf, IH by set_solver. done.
Qed.

(** A search loop whose every test returns computes [existsb]. *)
Lemma py_any_Ok {A} (test : A → pyres bool) (g : A → bool) (l : list A) :
  (∀ x, x ∈ l → test x = Ok (g x)) → py_any test l = Ok (existsb g l).
Proof.
  induction l as [|x l IH]; intros Ht; simpl; [done|].
  rewrite Ht by set_solver. simpl. destruct (g x); [done|]. apply IH. set_solver.
Qed.

(** A search loop whose every test returns computes [List.find]. *)
Lemma py_find_Ok {A} (test : A → pyres bool) (g : A → bool) (l : list A) :
  (∀ x, x ∈ l → test x = Ok (g x)) → py_find test l = Ok (List.find g l).
Proof.
  induction l as [|x l IH]; intros Ht; simpl; [done|].
  rewrite Ht by set_solver. simpl. destruct (g x); [done|]. apply IH. set_solver.
Qed.

(** A loop whose steps return until one raises raises that exception. *)
Lemma py_for_Raise {A B} (body : B → A → pyres B) (pre post : list A) (x : A) (acc acc' : B) (e : exn) :
  py_for body pre acc = Ok acc' → body acc' x = Raise e → py_for body (pre ++ x :: post) acc = Raise e.
Proof.
  revert acc. induction pre as [|y pre IH]; intros acc Hpre Hx; simpl in *.
  - simplify_eq. by rewrite Hx.
  - inv_res Hpre. rewrite Ha. simpl. by apply IH.
Qed.

(** A loop over [l1 ++ l2] runs over [l1], then over [l2]. *)
Lemma py_for_app {A B} (body : B → A → pyres B) (l1 l2 : list A) (acc : B) :
  py_for body (l1 ++ l2) acc = (acc' ← py_for body l1 acc; py_for body l2 acc').
Proof.
  revert acc. induction l1 as [|x l1 IH]; intros acc; simpl; [done|].
  destruct (body acc x); simpl; [apply IH | done].
Qed.

(** ** Keeping the first strictly better candidate

    The loops of [max_value] and [min_value] scan candidates, keep a
    running best value [v] with its move, and replace them only when a
    candidate is strictly better ([better v w]).  This section proves what
    such a loop returns for any strict total order [better]. *)
Section Selection.
Context {A M : Type} (better : Z → Z → bool) (f : A → Z) (mk : A → M).
Hypothesis better_irrefl : ∀ v, better v v = false.
Hypothesis better_trans : ∀ u v w, better u v = true → better v w = true → better u w = true.
Hypothesis better_total : ∀ v w, v ≠ w → better v w = true ∨ better w v = true.

(** One iteration: [if better v (f a) then (f a, mk a) else (v, m)]. *)
Definition sel_step (acc : Z * M) (a : A) : Z * M :=
  if better acc.1 (f a) then (f a, mk a) else acc.

Lemma better_asym v w : better v w = true → better w v = false.
Proof.
  intros Hvw. destruct (better w v) eqn:Hwv; [|done].
  rewrite <- (better_irrefl v). symmetry. by apply (better_trans v w v).
Qed.

(** When every candidate beats the initial value, the loop ends on the
    first best candidate: the ones before it are strictly worse, none
    after it is strictly better. *)
Lemma sel_first (l : list A) (v0 : Z) (m0 : M) :
  l ≠ [] → (∀ a, a ∈ l → better v0 (f a) = true) →
  ∃ l1 a l2, l = l1 ++ a :: l2 ∧ foldl sel_step (v0, m0) l = (f a, mk a) ∧
    (∀ a', a' ∈ l1 → better (f a') (f a) = true) ∧
    (∀ a', a' ∈ l2 → better (f a) (f a') = false).
Proof.
  induction l as [|x l IH] using rev_ind; intros Hne Hall; [done|].
  rewrite foldl_app. simpl.
  destruct (decide (l = [])) as [->|Hl].
  - exists [], x, []. simpl. unfold sel_step. simpl.
    rewrite Hall by set_solver. split_and!; [done..| set_solver | set_solver].
  - destruct (IH Hl) as (l1 & a & l2 & -> & Hfold & Hbefore & Hafter); [set_solver|].
    rewrite Hfold. unfold sel_step. simpl.
    destruct (better (f a) (f x)) eqn:Hax.
    + exists (l1 ++ a :: l2), x, []. split_and!; [done | done | | set_solver].
      intros a' Ha'. apply elem_of_app in Ha' as [Ha'|Ha']; [|apply elem_of_cons in Ha' as [->|Ha']]; [|done|].
      * by apply (better_trans _ (f a)); [apply Hbefore|].
      * destruct (decide (f a' = f a)) as [->|Hfa]; [done|].
        destruct (better_total _ _ Hfa) as [H|H]; [by apply (better_trans _ (f a))|].
        by rewrite Hafter in H.
    + exists l1, a, (l2 ++ [x]). rewrite <- app_assoc. split_and!; [done..|].
      intros a' [Ha'|Ha']%elem_of_app; [by apply Hafter|].
      apply list_elem_of_singleton in Ha' as ->. done.
Qed.
End Selection.

(** The selection depends only on the scores of the scanned candidates. *)
Lemma sel_fold_ext {A M} (better : Z → Z → bool) (f g : A → Z) (mk : A → M)
    (l : list A) (acc : Z * M) :
  (∀ a, a ∈ l → f a = g a) →
  foldl (sel_step better f mk) acc l = foldl (sel_step better g mk) acc l.
Proof.
  revert acc. induction l as [|x l IH]; intros acc Hfg; simpl; [done|].
  replace (sel_step better f mk acc x) with (sel_step better g mk acc x)
    by (unfold sel_step; by rewrite Hfg by set_solver).
  apply IH. intros. apply Hfg. set_solver.
Qed.

(** Two lists related to the same list by a functional relation are equal. *)
Lemma Forall2_functional {A B} (R : A → B → Prop) (l : list A) (vs ws : list B) :
  (∀ x v w, x ∈ l → R x v → R x w → v = w) → Forall2 R l vs → Forall2 R l ws → vs = ws.
Proof.
  intros HR H1. revert ws. induction H1 as [|x v l vs Hxv _ IH]; intros ws H2;
    inversion H2 as [|? w ? ws' Hxw Hrest]; subst; [done|].
  f_equal; [eapply HR; eauto; set_solver|]. apply IH; [|done].
  intros; eapply HR; eauto; set_solver.
Qed.
