(* ===== verification/PyDict.v ===== *)
(** * PyDict: Python's [dict] and [sorted]

    The ranking functions of [questions.py] build dicts with
    [d[k] = v] and [d[k] += v], read them with [d[k]] (raising
    [KeyError]), iterate over [d.items()], and rank the items with
    [sorted(..., key=..., reverse=True)].
    - A dict is the list of its items in insertion order ([pydict]).
      Assigning to an existing key keeps its position, and a new key goes
      last.  That order is what [d.items()] visits.
    - [sorted(l, key=key, reverse=True)] is [sorted_desc]: an insertion
      sort that compares keys with [<] only, as CPython's sort does.  With
      [reverse=True] CPython keeps items of equal keys in their original
      order, so [sorted_desc] is stable.

    Under the laws of a strict weak order on the keys (which Python's
    [<] on floats that are not NaN satisfies), [sorted_desc] returns a
    permutation ([sorted_desc_perm]), sorted in non-increasing key order
    ([sorted_desc_sorted]), that keeps items of equivalent keys in their
    input order ([sorted_desc_stable]). *)

From Stdlib Require Import Sorting.Sorted.
From S2P Require Import Prelude.

(** ** Dicts *)

(** A dict: its items in insertion order. *)
Definition pydict (K V : Type) : Type := list (K * V).

(** [d.get(k)]: the value of the item with key [k]. *)
Fixpoint dict_get `{EqDecision K} {V} (d : pydict K V) (k : K) : option V :=
  match d with
  | [] => None
  | (k', v) :: d' => if decide (k' = k) then Some v else dict_get d' k
  end.

(** [d[k]] as an expression: [KeyError] on a missing key. *)
Definition dict_subscript `{EqDecision K} {V} (d : pydict K V) (k : K) : pyres V :=
  match dict_get d k with
  | Some v => Ok v
  | None => Raise KeyError
  end.

(** [d[k] = v]: an existing key keeps its position, a new key goes last. *)
Fixpoint dict_setitem `{EqDecision K} {V} (d : pydict K V) (k : K) (v : V) : pydict K V :=
  match d with
  | [] => [(k, v)]
  | (k', v') :: d' => if decide (k' = k) then (k', v) :: d' else (k', v') :: dict_setitem d' k v
  end.

(** [d.keys()] and [d.values()] *)
Definition dict_keys {K V} (d : pydict K V) : list K := d.*1.
Definition dict_values {K V} (d : pydict K V) : list V := d.*2.

(** ** Lemmas on dicts *)

Section DictLemmas.
Context `{EqDecision K} {V : Type}.
Implicit Types (d : pydict K V) (k : K) (v : V).

Lemma dict_get_setitem d k v k' :
  dict_get (dict_setitem d k v) k' = if decide (k = k') then Some v else dict_get d k'.
Proof.
  induction d as [|[k0 v0] d IH]; simpl; repeat (case_decide; simpl); subst; congruence.
Qed.

Lemma dict_keys_setitem d k v :
  dict_keys (dict_setitem d k v) = if decide (k ∈ dict_keys d) then dict_keys d else dict_keys d ++ [k].
Proof.
  unfold dict_keys. induction d as [|[k0 v0] d IH]; [done|].
  cbn [dict_setitem]. destruct (decide (k0 = k)) as [->|Hne]; rewrite !fmap_cons.
  - rewrite decide_True; set_solver || done.
  - rewrite IH. destruct (decide (k ∈ d.*1)); [rewrite decide_True | rewrite decide_False];
      set_solver || done.
Qed.

Lemma dict_get_None d k : dict_get d k = None ↔ k ∉ dict_keys d.
Proof.
  unfold dict_keys. induction d as [|[k0 v0] d IH]; simpl; [set_solver|].
  case_decide; subst; [split; [done | set_solver]|]. rewrite IH. set_solver.
Qed.

Lemma dict_get_elem d k v : dict_get d k = Some v → (k, v) ∈ d.
Proof.
  induction d as [|[k0 v0] d IH]; simpl; [done|].
  case_decide; [intros [= ->]; subst; set_solver | set_solver].
Qed.

Lemma dict_get_elem_NoDup d k v : NoDup (dict_keys d) → (k, v) ∈ d → dict_get d k = Some v.
Proof.
  unfold dict_keys. induction d as [|[k0 v0] d IH]; intros Hnd Hkv; [set_solver|]. simpl.
  apply NoDup_cons in Hnd as [Hk0 Hnd]. apply elem_of_cons in Hkv as [[= -> ->]|Hkv].
  - by rewrite decide_True.
  - rewrite decide_False; [by apply IH|]. intros ->. apply Hk0. by apply (list_elem_of_fmap_2 fst) in Hkv.
Qed.

Lemma dict_get_is_Some d k : is_Some (dict_get d k) ↔ k ∈ dict_keys d.
Proof.
  rewrite <- not_eq_None_Some, dict_get_None. destruct (decide (k ∈ dict_keys d)); tauto.
Qed.

Lemma dict_subscript_Ok d k v : dict_subscript d k = Ok v ↔ dict_get d k = Some v.
Proof. unfold dict_subscript. destruct (dict_get d k); split; congruence. Qed.

Lemma dict_subscript_missing d k : k ∉ dict_keys d → dict_subscript d k = Raise KeyError.
Proof. intros Hk. apply dict_get_None in Hk. unfold dict_subscript. by rewrite Hk. Qed.

Lemma dict_keys_setitem_NoDup d k v : NoDup (dict_keys d) → NoDup (dict_keys (dict_setitem d k v)).
Proof.
  intros Hnd. rewrite dict_keys_setitem. case_decide; [done|].
  apply NoDup_app. split_and!; [done | set_solver | apply NoDup_singleton].
Qed.
Lemma dict_setitem_fresh d k v : k ∉ dict_keys d → dict_setitem d k v = d ++ [(k, v)].
Proof.
  unfold dict_keys. induction d as [|[k0 v0] d IH]; intros Hk; simpl; [done|].
  rewrite decide_False by set_solver. f_equal. apply IH. set_solver.
Qed.

Lemma elem_of_dict_keys_setitem d k v k' : k' ∈ dict_keys (dict_setitem d k v) ↔ k' = k ∨ k' ∈ dict_keys d.
Proof. rewrite dict_keys_setitem. case_decide; set_solver. Qed.

End DictLemmas.

(** The loop [for k, v in d.items(): out[k] = f(k, v)] copies the keys of
    [d] and maps their values. *)
Lemma dict_get_map_loop `{EqDecision K} {V W} (f : K → V → W) (d : pydict K V) (acc : pydict K W) (k : K) :
  NoDup (dict_keys d) →
  dict_get (foldl (λ acc '(k', v), dict_setitem acc k' (f k' v)) acc d) k =
  if decide (k ∈ dict_keys d) then f k <$> dict_get d k else dict_get acc k.
Proof.
  unfold dict_keys. revert acc. induction d as [|[k' v] d IH]; intros acc Hnd; simpl; [done|].
  apply NoDup_cons in Hnd as [Hk' Hnd]. rewrite IH, dict_get_setitem by done.
  destruct (decide (k' = k)) as [->|Hne].
  - by rewrite decide_False, decide_True by set_solver.
  - repeat case_decide; set_solver || done.
Qed.

Lemma dict_keys_map_loop `{EqDecision K} {V W} (f : K → V → W) (d : pydict K V) (acc : pydict K W) :
  NoDup (dict_keys acc) → NoDup (dict_keys (foldl (λ acc '(k', v), dict_setitem acc k' (f k' v)) acc d)).
Proof.
  revert acc. induction d as [|[k' v] d IH]; intros acc Hnd; simpl; [done|].
  by apply IH, dict_keys_setitem_NoDup.
Qed.

(** ** Dicts with the same lookups

    Two dicts are equivalent when every key has the same value in both;
    their items may be in different orders.  Code that only reads a dict
    through [d[k]] cannot tell them apart. *)
Definition dict_equiv `{EqDecision K} {V} (d1 d2 : pydict K V) : Prop :=
  ∀ k, dict_get d1 k = dict_get d2 k.

#[export] Instance dict_equiv_Equivalence `{EqDecision K} {V} : Equivalence (@dict_equiv K _ V).
Proof. split; [by intros d k | by intros d1 d2 H k | intros d1 d2 d3 H12 H23 k; by rewrite H12]. Qed.

#[export] Instance dict_get_Proper `{EqDecision K} {V} : Proper (dict_equiv ==> eq ==> eq) (@dict_get K _ V).
Proof. intros d1 d2 Hd k ? <-. apply Hd. Qed.

#[export] Instance dict_subscript_Proper `{EqDecision K} {V} :
  Proper (dict_equiv ==> eq ==> eq) (@dict_subscript K _ V).
Proof. intros d1 d2 Hd k ? <-. unfold dict_subscript. by rewrite Hd. Qed.

(** ** [sorted(..., key=key, reverse=True)] *)

Section Sort.
Context {A B : Type} (lt : B → B → bool) (key : A → B).

(** Insert [x] before the first item whose key is smaller than [x]'s. *)
Fixpoint insert_desc (x : A) (l : list A) : list A :=
  match l with
  | [] => [x]
  | y :: l' => if lt (key y) (key x) then x :: l else y :: insert_desc x l'
  end.

(** The items of [l], from the largest key to the smallest, equal keys in
    the order of [l]. *)
Definition sorted_desc (l : list A) : list A := foldl (λ acc x, insert_desc x acc) [] l.

(** [x] comes before [y] in a non-increasing order: [key x] is not below [key y]. *)
Definition not_below (x y : A) : Prop := lt (key x) (key y) = false.

(** [y]'s key is equivalent to [c]: neither is below the other. *)
Definition equiv_key (c : B) (y : A) : bool := negb (lt (key y) c) && negb (lt c (key y)).

Lemma insert_desc_perm (x : A) (l : list A) : insert_desc x l ≡ₚ x :: l.
Proof.
  induction l as [|y l IH]; simpl; [done|]. destruct (lt (key y) (key x)); [done|].
  rewrite IH. apply perm_swap.
Qed.

Lemma sorted_desc_acc_perm (acc l : list A) :
  foldl (λ acc x, insert_desc x acc) acc l ≡ₚ acc ++ l.
Proof.
  revert acc. induction l as [|x l IH]; intros acc; simpl; [by rewrite app_nil_r|].
  rewrite IH, insert_desc_perm. simpl. apply Permutation_middle.
Qed.

(** The laws of [<] on keys: a strict weak order. *)
Hypothesis lt_asym : ∀ a b, lt a b = true → lt b a = false.
Hypothesis lt_neg_trans : ∀ a b c, lt a c = true → lt a b = true ∨ lt b c = true.

Lemma not_below_trans (x y z : A) : not_below x y → not_below y z → not_below x z.
Proof.
  unfold not_below. intros Hxy Hyz. destruct (lt (key x) (key z)) eqn:Hxz; [|done].
  destruct (lt_neg_trans _ (key y) _ Hxz); congruence.
Qed.

(** Past the insertion point every key is below [x]'s. *)
Lemma below_after (x y : A) (l : list A) :
  StronglySorted not_below (y :: l) → lt (key y) (key x) = true →
  ∀ z, z ∈ y :: l → lt (key z) (key x) = true.
Proof.
  intros Hs Hyx z Hz. apply elem_of_cons in Hz as [->|Hz]; [done|].
  apply StronglySorted_inv in Hs as [_ Hall]. rewrite Forall_forall in Hall.
  specialize (Hall z Hz). unfold not_below in Hall.
  destruct (lt_neg_trans _ (key z) _ Hyx); congruence.
Qed.

Lemma insert_desc_sorted (x : A) (l : list A) :
  StronglySorted not_below l → StronglySorted not_below (insert_desc x l).
Proof.
  induction l as [|y l IH]; intros Hs; simpl.
  { repeat constructor. }
  destruct (lt (key y) (key x)) eqn:Hyx.
  - constructor; [done|]. apply Forall_forall. intros z Hz.
    unfold not_below. apply lt_asym. by apply (below_after x y l).
  - pose proof Hs as [Hs' Hall]%StronglySorted_inv. constructor; [by apply IH|].
    apply Forall_forall. intros z Hz.
    rewrite insert_desc_perm in Hz. apply elem_of_cons in Hz as [->|Hz]; [done|].
    rewrite Forall_forall in Hall. by apply Hall.
Qed.

Lemma sorted_desc_acc_sorted (acc l : list A) :
  StronglySorted not_below acc → StronglySorted not_below (foldl (λ acc x, insert_desc x acc) acc l).
Proof.
  revert acc. induction l as [|x l IH]; intros acc Hs; simpl; [done|].
  apply IH, insert_desc_sorted, Hs.
Qed.

Lemma insert_desc_filter (c : B) (x : A) (l : list A) :
  StronglySorted not_below l →
  filter (λ y, equiv_key c y = true) (insert_desc x l) =
  filter (λ y, equiv_key c y = true) l ++ filter (λ y, equiv_key c y = true) [x].
Proof.
  induction l as [|y l IH]; intros Hs; simpl; [done|].
  destruct (lt (key y) (key x)) eqn:Hyx.
  - rewrite (filter_cons _ x (y :: l)), (filter_cons _ x []).
    case_decide as Ex; [|by rewrite app_nil_r].
    enough (filter (λ y, equiv_key c y = true) (y :: l) = []) as -> by done.
    apply filter_none. intros z Hz Hcz.
    pose proof (below_after x y l Hs Hyx z Hz) as Hzx. unfold equiv_key in Ex, Hcz.
    apply andb_true_iff in Ex as [_ Ex], Hcz as [Hcz _]. apply negb_true_iff in Ex, Hcz.
    destruct (lt_neg_trans _ c _ Hzx); congruence.
  - apply StronglySorted_inv in Hs as [Hs _]. rewrite !filter_cons, IH by done.
    by case_decide.
Qed.
Lemma sorted_desc_acc_filter (c : B) (acc l : list A) :
  StronglySorted not_below acc →
  filter (λ y, equiv_key c y = true) (foldl (λ acc x, insert_desc x acc) acc l) =
  filter (λ y, equiv_key c y = true) acc ++ filter (λ y, equiv_key c y = true) l.
Proof.
  revert acc. induction l as [|x l IH]; intros acc Hs; simpl; [by rewrite app_nil_r|].
  rewrite IH by (by apply insert_desc_sorted). rewrite insert_desc_filter by done.
  rewrite <- app_assoc. f_equal. by rewrite <- filter_app.
Qed.

(** The items of a non-increasing list: every item of a prefix is not below
    any item of the rest. *)
Lemma StronglySorted_app_cross (l1 l2 : list A) :
  StronglySorted not_below (l1 ++ l2) → ∀ x y, x ∈ l1 → y ∈ l2 → not_below x y.
Proof.
  induction l1 as [|z l1 IH]; intros Hs x y Hx Hy; [set_solver|].
  apply StronglySorted_inv in Hs as [Hs Hall]. apply elem_of_cons in Hx as [->|Hx].
  - rewrite Forall_forall in Hall. apply Hall. set_solver.
  - by apply IH.
Qed.

(** [sorted] returns the same items. *)
Theorem sorted_desc_perm (l : list A) : sorted_desc l ≡ₚ l.
Proof. apply sorted_desc_acc_perm. Qed.

(** [sorted(..., reverse=True)] is non-increasing: no item has a key
    below a later item's. *)
Theorem sorted_desc_sorted (l : list A) : StronglySorted not_below (sorted_desc l).
Proof. apply sorted_desc_acc_sorted. constructor. Qed.

(** Stability: [sorted(l, key=key, reverse=True)] returns the items
    whose keys are equivalent to [c] in the order they had in [l]. *)
Theorem sorted_desc_stable (c : B) (l : list A) :
  filter (λ y, equiv_key c y = true) (sorted_desc l) = filter (λ y, equiv_key c y = true) l.
Proof. unfold sorted_desc. rewrite sorted_desc_acc_filter by constructor. done. Qed.

(** [sorted(...)[:n]]: every item kept has a key not below any item cut. *)
Lemma sorted_desc_take (n : nat) (l : list A) (x y : A) :
  x ∈ take n (sorted_desc l) → y ∈ drop n (sorted_desc l) → not_below x y.
Proof.
  apply StronglySorted_app_cross. rewrite take_drop. apply sorted_desc_sorted.
Qed.
End Sort.

(** ** The first [n] keys of a dict ranked by value

    [[k for k, v in sorted(d.items(), key=lambda x: x[1], reverse=True)][:n]]
    has no key twice and [min n (len d)] keys, and every key it keeps has a
    value not below the value of any key it cuts. *)
Section Top.
Context `{EqDecision K} {V : Type} (lt : V → V → bool).
Hypothesis lt_asym : ∀ a b, lt a b = true → lt b a = false.
Hypothesis lt_neg_trans : ∀ a b c, lt a c = true → lt a b = true ∨ lt b c = true.

Lemma sorted_items_top (d : pydict K V) (n : nat) :
  NoDup (dict_keys d) →
  NoDup (take n (fst <$> sorted_desc lt snd d)) ∧
  length (take n (fst <$> sorted_desc lt snd d)) = min n (length d) ∧
  ∀ f g sf sg, f ∈ take n (fst <$> sorted_desc lt snd d) → g ∉ take n (fst <$> sorted_desc lt snd d) →
    dict_get d f = Some sf → dict_get d g = Some sg → lt sf sg = false.
Proof.
  intros Hnd. pose proof (sorted_desc_perm lt snd d) as Hperm.
  assert (Hnd' : NoDup (fst <$> sorted_desc lt snd d)).
  { unfold dict_keys in Hnd. by rewrite Hperm. }
  rewrite <- fmap_take. split_and!.
  - rewrite fmap_take. rewrite <- (take_drop n (fst <$> _)) in Hnd'.
    by apply NoDup_app in Hnd' as [? _].
  - by rewrite length_fmap, length_take, Hperm.
  - intros f g sf sg Hf Hg Hsf Hsg.
    apply list_elem_of_fmap in Hf as ([f' sf'] & -> & Hf). simpl in Hsf |- *.
    assert (Hsf' : dict_get d f' = Some sf').
    { apply dict_get_elem_NoDup; [done|]. rewrite <- Hperm. by apply (subseteq_take n). }
    rewrite Hsf in Hsf'. injection Hsf' as <-.
    assert (Hdrop : (g, sg) ∈ drop n (sorted_desc lt snd d)).
    { apply dict_get_elem in Hsg. rewrite <- Hperm, <- (take_drop n (sorted_desc lt snd d)) in Hsg.
      apply elem_of_app in Hsg as [Hsg|]; [|done]. exfalso. apply Hg.
      apply list_elem_of_fmap. by exists (g, sg). }
    apply (sorted_desc_take lt snd lt_asym lt_neg_trans n d (f', sf) (g, sg) Hf Hdrop).
Qed.
End Top.

(** What [sorted(d.items(), ...)[:n]] returns are keys of [d]. *)
Lemma elem_of_take_sorted_keys {K V B} (lt : B → B → bool) (key : K * V → B) (d : pydict K V) (n : nat) (k : K) :
  k ∈ take n (fst <$> sorted_desc lt key d) → k ∈ dict_keys d.
Proof. intros Hk. apply subseteq_take in Hk. unfold dict_keys. by rewrite <- (sorted_desc_perm lt key d). Qed.

(** ** Witnesses *)

Lemma nat_ltb_asym (a b : nat) : Nat.ltb a b = true → Nat.ltb b a = false.
Proof. rewrite Nat.ltb_lt, Nat.ltb_ge. lia. Qed.

Lemma nat_ltb_neg_trans (a b c : nat) : Nat.ltb a c = true → Nat.ltb a b = true ∨ Nat.ltb b c = true.
Proof. rewrite !Nat.ltb_lt. lia. Qed.

Lemma sorted_desc_stable_witness :
  filter (λ y, equiv_key Nat.ltb snd 1%nat y = true)
    (sorted_desc Nat.ltb snd [(0%nat, 1%nat); (1%nat, 2%nat); (2%nat, 1%nat); (3%nat, 0%nat)])
  = [(0%nat, 1%nat); (2%nat, 1%nat)].
Proof.
  rewrite (sorted_desc_stable Nat.ltb snd nat_ltb_asym nat_ltb_neg_trans). reflexivity.
Defined.
