(* ===== verification/Questions.v ===== *)
(** * Questions: the TF-IDF ranking of [questions.py]

    [src/language/questions/questions.py] answers a query from a corpus.
    [main] loads the files ([load_files]) and tokenises them with NLTK
    ([tokenize]).  It then ranks the files ([compute_idfs] and
    [top_files]), splits the best files into sentences, and ranks the
    sentences ([compute_idfs] again and [top_sentences]).  This file
    models the three ranking functions, which are pure.  Loading,
    tokenisation and the console are I/O or library calls.

    - Words and names are [string]s.  A Python dict is a [pydict]
      ([PyDict]): its items in insertion order.
    - A Python [set] ([set(...)] in [compute_idfs], the [query] argument)
      is iterated in CPython's hash order.  For strings that order changes
      from run to run ([PYTHONHASHSEED]).  It is the [Variable set_order]
      of [Section Ranking], and [set_order_perm] says only that it visits
      each element once.
    - Floats are the interface [PyFloat]: [0], [+], [int * float],
      [int / int], [np.log], [<] and [==].  Its laws [PyFloatLaws] are
      those of the comparisons of floats that are not NaN.  No value
      computed here is NaN: the logarithms are of ratios at least 1.
      The theorems hold for every implementation of the interface, in
      particular for IEEE doubles.  The witnesses use rationals.
    - Each function is split the way its code is: the loop that fills the
      dict ([idf_counts], [tfidf_scores], [sentence_scores]), then what
      is done with the dict.  Exceptions are [pyres] values: [KeyError]
      from [d[k]], [ZeroDivisionError] from [/], and [UnboundLocalError]
      from reading the loop variable [word] before the loop ran. *)

From Stdlib Require Import QArith.
From stdpp Require Import strings.
From S2P Require Import Prelude PyDict.

Local Open Scope py_scope.

(** ** Python floats *)

(** The float operations the ranking code uses. *)
Class PyFloat (F : Type) := {
  fl_zero : F;                  (** [0] as a score *)
  fl_add : F → F → F;           (** [a + b] *)
  fl_mul_int : nat → F → F;     (** [tf * idf] with an int [tf] *)
  fl_div_int : nat → nat → F;   (** [a / b] on ints, [b] not zero *)
  fl_log : F → F;               (** [np.log] *)
  fl_lt : F → F → bool;         (** [a < b] *)
  fl_eq : F → F → bool          (** [a == b] *)
}.

(** The laws of [<] and [==] on floats that are not NaN: [<] is a strict
    weak order, and [==] holds when neither side is below the other. *)
Class PyFloatLaws (F : Type) `{PyFloat F} := {
  fl_lt_asym : ∀ a b, fl_lt a b = true → fl_lt b a = false;
  fl_lt_neg_trans : ∀ a b c, fl_lt a c = true → fl_lt a b = true ∨ fl_lt b c = true;
  fl_eq_spec : ∀ a b, fl_eq a b = true ↔ fl_lt a b = false ∧ fl_lt b a = false
}.

(** [==] on words. *)
#[export] Instance string_py_eq : PyEq string := String.eqb.
#[export] Instance string_py_eq_law : PyEqLaw string.
Proof. intros x y. apply String.eqb_eq. Qed.

Section Ranking.
Context `{PyFloat F}.

(** The iteration order of a Python set of words. *)
Variable set_order : list string → list string.

(** [a / b] on ints: [ZeroDivisionError] when [b] is 0. *)
Definition py_truediv (a b : nat) : pyres F :=
  if (b =? 0)%nat then raise ZeroDivisionError else Ok (fl_div_int a b).

(** [(a1, b1) < (a2, b2)] on pairs of floats: the first components
    decide unless they are [==], then the second ones. *)
Definition pair_lt (p q : F * F) : bool :=
  if fl_eq p.1 q.1 then (if fl_eq p.2 q.2 then false else fl_lt p.2 q.2)
  else fl_lt p.1 q.1.

(** ** [compute_idfs] *)

(** [sum(documents.values(), [])] *)
Definition all_words (documents : pydict string (list string)) : list string :=
  foldl app [] (dict_values documents).

(** The first loop of [compute_idfs]: for each word of the set of all
    words, count the documents that contain it.  The first count of a
    word comes from the [except KeyError] branch. *)
Definition idf_counts (documents : pydict string (list string)) : pyres (pydict string nat) :=
  let uniqueWords := set_order (remove_dups (all_words documents)) in
  py_for (λ countDict word,
      py_for (λ countDict content,
          if py_in word content then
            py_try (c ← dict_subscript countDict word; Ok (dict_setitem countDict word (S c)))
                   KeyError (Ok (dict_setitem countDict word 1%nat))
          else Ok countDict)
        (dict_values documents) countDict)
    uniqueWords [].

(** [compute_idfs(documents)] *)
Definition compute_idfs (documents : pydict string (list string)) : pyres (pydict string F) :=
  countDict ← idf_counts documents;
  let numDocs := length documents in
  py_for (λ idfDict '(word, count),
      r ← py_truediv numDocs count;
      Ok (dict_setitem idfDict word (fl_log r)))
    countDict [].

(** ** [top_files] *)

(** The loop of [top_files]: for each query word and each file that
    contains it, add [tf * idfs[word]] to the file's score.  The
    [try] reads [tfidfDict[nameFile]] first, then [idfs[word]]; a
    [KeyError] from either runs the [except] branch, which reads
    [idfs[word]] again. *)
Definition tfidf_scores (query : list string) (files : pydict string (list string))
    (idfs : pydict string F) : pyres (pydict string F) :=
  py_for (λ tfidfDict word,
      py_for (λ tfidfDict '(nameFile, content),
          let tf := count_occ String.string_dec content word in
          if (tf =? 0)%nat then Ok tfidfDict
          else
            py_try (s ← dict_subscript tfidfDict nameFile;
                    i ← dict_subscript idfs word;
                    Ok (dict_setitem tfidfDict nameFile (fl_add s (fl_mul_int tf i))))
                   KeyError
                   (i ← dict_subscript idfs word;
                    Ok (dict_setitem tfidfDict nameFile (fl_mul_int tf i))))
        files tfidfDict)
    (set_order query) [].

(** [top_files(query, files, idfs, n)]: the names of the first [n] files
    by decreasing score. *)
Definition top_files (query : list string) (files : pydict string (list string))
    (idfs : pydict string F) (n : nat) : pyres (list string) :=
  tfidfDict ← tfidf_scores query files idfs;
  Ok (take n (fst <$> sorted_desc fl_lt snd tfidfDict)).

(** ** [top_sentences] *)

(** The loop of [top_sentences].  Its state is the dict and the local
    variable [word], which outlives the inner loop: the density reads it
    after the loop, so it is the last query word the loop visited. *)
Definition sentence_scores (query : list string) (sentences : pydict string (list string))
    (idfs : pydict string F) : pyres (pydict string (F * F) * option string) :=
  py_for (λ '(scoreDict, word_var) '(sentence, words),
      let score := fl_zero in
      '(score, word_var) ← py_for (λ '(score, _) word,
            if py_in word words then
              score ← py_try (i ← dict_subscript idfs word; Ok (fl_add score i))
                             KeyError (dict_subscript idfs word);
              Ok (score, Some word)
            else Ok (score, Some word))
          (set_order query) (score, word_var);
      if negb (fl_eq score fl_zero) then
        match word_var with
        | None => raise UnboundLocalError
        | Some word =>
            density ← py_truediv (count_occ String.string_dec words word) (length words);
            Ok (dict_setitem scoreDict sentence (score, density), word_var)
        end
      else Ok (scoreDict, word_var))
    sentences ([], None).

(** [top_sentences(query, sentences, idfs, n)]: the first [n] sentences by
    decreasing (score, density). *)
Definition top_sentences (query : list string) (sentences : pydict string (list string))
    (idfs : pydict string F) (n : nat) : pyres (list string) :=
  '(scoreDict, _) ← sentence_scores query sentences idfs;
  Ok (take n (fst <$> sorted_desc pair_lt snd scoreDict)).
(** ** [compute_idfs] computes document frequencies *)

(** The number of documents that contain [w]. *)
Definition doc_freq (documents : pydict string (list string)) (w : string) : nat :=
  length (filter (λ content, w ∈ content) (dict_values documents)).

(** One step of the inner loop of [idf_counts], its exceptions handled. *)
Definition count_in (word : string) (countDict : pydict string nat) (content : list string) :
    pydict string nat :=
  if py_in word content then dict_setitem countDict word (S (default 0%nat (dict_get countDict word)))
  else countDict.

(** A count [m] after [k] more documents. *)
Definition count_add (m : option nat) (k : nat) : option nat :=
  if (k =? 0)%nat then m else Some (default 0%nat m + k)%nat.

Lemma idf_counts_loop (documents : pydict string (list string)) :
  idf_counts documents =
  Ok (foldl (λ cd word, foldl (count_in word) cd (dict_values documents)) []
            (set_order (remove_dups (all_words documents)))).
Proof.
  unfold idf_counts. apply py_for_Ok. intros cd word _. apply py_for_Ok. intros cd' content _.
  unfold count_in, dict_subscript. by destruct (py_in word content), (dict_get cd' word).
Qed.

Lemma count_in_loop (word w : string) (cs : list (list string)) (cd : pydict string nat) :
  dict_get (foldl (count_in word) cd cs) w =
  if decide (w = word) then count_add (dict_get cd word) (length (filter (λ c, word ∈ c) cs))
  else dict_get cd w.
Proof.
  revert cd. induction cs as [|c cs IH]; intros cd; simpl.
  { unfold count_add. by case_decide; subst. }
  rewrite IH. unfold count_in. destruct (py_in word c) eqn:E.
  - apply py_in_spec in E. rewrite filter_cons_True by done. simpl.
    rewrite !dict_get_setitem. case_decide as Hw; [subst|by rewrite decide_False by congruence].
    rewrite decide_True by done. unfold count_add. destruct (dict_get cd word);
      case_match; simpl; repeat f_equal; apply Nat.eqb_eq in H0 || apply Nat.eqb_neq in H0; lia.
  - rewrite filter_cons_False; [done|]. intros Hc. apply py_in_spec in Hc. congruence.
Qed.

Lemma count_words_loop (cs : list (list string)) (ws : list string) (cd : pydict string nat) (w : string) :
  NoDup ws →
  dict_get (foldl (λ cd word, foldl (count_in word) cd cs) cd ws) w =
  if decide (w ∈ ws) then count_add (dict_get cd w) (length (filter (λ c, w ∈ c) cs))
  else dict_get cd w.
Proof.
  revert cd. induction ws as [|x ws IH]; intros cd Hnd; simpl; [done|].
  apply NoDup_cons in Hnd as [Hx Hnd]. rewrite IH, count_in_loop by done.
  destruct (decide (w = x)) as [->|Hne].
  - rewrite decide_False, decide_True by set_solver. done.
  - repeat case_decide; set_solver || done.
Qed.

Lemma elem_of_all_words (documents : pydict string (list string)) (w : string) :
  w ∈ all_words documents ↔ doc_freq documents w ≠ 0%nat.
Proof.
  unfold all_words, doc_freq. rewrite foldl_app_join, app_nil_l, length_filter_pos, list_elem_of_join.
  set_solver.
Qed.

(** The contribution of query word [w] to a file with words [content]:
    nothing when [tf] is 0, else [tf * idfs[w]] added to the score so far
    (or the score itself when there is none yet). *)
Definition score_step (idfs : pydict string F) (content : list string) (acc : option F) (w : string) :
    option F :=
  let tf := count_occ String.string_dec content w in
  if (tf =? 0)%nat then acc
  else let i := default fl_zero (dict_get idfs w) in
       Some (match acc with Some s => fl_add s (fl_mul_int tf i) | None => fl_mul_int tf i end).

(** The tf-idf score of a file: the query words in the order the loop
    visits them; [None] when the file contains none of them. *)
Definition file_score (qs : list string) (idfs : pydict string F) (content : list string) : option F :=
  foldl (score_step idfs content) None qs.

(** One step of the inner loop of [tfidf_scores], its exceptions handled. *)
Definition tfidf_in (idfs : pydict string F) (word : string) (tfidfDict : pydict string F)
    (item : string * list string) : pydict string F :=
  let '(nameFile, content) := item in
  let tf := count_occ String.string_dec content word in
  if (tf =? 0)%nat then tfidfDict
  else let i := default fl_zero (dict_get idfs word) in
       dict_setitem tfidfDict nameFile
         (match dict_get tfidfDict nameFile with
          | Some s => fl_add s (fl_mul_int tf i)
          | None => fl_mul_int tf i
          end).

(** Every query word that occurs in a file has an IDF. *)
Definition idfs_cover (query : list string) (files : pydict string (list string)) (idfs : pydict string F) :
    Prop :=
  ∀ w nameFile content, w ∈ query → (nameFile, content) ∈ files → w ∈ content → w ∈ dict_keys idfs.

Lemma tfidf_in_get (idfs : pydict string F) (word f : string) (d : pydict string F) (f' : string)
    (c : list string) :
  dict_get (tfidf_in idfs word d (f', c)) f =
  if decide (f' = f) then score_step idfs c (dict_get d f) word else dict_get d f.
Proof.
  unfold tfidf_in, score_step. cbv zeta. case_match; [by case_decide|].
  rewrite dict_get_setitem. case_decide; subst; [by case_match|done].
Qed.

Lemma tfidf_files_loop (idfs : pydict string F) (word f : string) (files : pydict string (list string))
    (d : pydict string F) :
  NoDup (dict_keys files) →
  dict_get (foldl (tfidf_in idfs word) d files) f =
  match dict_get files f with Some c => score_step idfs c (dict_get d f) word | None => dict_get d f end.
Proof.
  unfold dict_keys. revert d. induction files as [|[f' c] files IH]; intros d Hnd; [done|].
  cbn [foldl dict_get fmap list_fmap fst] in *.
  apply NoDup_cons in Hnd as [Hf' Hnd]. rewrite IH, tfidf_in_get by done.
  destruct (decide (f' = f)) as [->|Hne].
  - by assert (dict_get files f = None) as -> by (apply dict_get_None; done).
  - by case_match.
Qed.

Lemma tfidf_words_loop (idfs : pydict string F) (files : pydict string (list string)) (ws : list string)
    (d : pydict string F) (f : string) :
  NoDup (dict_keys files) →
  dict_get (foldl (λ d word, foldl (tfidf_in idfs word) d files) d ws) f =
  match dict_get files f with Some c => foldl (score_step idfs c) (dict_get d f) ws | None => dict_get d f end.
Proof.
  revert d. induction ws as [|w ws IH]; intros d Hnd; simpl; [by case_match|].
  rewrite IH, tfidf_files_loop by done. by case_match.
Qed.

(** The score of a sentence: [idfs[word]] summed, from [0], over the query
    words it contains, in the order the loop visits them. *)
Definition sent_score (idfs : pydict string F) (qs : list string) (words : list string) : F :=
  foldl (λ score w, if py_in w words then fl_add score (default fl_zero (dict_get idfs w)) else score)
    fl_zero qs.

(** The variable [word] after the inner loop: the last word visited, or
    its value before the loop when the query is empty. *)
Definition last_or (qs : list string) (word_var : option string) : option string :=
  match last qs with Some w => Some w | None => word_var end.

(** The entry of a sentence in the dict: its score and the density of the
    last query word, when the score is not 0. *)
Definition sentence_entry (idfs : pydict string F) (qs : list string) (words : list string) :
    option (F * F) :=
  let score := sent_score idfs qs words in
  if fl_eq score fl_zero then None
  else w ← last qs; Some (score, fl_div_int (count_occ String.string_dec words w) (length words)).

(** One step of the loop of [sentence_scores], its exceptions handled. *)
Definition sentence_in (idfs : pydict string F) (qs : list string)
    (st : pydict string (F * F) * option string) (item : string * list string) :
    pydict string (F * F) * option string :=
  let '(scoreDict, word_var) := st in
  let '(sentence, words) := item in
  (match sentence_entry idfs qs words with
   | Some e => dict_setitem scoreDict sentence e
   | None => scoreDict
   end, last_or qs word_var).

Lemma last_or_cons (w : string) (qs : list string) (word_var : option string) :
  last_or (w :: qs) word_var = last_or qs (Some w).
Proof.
  unfold last_or. destruct qs as [|s qs]; [done|]. change (last (w :: s :: qs)) with (last (s :: qs)).
  destruct (last (s :: qs)) eqn:E; [done|]. by apply last_None in E.
Qed.

Lemma sent_score_loop (idfs : pydict string F) (qs : list string) (words : list string) (score : F)
    (word_var : option string) :
  (∀ w, w ∈ qs → w ∈ words → w ∈ dict_keys idfs) →
  py_for (λ '(score, _) word,
      if py_in word words then
        score ← py_try (i ← dict_subscript idfs word; Ok (fl_add score i))
                       KeyError (dict_subscript idfs word);
        Ok (score, Some word)
      else Ok (score, Some word)) qs (score, word_var) =
  Ok (foldl (λ score w, if py_in w words then fl_add score (default fl_zero (dict_get idfs w)) else score)
        score qs, last_or qs word_var).
Proof.
  revert score word_var. induction qs as [|w qs IH]; intros score word_var Hcover; [done|]. simpl.
  rewrite last_or_cons. destruct (py_in w words) eqn:Hw; simpl; [|by rewrite IH by set_solver].
  apply py_in_spec in Hw. destruct (dict_get_is_Some idfs w) as [_ [i Hi]]; [apply Hcover; set_solver|].
  unfold dict_subscript. rewrite Hi. simpl. by rewrite IH by set_solver.
Qed.

Lemma sent_score_no_words (idfs : pydict string F) (qs : list string) : sent_score idfs qs [] = fl_zero.
Proof. unfold sent_score. induction qs as [|w qs IH]; [done|]. exact IH. Qed.

Lemma sentence_in_get (idfs : pydict string F) (qs : list string) (d : pydict string (F * F))
    (wv : option string) (s s' : string) (ws : list string) :
  dict_get (sentence_in idfs qs (d, wv) (s', ws)).1 s =
  if decide (s' = s) then from_option Some (dict_get d s) (sentence_entry idfs qs ws) else dict_get d s.
Proof.
  simpl. destruct (sentence_entry idfs qs ws) as [e|] eqn:E; simpl; [|by case_decide].
  rewrite dict_get_setitem. case_decide; subst; congruence.
Qed.

Lemma sentences_loop (idfs : pydict string F) (qs : list string) (sentences : pydict string (list string))
    (d : pydict string (F * F)) (wv : option string) (s : string) :
  NoDup (dict_keys sentences) →
  dict_get (foldl (sentence_in idfs qs) (d, wv) sentences).1 s =
  match dict_get sentences s with
  | Some ws => from_option Some (dict_get d s) (sentence_entry idfs qs ws)
  | None => dict_get d s
  end.
Proof.
  unfold dict_keys. revert d wv. induction sentences as [|[s' ws] sentences IH]; intros d wv Hnd; [done|].
  cbn [foldl dict_get fmap list_fmap fst] in *. apply NoDup_cons in Hnd as [Hs' Hnd].
  destruct (sentence_in idfs qs (d, wv) (s', ws)) as [d' wv'] eqn:Hst.
  rewrite IH by done. pose proof (sentence_in_get idfs qs d wv s s' ws) as Hget. rewrite Hst in Hget.
  simpl in Hget. rewrite Hget. destruct (decide (s' = s)) as [->|Hne]; [|by case_match].
  by assert (dict_get sentences s = None) as -> by (apply dict_get_None; done).
Qed.

(** [top_sentences] reads [idfs] only through [idfs[word]], so dicts with
    the same lookups give the same answer. *)
#[export] Instance top_sentences_Proper :
  Proper (eq ==> eq ==> dict_equiv ==> eq ==> eq) top_sentences.
Proof.
  intros query ? <- sentences ? <- i1 i2 Hi n ? <-.
  unfold top_sentences, sentence_scores. f_equal. apply py_for_ext_in.
  intros [d wv] [s ws] _. cbv beta iota zeta. f_equal.
  apply py_for_ext_in. intros [sc wv'] w _. by rewrite !Hi.
Qed.

Section Laws.
Hypothesis set_order_perm : ∀ l, set_order l ≡ₚ l.

(** The counting loop counts, for each word, the documents that contain it. *)
Lemma idf_counts_spec (documents : pydict string (list string)) :
  ∃ cd, idf_counts documents = Ok cd ∧ NoDup (dict_keys cd) ∧
    ∀ w, dict_get cd w = if (doc_freq documents w =? 0)%nat then None else Some (doc_freq documents w).
Proof.
  eexists. split; [apply idf_counts_loop|].
  assert (Hnd : NoDup (set_order (remove_dups (all_words documents)))).
  { rewrite set_order_perm. apply NoDup_remove_dups. }
  split.
  - apply foldl_inv; [constructor|]. intros cd word Hcd.
    apply foldl_inv; [done|]. intros cd' c Hcd'. unfold count_in.
    case_match; [by apply dict_keys_setitem_NoDup | done].
  - intros w. rewrite count_words_loop by done. fold (doc_freq documents w).
    assert (Hin : w ∈ set_order (remove_dups (all_words documents)) ↔ doc_freq documents w ≠ 0%nat).
    { by rewrite set_order_perm, elem_of_remove_dups, elem_of_all_words. }
    unfold count_add. case_decide as Hw; rewrite Hin in Hw; simpl.
    + by rewrite (proj2 (Nat.eqb_neq _ 0) Hw).
    + apply dec_stable in Hw. by rewrite Hw.
Qed.
(** [compute_idfs] returns the IDF of each word of the documents. *)
Lemma compute_idfs_Ok (documents : pydict string (list string)) :
  ∃ idfs, compute_idfs documents = Ok idfs ∧ NoDup (dict_keys idfs) ∧
    ∀ w, dict_get idfs w =
         if (doc_freq documents w =? 0)%nat then None
         else Some (fl_log (fl_div_int (length documents) (doc_freq documents w))).
Proof.
  destruct (idf_counts_spec documents) as (cd & Hcd & Hnd & Hget).
  set (f := λ (_ : string) (c : nat), fl_log (fl_div_int (length documents) c)).
  unfold compute_idfs. rewrite Hcd. simpl.
  rewrite (py_for_Ok _ (λ acc '(k', v), dict_setitem acc k' (f k' v))).
  2: { intros acc [w c] Hwc. unfold py_truediv.
       pose proof (Hget w) as Hw. rewrite (dict_get_elem_NoDup cd w c Hnd Hwc) in Hw.
       destruct (doc_freq documents w =? 0)%nat eqn:E; [done|]. injection Hw as ->.
       by rewrite E. }
  eexists. split; [done|]. split; [apply dict_keys_map_loop; constructor|].
  intros w. rewrite dict_get_map_loop by done. rewrite Hget. simpl.
  case_decide as Hw; [by case_match|].
  rewrite <- dict_get_is_Some, Hget in Hw. by case_match; [|destruct Hw].
Qed.
Lemma tfidf_scores_loop (query : list string) (files : pydict string (list string)) (idfs : pydict string F) :
  idfs_cover query files idfs →
  tfidf_scores query files idfs = Ok (foldl (λ d word, foldl (tfidf_in idfs word) d files) [] (set_order query)).
Proof.
  intros Hcover. unfold tfidf_scores. apply py_for_Ok. intros d word Hw. apply py_for_Ok.
  intros d' [f c] Hfc. unfold tfidf_in. cbv zeta.
  destruct (count_occ String.string_dec c word =? 0)%nat eqn:E; [done|].
  assert (Hin : word ∈ dict_keys idfs).
  { rewrite set_order_perm in Hw. apply (Hcover word f c Hw Hfc).
    apply list_elem_of_In, (count_occ_In String.string_dec). apply Nat.eqb_neq in E. lia. }
  apply dict_get_is_Some in Hin as [i Hi]. unfold dict_subscript. rewrite Hi.
  by destruct (dict_get d' f).
Qed.

(** The scores [tfidf_scores] computes, as [file_score]. *)
Lemma tfidf_scores_Ok (query : list string) (files : pydict string (list string)) (idfs : pydict string F) :
  idfs_cover query files idfs → NoDup (dict_keys files) →
  ∃ d, tfidf_scores query files idfs = Ok d ∧ NoDup (dict_keys d) ∧
    ∀ f, dict_get d f = dict_get files f ≫= file_score (set_order query) idfs.
Proof.
  intros Hcover Hnd. eexists. split; [by apply tfidf_scores_loop|]. split.
  - apply foldl_inv; [constructor|]. intros d word Hd. apply foldl_inv; [done|].
    intros d' [f c] Hd'. unfold tfidf_in. case_match; [done | by apply dict_keys_setitem_NoDup].
  - intros f. rewrite tfidf_words_loop by done. by destruct (dict_get files f).
Qed.

Context `{!PyFloatLaws F}.

(** C17: [top_files] returns at most [n] distinct files, [min n] of the
    number of scored files, and every file it returns has a score not below
    the score of any scored file it leaves out. *)
Theorem top_files_top (query : list string) (files : pydict string (list string)) (idfs : pydict string F)
    (n : nat) :
  idfs_cover query files idfs → NoDup (dict_keys files) →
  ∃ d r, tfidf_scores query files idfs = Ok d ∧ top_files query files idfs n = Ok r ∧
    NoDup r ∧ length r = min n (length d) ∧
    ∀ f g sf sg, f ∈ r → g ∉ r → dict_get d f = Some sf → dict_get d g = Some sg → fl_lt sf sg = false.
Proof.
  intros Hcover Hnd. destruct (tfidf_scores_Ok query files idfs Hcover Hnd) as (d & Hd & Hndd & _).
  exists d, (take n (fst <$> sorted_desc fl_lt snd d)). unfold top_files. rewrite Hd.
  split_and!; [done | done |..];
    apply (sorted_items_top fl_lt fl_lt_asym fl_lt_neg_trans d n Hndd).
Qed.
Lemma fl_eq_refl (a : F) : fl_eq a a = true.
Proof.
  apply fl_eq_spec. destruct (fl_lt a a) eqn:E; [|done]. pose proof (fl_lt_asym a a E). congruence.
Qed.

Lemma fl_eq_not_lt (a b : F) : fl_eq a b = true → fl_lt a b = false ∧ fl_lt b a = false.
Proof. apply fl_eq_spec. Qed.

Lemma fl_lt_not_eq (a b : F) : fl_lt a b = true → fl_eq a b = false.
Proof. intros Hab. destruct (fl_eq a b) eqn:E; [|done]. apply fl_eq_not_lt in E. naive_solver. Qed.

Lemma fl_eq_sym (a b : F) : fl_eq a b = fl_eq b a.
Proof. apply eq_bool_prop_intro. rewrite !Is_true_true, !fl_eq_spec. tauto. Qed.

(** [<] on pairs, as a disjunction. *)
Lemma pair_lt_spec (p q : F * F) :
  pair_lt p q = true ↔ fl_lt p.1 q.1 = true ∨ (fl_eq p.1 q.1 = true ∧ fl_lt p.2 q.2 = true).
Proof.
  unfold pair_lt. destruct (fl_eq p.1 q.1) eqn:E1.
  - pose proof (fl_eq_not_lt _ _ E1) as [-> _]. destruct (fl_eq p.2 q.2) eqn:E2.
    + pose proof (fl_eq_not_lt _ _ E2) as [-> _]. naive_solver.
    + naive_solver.
  - naive_solver.
Qed.

Lemma pair_lt_asym (p q : F * F) : pair_lt p q = true → pair_lt q p = false.
Proof.
  rewrite pair_lt_spec. intros Hpq. destruct (pair_lt q p) eqn:E; [|done].
  apply pair_lt_spec in E. rewrite (fl_eq_sym q.1) in E.
  destruct Hpq as [H1|[H1 H2]], E as [E1|[E1 E2]].
  - by rewrite (fl_lt_asym _ _ H1) in E1.
  - by rewrite (fl_lt_not_eq _ _ H1) in E1.
  - by rewrite fl_eq_sym, (fl_lt_not_eq _ _ E1) in H1.
  - by rewrite (fl_lt_asym _ _ H2) in E2.
Qed.

(** Two floats neither below a third's equal nor above it are [==] to it. *)
Lemma fl_eq_between (a b c : F) :
  fl_eq a c = true → fl_lt a b = false → fl_lt b c = false → fl_eq a b = true ∧ fl_eq b c = true.
Proof.
  intros Hac Hab Hbc. apply fl_eq_not_lt in Hac as [Hac Hca]. rewrite !fl_eq_spec. split_and!; try done.
  - destruct (fl_lt b a) eqn:E; [|done]. destruct (fl_lt_neg_trans b c a E); congruence.
  - destruct (fl_lt c b) eqn:E; [|done]. destruct (fl_lt_neg_trans c a b E); congruence.
Qed.

Lemma pair_lt_neg_trans (p q r : F * F) :
  pair_lt p r = true → pair_lt p q = true ∨ pair_lt q r = true.
Proof.
  rewrite !pair_lt_spec. intros [H1|[H1 H2]].
  - destruct (fl_lt_neg_trans _ q.1 _ H1); auto.
  - destruct (fl_lt p.1 q.1) eqn:Epq; [auto|]. destruct (fl_lt q.1 r.1) eqn:Eqr; [auto|].
    destruct (fl_eq_between _ _ _ H1 Epq Eqr) as [Hpq Hqr].
    destruct (fl_lt_neg_trans _ q.2 _ H2); auto.
Qed.

Lemma sentence_scores_loop (query : list string) (sentences : pydict string (list string))
    (idfs : pydict string F) :
  idfs_cover query sentences idfs →
  sentence_scores query sentences idfs = Ok (foldl (sentence_in idfs (set_order query)) ([], None) sentences).
Proof.
  intros Hcover. unfold sentence_scores. apply py_for_Ok. intros [d wv] [s ws] Hs. cbv zeta.
  rewrite sent_score_loop.
  2: { intros w Hw Hws. rewrite set_order_perm in Hw. by apply (Hcover w s ws). }
  simpl. unfold sentence_in, sentence_entry. fold (sent_score idfs (set_order query) ws).
  destruct (fl_eq (sent_score idfs (set_order query) ws) fl_zero) eqn:Hz; [done|]. simpl.
  unfold last_or. destruct (last (set_order query)) as [w|] eqn:Hl.
  - unfold py_truediv. destruct ws as [|w' ws]; [by rewrite sent_score_no_words, fl_eq_refl in Hz|].
    done.
  - apply last_None in Hl. rewrite Hl in Hz. unfold sent_score in Hz. simpl in Hz.
    by rewrite fl_eq_refl in Hz.
Qed.

(** The entries [sentence_scores] computes: the score when it is not 0,
    with the density of the last query word. *)
Lemma sentence_scores_Ok (query : list string) (sentences : pydict string (list string))
    (idfs : pydict string F) :
  idfs_cover query sentences idfs → NoDup (dict_keys sentences) →
  ∃ d wv, sentence_scores query sentences idfs = Ok (d, wv) ∧ NoDup (dict_keys d) ∧
    ∀ s, dict_get d s =
      match dict_get sentences s with
      | Some ws =>
          let score := sent_score idfs (set_order query) ws in
          if fl_eq score fl_zero then None
          else w ← last (set_order query);
               Some (score, fl_div_int (count_occ String.string_dec ws w) (length ws))
      | None => None
      end.
Proof.
  intros Hcover Hnd. rewrite sentence_scores_loop by done.
  destruct (foldl (sentence_in idfs (set_order query)) ([], None) sentences) as [d wv] eqn:E.
  exists d, wv. split; [done|]. split.
  - change d with (d, wv).1. rewrite <- E. apply foldl_inv; [constructor|].
    intros [d' wv'] [s ws] Hd'. simpl. case_match; [by apply dict_keys_setitem_NoDup | done].
  - intros s. change d with (d, wv).1. rewrite <- E, sentences_loop by done.
    case_match; [|done]. unfold sentence_entry. cbv zeta. case_match; [done|]. by destruct (last _).
Qed.
(** C21: [top_sentences] returns at most [n] distinct sentences, [min n] of
    the number of sentences with an entry, and every sentence it returns
    has a (score, density) pair not below that of any sentence with an
    entry that it leaves out. *)
Theorem top_sentences_top (query : list string) (sentences : pydict string (list string))
    (idfs : pydict string F) (n : nat) :
  idfs_cover query sentences idfs → NoDup (dict_keys sentences) →
  ∃ d wv r, sentence_scores query sentences idfs = Ok (d, wv) ∧ top_sentences query sentences idfs n = Ok r ∧
    NoDup r ∧ length r = min n (length d) ∧
    ∀ s t es et, s ∈ r → t ∉ r → dict_get d s = Some es → dict_get d t = Some et → pair_lt es et = false.
Proof.
  intros Hcover Hnd. destruct (sentence_scores_Ok query sentences idfs Hcover Hnd) as (d & wv & Hd & Hndd & _).
  exists d, wv, (take n (fst <$> sorted_desc pair_lt snd d)). unfold top_sentences. rewrite Hd.
  split_and!; [done | done |..]; apply (sorted_items_top pair_lt pair_lt_asym pair_lt_neg_trans d n Hndd).
Qed.

(** C19: A sentence comes out of [top_sentences] only if the IDFs of the
    query words it contains do not sum to [== 0] ([if score:]).  A
    sentence that contains query words whose IDFs are all 0 (words in every
    sentence) is never returned, however well it matches. *)
Theorem top_sentences_nonzero (query : list string) (sentences : pydict string (list string))
    (idfs : pydict string F) (n : nat) (r : list string) (s : string) :
  idfs_cover query sentences idfs → NoDup (dict_keys sentences) →
  top_sentences query sentences idfs n = Ok r → s ∈ r →
  ∃ ws, dict_get sentences s = Some ws ∧ fl_eq (sent_score idfs (set_order query) ws) fl_zero = false.
Proof.
  intros Hcover Hnd Hr Hs. destruct (sentence_scores_Ok query sentences idfs Hcover Hnd) as (d & wv & Hd & Hndd & Hget).
  unfold top_sentences in Hr. rewrite Hd in Hr. simpl in Hr. injection Hr as <-.
  apply subseteq_take in Hs. apply list_elem_of_fmap in Hs as ([s' e] & -> & Hs). simpl.
  rewrite sorted_desc_perm in Hs. apply (dict_get_elem_NoDup d s' e Hndd) in Hs. rewrite Hget in Hs.
  destruct (dict_get sentences s') as [ws|]; [|done]. exists ws. split; [done|]. simpl in Hs.
  by destruct (fl_eq _ fl_zero).
Qed.

(** [main] passes [compute_idfs] of the same dict: every word of every
    document has an IDF. *)
Lemma compute_idfs_cover (query : list string) (documents : pydict string (list string))
    (idfs : pydict string F) :
  compute_idfs documents = Ok idfs → idfs_cover query documents idfs.
Proof.
  intros Hc w f c _ Hfc Hw. destruct (compute_idfs_Ok documents) as (idfs' & Hc' & _ & Hget).
  rewrite Hc in Hc'. injection Hc' as <-. apply dict_get_is_Some. rewrite Hget.
  destruct (doc_freq documents w =? 0)%nat eqn:E; [|done]. exfalso. apply Nat.eqb_eq in E.
  revert E. apply length_filter_pos. exists c. split; [|done]. by apply (list_elem_of_fmap_2 snd) in Hfc.
Qed.

(** C20: The ranking as [main] runs it never raises: with the IDFs that
    [compute_idfs] computes from a dict of documents, [top_files] and
    [top_sentences] on that dict return, whatever the query. *)
Theorem ranking_no_raise (query : list string) (documents : pydict string (list string)) (n : nat) :
  NoDup (dict_keys documents) →
  ∃ idfs r1 r2, compute_idfs documents = Ok idfs ∧
    top_files query documents idfs n = Ok r1 ∧ top_sentences query documents idfs n = Ok r2.
Proof.
  intros Hnd. destruct (compute_idfs_Ok documents) as (idfs & Hc & _).
  pose proof (compute_idfs_cover query documents idfs Hc) as Hcover.
  destruct (tfidf_scores_Ok query documents idfs Hcover Hnd) as (d1 & Hd1 & _).
  destruct (sentence_scores_Ok query documents idfs Hcover Hnd) as (d2 & wv & Hd2 & _).
  eexists _, _, _. unfold top_files, top_sentences. rewrite Hd1, Hd2. done.
Qed.
(** C9: [compute_idfs] never raises.  Its dict has one entry per word
    that occurs in some document, and the entry of [w] is
    [np.log(numDocs / df)], where [df] is the number of documents that
    contain [w].  The result does not depend on the iteration order of the
    set of words. *)
Theorem compute_idfs_spec (documents : pydict string (list string)) :
  ∃ idfs, compute_idfs documents = Ok idfs ∧ NoDup (dict_keys idfs) ∧
    ∀ w, dict_get idfs w =
         if (doc_freq documents w =? 0)%nat then None
         else Some (fl_log (fl_div_int (length documents) (doc_freq documents w))).
Proof. apply compute_idfs_Ok. Qed.

(** C14: The loop of [top_files] gives each file that contains a query word
    the sum of [tf * idfs[word]] over the query words it contains, in the
    order the loop visits them, and no other file a score.  It raises no
    [KeyError] when every query word of a file has an IDF. *)
Theorem tfidf_scores_spec (query : list string) (files : pydict string (list string)) (idfs : pydict string F) :
  idfs_cover query files idfs → NoDup (dict_keys files) →
  ∃ d, tfidf_scores query files idfs = Ok d ∧ NoDup (dict_keys d) ∧
    ∀ f, dict_get d f = dict_get files f ≫= file_score (set_order query) idfs.
Proof. apply tfidf_scores_Ok. Qed.



(** C10: The loop of [top_sentences] never raises when every query word of
    a sentence has an IDF.  A sentence gets an entry exactly when its
    score, the sum of the IDFs of the query words it contains, is not
    [== 0].  The entry's density is the count of the LAST query word the
    loop visited divided by the sentence's length: the variable [word]
    left over from the loop, not the share of query words. *)
Theorem sentence_scores_spec (query : list string) (sentences : pydict string (list string))
    (idfs : pydict string F) :
  idfs_cover query sentences idfs → NoDup (dict_keys sentences) →
  ∃ d wv, sentence_scores query sentences idfs = Ok (d, wv) ∧ NoDup (dict_keys d) ∧
    ∀ s, dict_get d s =
      match dict_get sentences s with
      | Some ws =>
          let score := sent_score idfs (set_order query) ws in
          if fl_eq score fl_zero then None
          else w ← last (set_order query);
               Some (score, fl_div_int (count_occ String.string_dec ws w) (length ws))
      | None => None
      end.
Proof. apply sentence_scores_Ok. Qed.

End Laws.
End Ranking.

(** ** The ranking depends on the hash order of the query *)

(** Fold the projections of a [PyFloat] instance that [vm_compute] unfolds. *)
Ltac fold_floats :=
  match goal with
  | Hf : PyFloat ?F |- _ =>
      fold (@fl_eq F Hf) (@fl_add F Hf) (@fl_zero F Hf) (@fl_div_int F Hf) (@fl_lt F Hf)
        (@fl_log F Hf) (@fl_mul_int F Hf)
  end.

Section Example.
Context `{PyFloatLaws F}.

(** Three sentences; [s2] holds query words only. *)
Definition example_sentences : pydict string (list string) :=
  [("s1", ["a"; "a"; "b"; "x"]); ("s2", ["a"; "b"; "b"]); ("s3", ["x"])].

(** The query [{"a", "b"}]. *)
Definition example_query : list string := ["a"; "b"].

(** Every word of [example_sentences] is in two of the three sentences. *)
Definition example_idf : F := fl_log (fl_div_int 3 2).

Lemma example_idfs (ord : list string → list string) :
  (∀ l, ord l ≡ₚ l) →
  ∃ idfs, compute_idfs ord example_sentences = Ok idfs ∧
    dict_equiv idfs [("a", example_idf); ("b", example_idf); ("x", example_idf)].
Proof.
  intros Hperm. destruct (compute_idfs_Ok ord Hperm example_sentences) as (idfs & Hc & _ & Hget).
  exists idfs. split; [done|]. intros w. rewrite Hget. unfold example_idf.
  destruct (decide (w ∈ ["a"; "b"; "x"])) as [Hw|Hw].
  - repeat (apply elem_of_cons in Hw as [->|Hw]); [reflexivity..|set_solver].
  - assert (doc_freq example_sentences w = 0%nat) as ->.
    { unfold doc_freq. rewrite filter_none; [done|]. intros c Hcs Hwc. cbn in Hcs. apply Hw.
      repeat (apply elem_of_cons in Hcs as [->|Hcs]); [..|by apply not_elem_of_nil in Hcs];
        repeat (apply elem_of_cons in Hwc as [->|Hwc]); try (by apply not_elem_of_nil in Hwc); decide_true. }
    simpl. by repeat (rewrite decide_False by set_solver).
Qed.

(** C18: Which sentence [top_sentences] ranks first depends on the
    iteration order of the query set, which CPython fixes per run by the
    string hash seed.  Both [s1] and [s2] contain both query words, so their
    scores are equal and the density decides.  The density is that of the
    last query word visited, so [s2], made of query words only, wins when
    "b" comes last, and [s1] wins when "a" comes last.  The float facts
    assumed hold for IEEE doubles. *)
Theorem top_sentences_hash_order (ord1 ord2 : list string → list string) :
  (∀ l, ord1 l ≡ₚ l) → (∀ l, ord2 l ≡ₚ l) →
  ord1 example_query = ["a"; "b"] → ord2 example_query = ["b"; "a"] →
  fl_eq (fl_add (fl_add fl_zero example_idf) example_idf) fl_zero = false →
  fl_lt (fl_div_int 1 4) (fl_div_int 2 3) = true →
  fl_lt (fl_div_int 1 3) (fl_div_int 2 4) = true →
  (∃ idfs, compute_idfs ord1 example_sentences = Ok idfs ∧
           top_sentences ord1 example_query example_sentences idfs 1 = Ok ["s2"]) ∧
  (∃ idfs, compute_idfs ord2 example_sentences = Ok idfs ∧
           top_sentences ord2 example_query example_sentences idfs 1 = Ok ["s1"]).
Proof.
  intros Hp1 Hp2 Ho1 Ho2 Hz Hlt1 Hlt2.
  pose proof (fl_lt_not_eq _ _ Hlt1) as Heq1. pose proof (fl_lt_not_eq _ _ Hlt2) as Heq2.
  pose proof (fl_lt_asym _ _ Hlt2) as Hlt2'. unfold example_idf in Hz.
  pose proof Heq1 as Heq1'. rewrite fl_eq_sym in Heq1'. pose proof Heq2 as Heq2'. rewrite fl_eq_sym in Heq2'.
  split; [destruct (example_idfs ord1 Hp1) as (idfs & Hc & Hget)
         |destruct (example_idfs ord2 Hp2) as (idfs & Hc & Hget)];
    exists idfs; split; try done; rewrite Hget;
    unfold top_sentences, sentence_scores; rewrite ?Ho1, ?Ho2;
    do 8 (vm_compute; fold_floats; rewrite ?Hz, ?Hlt1, ?Heq1, ?Heq2, ?Heq1', ?Heq2', ?Hlt2', ?fl_eq_refl); done.
Qed.
End Example.

(** ** Witnesses

    The witnesses run the ranking on rationals.  [np.log] has no rational
    values, so [fl_log] is the stand-in [q - 1], which shares with the
    logarithm the value 0 at 1 and the sign elsewhere.  The theorems do
    not depend on it: they hold for every [PyFloat]. *)

#[export] Instance Q_py_float : PyFloat Q := {|
  fl_zero := 0%Q;
  fl_add := Qplus;
  fl_mul_int := λ n q, (inject_Z (Z.of_nat n) * q)%Q;
  fl_div_int := λ a b, (inject_Z (Z.of_nat a) / inject_Z (Z.of_nat b))%Q;
  fl_log := λ q, (q - 1)%Q;
  fl_lt := λ a b, negb (Qle_bool b a);
  fl_eq := Qeq_bool
|}.

#[export] Instance Q_py_float_laws : PyFloatLaws Q.
Proof.
  split; cbn.
  - intros a b Hab. apply negb_true_iff in Hab. apply negb_false_iff, Qle_bool_iff.
    apply Qlt_le_weak, Qnot_le_lt. intros Hba. apply Qle_bool_iff in Hba. congruence.
  - intros a b c Hac. apply negb_true_iff in Hac. rewrite !negb_true_iff.
    destruct (Qle_bool b a) eqn:Hba; [|by left]. right.
    destruct (Qle_bool c b) eqn:Hcb; [|done].
    apply Qle_bool_iff in Hba, Hcb. apply not_true_iff_false in Hac. exfalso. apply Hac.
    apply Qle_bool_iff. by apply (Qle_trans _ b).
  - intros a b. rewrite !negb_false_iff, !Qle_bool_iff, Qeq_bool_iff. split.
    + intros Hab. rewrite Hab. split; apply Qle_refl.
    + intros [Hba Hab]. by apply Qle_antisym.
Qed.

Lemma id_set_order (l : list string) : id l ≡ₚ l.
Proof. reflexivity. Qed.

Lemma reverse_set_order (l : list string) : reverse l ≡ₚ l.
Proof. apply reverse_Permutation. Qed.

(** The IDFs of [example_sentences] on rationals. *)
Definition example_Q_idfs : pydict string Q :=
  Eval vm_compute in
    match compute_idfs id example_sentences with Ok i => i | Raise _ => [] end.

Lemma example_Q_idfs_Ok : compute_idfs id example_sentences = Ok example_Q_idfs.
Proof. vm_compute. reflexivity. Qed.

Lemma example_Q_cover : idfs_cover example_query example_sentences example_Q_idfs.
Proof. apply (compute_idfs_cover id id_set_order), example_Q_idfs_Ok. Qed.

Lemma example_sentences_NoDup : NoDup (dict_keys example_sentences).
Proof. decide_true. Qed.

Lemma compute_idfs_spec_witness :
  (∀ l : list string, id l ≡ₚ l) ∧
  ∃ idfs : pydict string Q, compute_idfs id example_sentences = Ok idfs ∧ NoDup (dict_keys idfs) ∧
    ∀ w, dict_get idfs w =
         if (doc_freq example_sentences w =? 0)%nat then None
         else Some (fl_log (fl_div_int (length example_sentences) (doc_freq example_sentences w))).
Proof. split; [exact id_set_order | apply (compute_idfs_spec id id_set_order)]. Defined.

Lemma tfidf_scores_spec_witness :
  idfs_cover example_query example_sentences example_Q_idfs ∧ NoDup (dict_keys example_sentences) ∧
  ∃ d, tfidf_scores id example_query example_sentences example_Q_idfs = Ok d ∧ NoDup (dict_keys d) ∧
    ∀ f, dict_get d f = dict_get example_sentences f ≫= file_score (id example_query) example_Q_idfs.
Proof.
  split; [exact example_Q_cover|]. split; [exact example_sentences_NoDup|].
  apply (tfidf_scores_spec id id_set_order); [exact example_Q_cover | exact example_sentences_NoDup].
Defined.

Lemma top_files_top_witness :
  idfs_cover example_query example_sentences example_Q_idfs ∧ NoDup (dict_keys example_sentences) ∧
  ∃ d r, tfidf_scores id example_query example_sentences example_Q_idfs = Ok d ∧
    top_files id example_query example_sentences example_Q_idfs 2 = Ok r ∧
    NoDup r ∧ length r = min 2 (length d) ∧
    ∀ f g sf sg, f ∈ r → g ∉ r → dict_get d f = Some sf → dict_get d g = Some sg → fl_lt sf sg = false.
Proof.
  split; [exact example_Q_cover|]. split; [exact example_sentences_NoDup|].
  apply (top_files_top id id_set_order); [exact example_Q_cover | exact example_sentences_NoDup].
Defined.

Lemma sentence_scores_spec_witness :
  idfs_cover example_query example_sentences example_Q_idfs ∧ NoDup (dict_keys example_sentences) ∧
  ∃ d wv, sentence_scores id example_query example_sentences example_Q_idfs = Ok (d, wv) ∧
    NoDup (dict_keys d) ∧
    ∀ s, dict_get d s =
      match dict_get example_sentences s with
      | Some ws =>
          let score := sent_score example_Q_idfs (id example_query) ws in
          if fl_eq score fl_zero then None
          else w ← last (id example_query);
               Some (score, fl_div_int (count_occ String.string_dec ws w) (length ws))
      | None => None
      end.
Proof.
  split; [exact example_Q_cover|]. split; [exact example_sentences_NoDup|].
  apply (sentence_scores_spec id id_set_order); [exact example_Q_cover | exact example_sentences_NoDup].
Defined.

Lemma top_sentences_top_witness :
  idfs_cover example_query example_sentences example_Q_idfs ∧ NoDup (dict_keys example_sentences) ∧
  ∃ d wv r, sentence_scores id example_query example_sentences example_Q_idfs = Ok (d, wv) ∧
    top_sentences id example_query example_sentences example_Q_idfs 1 = Ok r ∧
    NoDup r ∧ length r = min 1 (length d) ∧
    ∀ s t es et, s ∈ r → t ∉ r → dict_get d s = Some es → dict_get d t = Some et → pair_lt es et = false.
Proof.
  split; [exact example_Q_cover|]. split; [exact example_sentences_NoDup|].
  apply (top_sentences_top id id_set_order); [exact example_Q_cover | exact example_sentences_NoDup].
Defined.

Lemma top_sentences_nonzero_witness :
  top_sentences id example_query example_sentences example_Q_idfs 1 = Ok ["s2"] ∧
  ∃ ws, dict_get example_sentences "s2" = Some ws ∧
        fl_eq (sent_score example_Q_idfs (id example_query) ws) fl_zero = false.
Proof.
  assert (Hr : top_sentences id example_query example_sentences example_Q_idfs 1 = Ok ["s2"])
    by (vm_compute; reflexivity).
  split; [exact Hr|].
  apply (top_sentences_nonzero id id_set_order example_query example_sentences example_Q_idfs 1 ["s2"]);
    [exact example_Q_cover | exact example_sentences_NoDup | exact Hr | decide_true].
Defined.

Lemma ranking_no_raise_witness :
  NoDup (dict_keys example_sentences) ∧
  ∃ idfs r1 r2, compute_idfs reverse example_sentences = Ok idfs ∧
    top_files reverse example_query example_sentences idfs 1 = Ok r1 ∧
    top_sentences reverse example_query example_sentences idfs 1 = Ok r2.
Proof.
  split; [exact example_sentences_NoDup|].
  apply (ranking_no_raise (F := Q) reverse reverse_set_order), example_sentences_NoDup.
Defined.

Lemma top_sentences_hash_order_witness :
  (∃ idfs : pydict string Q, compute_idfs id example_sentences = Ok idfs ∧
           top_sentences id example_query example_sentences idfs 1 = Ok ["s2"]) ∧
  (∃ idfs : pydict string Q, compute_idfs reverse example_sentences = Ok idfs ∧
           top_sentences reverse example_query example_sentences idfs 1 = Ok ["s1"]).
Proof.
  apply (top_sentences_hash_order id reverse id_set_order reverse_set_order);
    vm_compute; reflexivity.
Defined.
