(* ===== verification/PyString.v ===== *)
(** * PyString: the Python string operations [questions.py] uses

    A Python [str] is a sequence of code points.  It is modelled as a
    Stdlib [string], whose characters are the code points 0 to 255
    (Latin-1); text with larger code points is not modelled.
    - [py_split sep s] is [s.split(sep)] for a one-character [sep], and
      [py_join sep l] is [sep.join(l)]; [split_newline] is
      [s.split("\n")].  They are inverse ([py_join_split],
      [py_split_join]), so the passages [main] cuts a text into are the
      whole text ([join_split_newline]).
    - [py_lower] is [str.lower()] and [py_isalpha] is [str.isalpha()] on
      those code points, with the Unicode case mapping and letter
      categories of Latin-1.
    - [os_path_join] is [os.path.join] of two POSIX paths. *)

From Stdlib Require Import Ascii.
From stdpp Require Import strings.
From S2P Require Import Prelude.

Local Open Scope nat_scope.

(** The newline character, code 10. *)
Definition newline : ascii := ascii_of_nat 10.

(** ** [split] and [join] on one character *)

(** [s.split(sep)] for a one-character [sep]: the pieces between the
    occurrences of [sep]; [""] gives [[""]]. *)
Fixpoint py_split (sep : ascii) (s : string) : list string :=
  match s with
  | EmptyString => [EmptyString]
  | String c s' =>
      let rest := py_split sep s' in
      if Ascii.eqb c sep then EmptyString :: rest
      else match rest with
           | r :: rs => String c r :: rs
           | [] => [String c EmptyString]
           end
  end.

(** [sep.join(l)] *)
Definition py_join (sep : ascii) (l : list string) : string := String.concat (String sep EmptyString) l.

(** [s.split("\n")] *)
Definition split_newline (s : string) : list string := py_split newline s.

(** [c] occurs in [s]. *)
Fixpoint string_has (c : ascii) (s : string) : bool :=
  match s with
  | EmptyString => false
  | String c' s' => Ascii.eqb c' c || string_has c s'
  end.

(** ** [lower] and [isalpha] *)

(** [c.lower()] on a code point below 256: A-Z and À-Þ (but not ×) move
    down by 32. *)
Definition py_lower_char (c : ascii) : ascii :=
  let n := nat_of_ascii c in
  if ((65 <=? n) && (n <=? 90)) || ((192 <=? n) && (n <=? 222) && negb (n =? 215))
  then ascii_of_nat (n + 32) else c.

(** [s.lower()] *)
Fixpoint py_lower (s : string) : string :=
  match s with
  | EmptyString => EmptyString
  | String c s' => String (py_lower_char c) (py_lower s')
  end.

(** [c.isalpha()] on a code point below 256: the letters of Latin-1,
    A-Z, a-z, ª, µ, º, À-Ö, Ø-ö and ø-ÿ. *)
Definition py_isalpha_char (c : ascii) : bool :=
  let n := nat_of_ascii c in
  ((65 <=? n) && (n <=? 90)) || ((97 <=? n) && (n <=? 122))
  || (n =? 170) || (n =? 181) || (n =? 186)
  || ((192 <=? n) && (n <=? 214)) || ((216 <=? n) && (n <=? 246)) || (248 <=? n).

(** Every character of [s] is a letter. *)
Fixpoint all_alpha (s : string) : bool :=
  match s with
  | EmptyString => true
  | String c s' => py_isalpha_char c && all_alpha s'
  end.

(** [s.isalpha()]: not empty, and every character a letter. *)
Definition py_isalpha (s : string) : bool :=
  match s with
  | EmptyString => false
  | _ => all_alpha s
  end.

(** ** [os.path.join(a, b)] on POSIX *)

(** The slash, code 47. *)
Definition slash : ascii := ascii_of_nat 47.

(** [s.startswith(c)] *)
Definition starts_with (c : ascii) (s : string) : bool :=
  match s with EmptyString => false | String c' _ => Ascii.eqb c' c end.

(** [s.endswith(c)] *)
Fixpoint ends_with (c : ascii) (s : string) : bool :=
  match s with
  | EmptyString => false
  | String c' EmptyString => Ascii.eqb c' c
  | String _ s' => ends_with c s'
  end.

(** [posixpath.join(a, b)]: an absolute [b] replaces [a]; otherwise [b] is
    appended, after a [/] unless [a] is empty or ends with one. *)
Definition os_path_join (a b : string) : string :=
  if starts_with slash b then b
  else if String.eqb a EmptyString || ends_with slash a then a +:+ b
  else a +:+ String slash b.

(** ** The round trip of [split] and [join] *)

Lemma string_app_nil_r (s : string) : s +:+ EmptyString = s.
Proof. induction s as [|c s IH]; [done | exact (f_equal (String c) IH)]. Qed.

Section Split.
Variable sep : ascii.

Lemma py_split_cons (s : string) : ∃ r rs, py_split sep s = r :: rs.
Proof.
  induction s as [|c s (r & rs & IH)]; simpl; [by eexists _, _|].
  rewrite IH. destruct (Ascii.eqb c sep); eauto.
Qed.

Lemma py_join_String (c : ascii) (r : string) (rs : list string) :
  py_join sep (String c r :: rs) = String c (py_join sep (r :: rs)).
Proof. by destruct rs. Qed.

(** Text without [sep] stays at the front of the first piece. *)
Lemma py_split_app (x t : string) :
  string_has sep x = false →
  py_split sep (x +:+ t) =
  match py_split sep t with r :: rs => (x +:+ r) :: rs | [] => [x] end.
Proof.
  intros Hx. destruct (py_split_cons t) as (r & rs & Ht). rewrite Ht.
  induction x as [|c x IH]; simpl in *; [exact Ht|].
  apply orb_false_iff in Hx as [Hc Hx]. by rewrite Hc, IH.
Qed.

(** [sep.join(s.split(sep)) == s] *)
Lemma py_join_split (s : string) : py_join sep (py_split sep s) = s.
Proof.
  induction s as [|c s IH]; [done|]. simpl.
  destruct (py_split_cons s) as (r & rs & Hs). rewrite Hs in IH |- *.
  destruct (Ascii.eqb c sep) eqn:Hc.
  - apply Ascii.eqb_eq in Hc as ->. unfold py_join. simpl. by rewrite <- IH.
  - rewrite py_join_String. by rewrite IH.
Qed.

(** [sep.join(l).split(sep) == l] when no piece contains [sep] and there
    is at least one piece. *)
Lemma py_split_join (l : list string) :
  l ≠ [] → Forall (λ s, string_has sep s = false) l → py_split sep (py_join sep l) = l.
Proof.
  induction l as [|x l IH]; intros Hne Hall; [done|]. apply Forall_cons in Hall as [Hx Hall].
  destruct l as [|y l].
  - unfold py_join. simpl. rewrite <- (string_app_nil_r x) at 1.
    rewrite py_split_app by done. simpl. by rewrite string_app_nil_r.
  - change (py_join sep (x :: y :: l)) with (x +:+ String sep (py_join sep (y :: l))).
    rewrite py_split_app by done. simpl. rewrite Ascii.eqb_refl, IH by done.
    by rewrite string_app_nil_r.
Qed.

(** Every piece of [s.split(sep)] is free of [sep]. *)
Lemma py_split_no_sep (s : string) : Forall (λ p, string_has sep p = false) (py_split sep s).
Proof.
  induction s as [|c s IH]; simpl; [by repeat constructor|].
  destruct (py_split_cons s) as (r & rs & Hs). rewrite Hs in IH |- *.
  apply Forall_cons in IH as [Hr Hrs].
  destruct (Ascii.eqb c sep) eqn:Hc; repeat constructor; try done.
  simpl. by rewrite Hc, Hr.
Qed.

End Split.

(** [main] splits a file's text on newlines into passages and loses
    nothing: the passages joined with newlines are the text again, and no
    passage contains a newline. *)
Theorem join_split_newline (s : string) :
  py_join newline (split_newline s) = s ∧ Forall (λ p, string_has newline p = false) (split_newline s).
Proof. split; [apply py_join_split | apply py_split_no_sep]. Qed.
