(* ===== verification/QuestionsMain.v ===== *)
(** * QuestionsMain: [main], [load_files] and [tokenize] of questions.py

    [main] ties the program together: it checks [sys.argv], loads the
    corpus with [load_files], tokenizes every file, ranks the files
    against the query with [compute_idfs] and [top_files] (Questions.v),
    cuts the best file into passages and sentences, and ranks the
    sentences with [compute_idfs] and [top_sentences].

    The outside world is an interface: [PyOS] is the operating system
    ([os.listdir] and [open(...).read()], either of which may raise) and
    [Nltk] the two tokenizers of nltk, which the program only calls.  The
    theorems hold for every instance; the witnesses run the program on a
    small in-memory corpus.  [input("Query: ")] is the argument
    [query_line] and the lines [print] writes are the result. *)

From Stdlib Require Import Ascii QArith.
From stdpp Require Import strings.
From S2P Require Import Prelude PyDict Questions PyString.

Local Open Scope py_scope.

(** ** The interfaces of the outside world *)

(** [os.listdir(path)] and [open(path, encoding="utf-8").read()].  Both
    can raise ([OSError] for a missing file or a directory, a decoding
    error for a file that is not UTF-8). *)
Class PyOS := {
  os_listdir : string → pyres (list string);
  open_read : string → pyres string
}.

(** [nltk.tokenize.word_tokenize] and [nltk.sent_tokenize]. *)
Class Nltk := {
  word_tokenize : string → list string;
  sent_tokenize : string → list string
}.

Section Main.
Context `{PyOS} `{Nltk} `{PyFloat F}.

(** The iteration order of a Python set of words. *)
Variable set_order : list string → list string.

Definition FILE_MATCHES : nat := 1.
Definition SENTENCE_MATCHES : nat := 1.

(** [load_files(directory)]: every entry of the directory, read as text,
    under its name, in the order [os.listdir] gives. *)
Definition load_files (directory : string) : pyres (pydict string string) :=
  names ← os_listdir directory;
  py_for (λ dictionary file,
      contents ← open_read (os_path_join directory file);
      Ok (dict_setitem dictionary file contents))
    names [].

(** [tokenize(document)]: the alphabetic words of the lower-cased text. *)
Definition tokenize (document : string) : list string :=
  let document := py_lower document in
  let tokenizedDocument := word_tokenize document in
  List.filter py_isalpha tokenizedDocument.

(** [{filename: tokenize(files[filename]) for filename in files}] *)
Definition file_words_of (files : pydict string string) : pyres (pydict string (list string)) :=
  py_for (λ file_words filename,
      text ← dict_subscript files filename;
      Ok (dict_setitem file_words filename (tokenize text)))
    (dict_keys files) [].

(** The body of [for sentence in nltk.sent_tokenize(passage):]: the
    sentence is stored with its tokens when it has any ([if tokens:]). *)
Definition add_sentence (sentences : pydict string (list string)) (sentence : string) :
    pyres (pydict string (list string)) :=
  let tokens := tokenize sentence in
  match tokens with
  | [] => Ok sentences
  | _ => Ok (dict_setitem sentences sentence tokens)
  end.

(** The body of [for passage in files[filename].split("\n"):] *)
Definition add_passage (sentences : pydict string (list string)) (passage : string) :
    pyres (pydict string (list string)) :=
  py_for add_sentence (sent_tokenize passage) sentences.

(** The body of [for filename in filenames:]; [files[filename]] raises
    [KeyError] for a name that was not loaded. *)
Definition add_file (files : pydict string string) (sentences : pydict string (list string))
    (filename : string) : pyres (pydict string (list string)) :=
  text ← dict_subscript files filename;
  py_for add_passage (split_newline text) sentences.

(** The loop of [main] that extracts the sentences of the top files:
    every sentence of every passage (line) of each file, with its tokens,
    when it has any, starting from [sentences = dict()]. *)
Definition extract_sentences (files : pydict string string) (filenames : list string) :
    pyres (pydict string (list string)) :=
  py_for (add_file files) filenames [].

(** [main()] with [sys.argv = argv] and the line [query_line] typed at the
    prompt: the lines it prints, or the exception that ends it.  A wrong
    number of arguments is [sys.exit("Usage: ...")], which raises
    [SystemExit]. *)
Definition main (argv : list string) (query_line : string) : pyres (list string) :=
  if negb (length argv =? 2)%nat then raise SystemExit
  else
    directory ← py_get argv 1;
    files ← load_files directory;
    file_words ← file_words_of files;
    file_idfs ← compute_idfs set_order file_words;
    let query := remove_dups (tokenize query_line) in
    filenames ← top_files set_order query file_words file_idfs FILE_MATCHES;
    sentences ← extract_sentences files filenames;
    idfs ← compute_idfs set_order sentences;
    top_sentences set_order query sentences idfs SENTENCE_MATCHES.

End Main.

(** ** [load_files] *)

Section LoadFiles.
Context `{PyOS}.

(** The loop of [load_files] over names read without error appends one
    item per fresh name. *)
Lemma load_files_loop (dir : string) (names cs : list string) (acc : pydict string string) :
  Forall2 (λ f c, open_read (os_path_join dir f) = Ok c) names cs → NoDup names →
  (∀ f, f ∈ names → f ∉ dict_keys acc) →
  py_for (λ dictionary file,
      contents ← open_read (os_path_join dir file);
      Ok (dict_setitem dictionary file contents)) names acc = Ok (acc ++ zip names cs).
Proof.
  intros Hcs. revert acc. induction Hcs as [|f c names cs Hc Hcs IH]; intros acc Hnd Hfresh; simpl.
  - by rewrite app_nil_r.
  - apply NoDup_cons in Hnd as [Hf Hnd]. rewrite Hc. simpl.
    rewrite dict_setitem_fresh by set_solver. rewrite IH, <- app_assoc; [done | done |].
    intros g Hg. unfold dict_keys. rewrite fmap_app. apply not_elem_of_app. split; [set_solver|].
    simpl. apply not_elem_of_cons. set_solver.
Qed.

(** The dict [load_files] returns when every entry can be read: each name
    is a key exactly once and maps to what reading it gave. *)
Lemma load_files_Ok (dir : string) (names : list string) :
  os_listdir dir = Ok names →
  (∀ f, f ∈ names → ∃ c, open_read (os_path_join dir f) = Ok c) →
  ∃ files, load_files dir = Ok files ∧ NoDup (dict_keys files) ∧
    ∀ f c, dict_get files f = Some c → f ∈ names ∧ open_read (os_path_join dir f) = Ok c.
Proof.
  intros Hls Hread. unfold load_files. rewrite Hls, bind_Ok.
  apply py_for_total_inv; [split; [constructor | done]|].
  intros acc f Hf [Hnd Hget]. destruct (Hread f Hf) as [c Hc]. rewrite Hc. simpl.
  eexists. split; [done|]. split; [by apply dict_keys_setitem_NoDup|].
  intros g c'. rewrite dict_get_setitem. case_decide; [intros [= <-]; by subst | apply Hget].
Qed.

(** C15: When [os.listdir] lists distinct names that can all be read,
    [load_files] maps them, in the listed order, to their contents. *)
Theorem load_files_spec (dir : string) (names cs : list string) :
  os_listdir dir = Ok names → NoDup names →
  Forall2 (λ f c, open_read (os_path_join dir f) = Ok c) names cs →
  load_files dir = Ok (zip names cs).
Proof.
  intros Hls Hnd Hcs. unfold load_files. rewrite Hls, bind_Ok.
  apply (load_files_loop dir names cs []); [done | done | set_solver].
Qed.

(** C16: [load_files] raises the exception of the first entry that cannot
    be read (a subdirectory, a file that is not UTF-8), after reading the
    entries listed before it. *)
Theorem load_files_error (dir f : string) (names pre post cs : list string) (e : exn) :
  os_listdir dir = Ok names → names = pre ++ f :: post →
  Forall2 (λ g c, open_read (os_path_join dir g) = Ok c) pre cs →
  open_read (os_path_join dir f) = Raise e →
  load_files dir = Raise e.
Proof.
  intros Hls -> Hpre Hf. unfold load_files. rewrite Hls, bind_Ok.
  destruct (py_for_total_inv (λ _, True) (λ dictionary file,
      contents ← open_read (os_path_join dir file);
      Ok (dict_setitem dictionary file contents)) pre []) as (acc & Hacc & _); [done| |].
  - intros acc g Hg _. destruct (Forall2_ex_l _ _ _ Hpre g Hg) as [c Hc]. rewrite Hc. by eexists.
  - apply (py_for_Raise _ _ _ _ _ acc); [done|]. by rewrite Hf.
Qed.

End LoadFiles.

(** ** The composition in [main] *)

Section MainLaws.
Context `{PyOS} `{Nltk} `{PyFloat F}.
Variable set_order : list string → list string.
Hypothesis set_order_perm : ∀ l, set_order l ≡ₚ l.

(** The entries of the dict of sentences: each is a sentence that
    [nltk.sent_tokenize] found in a line of one of the [filenames], under
    its tokens, which are not empty. *)
Definition from_files (files : pydict string string) (filenames : list string)
    (sentences : pydict string (list string)) : Prop :=
  NoDup (dict_keys sentences) ∧
  ∀ s ts, dict_get sentences s = Some ts → ts = tokenize s ∧ ts ≠ [] ∧
    ∃ f text passage, f ∈ filenames ∧ dict_get files f = Some text ∧
      passage ∈ split_newline text ∧ s ∈ sent_tokenize passage.

Lemma from_files_setitem files filenames sentences f text passage s :
  from_files files filenames sentences → f ∈ filenames → dict_get files f = Some text →
  passage ∈ split_newline text → s ∈ sent_tokenize passage → tokenize s ≠ [] →
  from_files files filenames (dict_setitem sentences s (tokenize s)).
Proof.
  intros [Hnd Hget] Hf Htext Hp Hs Hts. split; [by apply dict_keys_setitem_NoDup|].
  intros s' ts. rewrite dict_get_setitem. case_decide as Heq; [|apply Hget].
  intros [= <-]. subst s'. split_and!; [done | done |]. by exists f, text, passage.
Qed.

(** The sentence loop returns when it reads only files that were loaded. *)
Lemma extract_sentences_Ok (files : pydict string string) (filenames : list string) :
  (∀ f, f ∈ filenames → f ∈ dict_keys files) →
  ∃ sentences, extract_sentences files filenames = Ok sentences ∧ from_files files filenames sentences.
Proof.
  intros Hin. unfold extract_sentences. apply py_for_total_inv; [split; [constructor | done]|].
  intros acc f Hf Hacc. destruct (proj2 (dict_get_is_Some files f) (Hin f Hf)) as [text Htext].
  unfold add_file. assert (dict_subscript files f = Ok text) as -> by by apply dict_subscript_Ok.
  rewrite bind_Ok. apply py_for_total_inv; [done|]. intros acc1 passage Hp Hacc1.
  apply py_for_total_inv; [done|]. intros acc2 s Hs Hacc2. unfold add_sentence.
  destruct (tokenize s) as [|t ts] eqn:Hts; eexists; (split; [done|]); [done|].
  rewrite <- Hts. eapply from_files_setitem; [done.. | by rewrite Hts].
Qed.

(** The dict comprehension [file_words] has the keys of [files]. *)
Lemma file_words_of_Ok (files : pydict string string) :
  ∃ fw, file_words_of files = Ok fw ∧ NoDup (dict_keys fw) ∧ ∀ f, f ∈ dict_keys fw → f ∈ dict_keys files.
Proof.
  unfold file_words_of. apply py_for_total_inv; [split; [constructor | set_solver]|].
  intros acc f Hf [Hnd Hkeys]. destruct (proj2 (dict_get_is_Some files f) Hf) as [text Htext].
  assert (dict_subscript files f = Ok text) as -> by by apply dict_subscript_Ok. rewrite bind_Ok.
  eexists. split; [done|]. split; [by apply dict_keys_setitem_NoDup|].
  intros g. rewrite elem_of_dict_keys_setitem. intros [->|]; auto.
Qed.

(** [main] with a number of arguments other than one (the program
    name apart) exits with the usage message, before it touches the file
    system. *)
Theorem main_usage (argv : list string) (query_line : string) :
  length argv ≠ 2%nat → main set_order argv query_line = Raise SystemExit.
Proof. intros Hlen. unfold main. by rewrite (proj2 (Nat.eqb_neq _ _) Hlen). Qed.

Context `{!PyFloatLaws F}.

(** The files [top_files] picks from the tokenized corpus are files of
    the corpus. *)
Lemma top_files_loaded (query : list string) (files : pydict string string) (fw : pydict string (list string))
    (fidfs : pydict string F) (n : nat) :
  (∀ f, f ∈ dict_keys fw → f ∈ dict_keys files) → NoDup (dict_keys fw) → compute_idfs set_order fw = Ok fidfs →
  ∃ filenames, top_files set_order query fw fidfs n = Ok filenames ∧ ∀ f, f ∈ filenames → f ∈ dict_keys files.
Proof.
  intros Hkeys Hnd Hidfs.
  destruct (tfidf_scores_Ok set_order set_order_perm query fw fidfs
              (compute_idfs_cover set_order set_order_perm query fw fidfs Hidfs) Hnd) as (d & Hd & _ & Hget).
  unfold top_files. rewrite Hd, bind_Ok. eexists. split; [done|].
  intros f Hf. apply Hkeys, dict_get_is_Some. apply elem_of_take_sorted_keys, dict_get_is_Some in Hf.
  rewrite Hget in Hf. destruct (dict_get fw f); [done | by destruct Hf].
Qed.

(** What [top_sentences] picks from the dict of sentences are its keys. *)
Lemma top_sentences_keys (query : list string) (sentences : pydict string (list string))
    (idfs : pydict string F) (n : nat) :
  NoDup (dict_keys sentences) → compute_idfs set_order sentences = Ok idfs →
  ∃ out, top_sentences set_order query sentences idfs n = Ok out ∧ (length out ≤ n)%nat ∧
    ∀ s, s ∈ out → s ∈ dict_keys sentences.
Proof.
  intros Hnd Hidfs.
  destruct (sentence_scores_Ok set_order set_order_perm query sentences idfs
              (compute_idfs_cover set_order set_order_perm query sentences idfs Hidfs) Hnd)
    as (d & wv & Hd & _ & Hget).
  unfold top_sentences. rewrite Hd, bind_Ok. eexists. split_and!; [done | rewrite length_take; lia |].
  intros s Hs. apply dict_get_is_Some. apply elem_of_take_sorted_keys, dict_get_is_Some in Hs.
  rewrite Hget in Hs. destruct (dict_get sentences s); [done | by destruct Hs].
Qed.

(** C8: [main] does not raise when its one argument names a directory
    whose entries can all be read: the ranking, the sentence extraction
    and every dict subscript on the way succeed.  It prints at most
    [SENTENCE_MATCHES] lines, and each is a sentence, with at least one
    alphabetic token, that [nltk.sent_tokenize] found in a line of a file
    of the directory. *)
Theorem main_no_raise (prog dir query_line : string) (names : list string) :
  os_listdir dir = Ok names →
  (∀ f, f ∈ names → ∃ text, open_read (os_path_join dir f) = Ok text) →
  ∃ out, main set_order [prog; dir] query_line = Ok out ∧ (length out ≤ SENTENCE_MATCHES)%nat ∧
    ∀ s, s ∈ out → tokenize s ≠ [] ∧
      ∃ f text passage, f ∈ names ∧ open_read (os_path_join dir f) = Ok text ∧
        passage ∈ split_newline text ∧ s ∈ sent_tokenize passage.
Proof.
  intros Hls Hread. destruct (load_files_Ok dir names Hls Hread) as (files & Hfiles & _ & Hfget).
  destruct (file_words_of_Ok files) as (fw & Hfw & Hfwnd & Hfwkeys).
  destruct (compute_idfs_Ok set_order set_order_perm fw) as (fidfs & Hfidfs & _).
  destruct (top_files_loaded (remove_dups (tokenize query_line)) files fw fidfs FILE_MATCHES Hfwkeys Hfwnd Hfidfs)
    as (filenames & Hfn & Hfnkeys).
  destruct (extract_sentences_Ok files filenames Hfnkeys) as (sentences & Hs & Hsnd & Hsget).
  destruct (compute_idfs_Ok set_order set_order_perm sentences) as (idfs & Hidfs & _).
  destruct (top_sentences_keys (remove_dups (tokenize query_line)) sentences idfs SENTENCE_MATCHES Hsnd Hidfs)
    as (out & Hout & Hlen & Hkeys).
  exists out. split_and!; [|done|].
  - unfold main. simpl. by rewrite Hfiles, bind_Ok, Hfw, bind_Ok, Hfidfs, bind_Ok, Hfn, bind_Ok, Hs, bind_Ok, Hidfs, bind_Ok.
  - intros s Hsout. destruct (proj2 (dict_get_is_Some _ _) (Hkeys s Hsout)) as [ts Hts].
    destruct (Hsget s ts Hts) as (-> & Hne & f & text & passage & _ & Htext & Hp & Hsp).
    destruct (Hfget f text Htext) as [Hf Hrd]. split; [done|]. by exists f, text, passage.
Qed.

End MainLaws.

(** ** Every sentence of the top files is extracted

    The converse of [from_files]: an entry [s ↦ tokenize s], once a step
    of the three loops has stored it, is kept by every later step, since
    a step that writes the key [s] writes the same tokens. *)

Section SentenceLoops.
Context `{Nltk}.
Variable s : string.

Lemma add_sentence_keeps (acc : pydict string (list string)) (sentence : string) acc' :
  dict_get acc s = Some (tokenize s) → add_sentence acc sentence = Ok acc' →
  dict_get acc' s = Some (tokenize s).
Proof.
  unfold add_sentence. cbv zeta. destruct (tokenize sentence) as [|t ts] eqn:Hts; intros Hacc [= <-]; [done|].
  rewrite dict_get_setitem. case_decide; [subst; by rewrite Hts | done].
Qed.

Lemma add_sentence_sets (acc : pydict string (list string)) acc' :
  tokenize s ≠ [] → add_sentence acc s = Ok acc' → dict_get acc' s = Some (tokenize s).
Proof.
  unfold add_sentence. cbv zeta. destruct (tokenize s) as [|t ts]; intros Hne [= <-]; [done|].
  by rewrite dict_get_setitem, decide_True.
Qed.

Lemma add_passage_keeps (acc : pydict string (list string)) (passage : string) acc' :
  dict_get acc s = Some (tokenize s) → add_passage acc passage = Ok acc' →
  dict_get acc' s = Some (tokenize s).
Proof.
  unfold add_passage. intros Hacc. apply (py_for_inv (λ d, dict_get d s = Some (tokenize s))); [done|].
  intros; by eapply add_sentence_keeps.
Qed.

Lemma add_passage_sets (acc : pydict string (list string)) (passage : string) acc' :
  s ∈ sent_tokenize passage → tokenize s ≠ [] → add_passage acc passage = Ok acc' →
  dict_get acc' s = Some (tokenize s).
Proof.
  intros Hs Hne. unfold add_passage. apply (py_for_establish (λ d, dict_get d s = Some (tokenize s)) _ _ s); [done | |].
  - intros; by eapply add_sentence_keeps.
  - intros; by eapply add_sentence_sets.
Qed.

Lemma add_file_keeps (files : pydict string string) (acc : pydict string (list string)) (f : string) acc' :
  dict_get acc s = Some (tokenize s) → add_file files acc f = Ok acc' →
  dict_get acc' s = Some (tokenize s).
Proof.
  intros Hacc Hr. unfold add_file in Hr. inv_res Hr.
  revert Hr. apply (py_for_inv (λ d, dict_get d s = Some (tokenize s))); [done|]. intros; by eapply add_passage_keeps.
Qed.

Lemma add_file_sets (files : pydict string string) (acc : pydict string (list string)) f text passage acc' :
  dict_get files f = Some text → passage ∈ split_newline text → s ∈ sent_tokenize passage →
  tokenize s ≠ [] → add_file files acc f = Ok acc' → dict_get acc' s = Some (tokenize s).
Proof.
  intros Htext Hp Hs Hne. unfold add_file. rewrite (proj2 (dict_subscript_Ok _ _ _) Htext), bind_Ok.
  apply (py_for_establish (λ d, dict_get d s = Some (tokenize s)) _ _ passage); [done | |].
  - intros; by eapply add_passage_keeps.
  - intros; by eapply add_passage_sets.
Qed.

(** C22: the sentence loop of [main] misses no sentence: every sentence
    that [nltk.sent_tokenize] finds in a line of a top file, and that
    has a token, is a key of [sentences], stored with its tokens,
    whatever the later files and lines hold. *)
Theorem extract_sentences_complete (files : pydict string string) (filenames : list string)
    (sentences : pydict string (list string)) (f text passage : string) :
  extract_sentences files filenames = Ok sentences →
  f ∈ filenames → dict_get files f = Some text → passage ∈ split_newline text →
  s ∈ sent_tokenize passage → tokenize s ≠ [] →
  dict_get sentences s = Some (tokenize s).
Proof.
  intros Hr Hf Htext Hp Hs Hne. revert Hr. unfold extract_sentences.
  apply (py_for_establish (λ d, dict_get d s = Some (tokenize s)) _ _ f); [done | |].
  - intros; by eapply add_file_keeps.
  - intros; by eapply add_file_sets.
Qed.

End SentenceLoops.

(** ** Witnesses: a corpus in memory

    The directory [corpus] holds two readable files; [broken] holds a
    readable file and a subdirectory, which [open] refuses.  The
    tokenizers cut words at spaces and full stops and sentences at full
    stops, and the ranking runs on rationals (Questions.v). *)

Definition example_files : pydict string string :=
  [("corpus/python.txt", "Python is a language. It is popular." +:+ String newline "Python has snakes.");
   ("corpus/ai.txt", "AI is a field. AI is popular.");
   ("broken/notes.txt", "Notes.")].

Definition example_listdir (dir : string) : pyres (list string) :=
  if String.eqb dir "corpus" then Ok ["python.txt"; "ai.txt"]
  else if String.eqb dir "broken" then Ok ["notes.txt"; "sub"]
  else Raise OSError.

Definition example_read (path : string) : pyres string :=
  match dict_get example_files path with Some c => Ok c | None => Raise OSError end.

#[local] Instance example_os : PyOS := {| os_listdir := example_listdir; open_read := example_read |}.

Definition nonempty_pieces (l : list string) : list string := List.filter (λ w, negb (String.eqb w "")) l.

#[local] Instance example_nltk : Nltk := {|
  word_tokenize := λ s, nonempty_pieces (mjoin (py_split "." <$> py_split " " s));
  sent_tokenize := λ s, nonempty_pieces (py_split "." s)
|}.

(** [tokenize] keeps stopwords: only the full stop goes. *)
Example tokenize_keeps_stopwords : tokenize "The cat is on the mat." = ["the"; "cat"; "is"; "on"; "the"; "mat"].
Proof. vm_compute. reflexivity. Qed.

Definition example_argv : list string := ["questions.py"; "corpus"].

(** The program answers the query "Python snakes?" with the line of the
    file about Python that has both words. *)
Example main_example : main (F:=Q) id example_argv "Python snakes?" = Ok ["Python has snakes"].
Proof. vm_compute. reflexivity. Qed.

Lemma main_usage_witness :
  length ["questions.py"] ≠ 2%nat ∧ main (F:=Q) id ["questions.py"] "Python" = Raise SystemExit.
Proof. split; [done | apply main_usage; done]. Defined.

Lemma main_no_raise_witness :
  ∃ out, main (F:=Q) id example_argv "Python snakes?" = Ok out ∧ (length out ≤ SENTENCE_MATCHES)%nat ∧
    ∀ s, s ∈ out → tokenize s ≠ [] ∧
      ∃ f text passage, f ∈ ["python.txt"; "ai.txt"] ∧ open_read (os_path_join "corpus" f) = Ok text ∧
        passage ∈ split_newline text ∧ s ∈ sent_tokenize passage.
Proof.
  apply (main_no_raise id id_set_order "questions.py" "corpus" "Python snakes?"); [reflexivity|].
  apply Forall_forall. repeat constructor; eexists; reflexivity.
Defined.

Lemma load_files_spec_witness :
  load_files "corpus" =
  Ok (zip ["python.txt"; "ai.txt"]
          ["Python is a language. It is popular." +:+ String newline "Python has snakes.";
           "AI is a field. AI is popular."]).
Proof. apply load_files_spec; [reflexivity | decide_true | repeat constructor]. Defined.

Lemma load_files_error_witness : load_files "broken" = Raise OSError.
Proof.
  apply (load_files_error "broken" "sub" ["notes.txt"; "sub"] ["notes.txt"] [] ["Notes."]);
    [reflexivity | reflexivity | repeat constructor | reflexivity].
Defined.

Definition example_top_file : pydict string string :=
  [("python.txt", "Python is a language. It is popular." +:+ String newline "Python has snakes.")].

Lemma extract_sentences_complete_witness :
  ∃ sentences, extract_sentences example_top_file ["python.txt"] = Ok sentences ∧
    dict_get sentences "Python has snakes" = Some (tokenize "Python has snakes").
Proof.
  eexists. split; [reflexivity|].
  apply (extract_sentences_complete "Python has snakes" example_top_file ["python.txt"] _ "python.txt"
           ("Python is a language. It is popular." +:+ String newline "Python has snakes.")
           "Python has snakes."); [reflexivity | decide_true | reflexivity | decide_true | decide_true | done].
Defined.
