(* ===== verification/Board.v ===== *)
(** * Board: the data of [tictactoe.py]

    The marks [X] and [O] are the strings ["X"] and ["O"] of the source.
    A cell is [X], [O] or [EMPTY = None].  A board is the Python list of
    three rows of three cells that [initial_state] builds.

    [cell_at b i j] is the read [board[i][j]] made by the [range(3)] loops
    of [player], [actions] and [winner], with Python's indexing.  On a board
    that satisfies the shape invariant [wf_board] it never goes out of range.
    [coords] lists the nine cells in the order of those nested loops.
    [place] is the abstract write of one mark, which the specification of
    the search uses as the rule "the mover marks an empty cell". *)

From S2P Require Import Prelude.

(** ** Data *)

(** [X = "X"], [O = "O"]: the marks, which are also the players. *)
Inductive mark := X | O.

#[export] Instance mark_eq_dec : EqDecision mark.
Proof. solve_decision. Defined.

(** [==] on the strings ["X"] and ["O"]. *)
#[export] Instance mark_py_eq : PyEq mark :=
  λ m1 m2, match m1, m2 with X, X | O, O => true | _, _ => false end.

#[export] Instance mark_py_eq_law : PyEqLaw mark.
Proof. intros [] []; cbn; split; intros; congruence. Qed.

(** The other player. *)
Definition opponent (p : mark) : mark := match p with X => O | O => X end.

(** A cell holds a mark or [EMPTY = None]. *)
Abbreviation cell := (option mark).
Abbreviation EMPTY := (@None mark).

(** A board is a list of rows, each a list of cells. *)
Abbreviation board := (list (list cell)).

(** [initial_state()] *)
Definition initial_state : board :=
  [[EMPTY; EMPTY; EMPTY];
   [EMPTY; EMPTY; EMPTY];
   [EMPTY; EMPTY; EMPTY]].

(** [board[i][j]] inside a [range(3)] loop.  A read outside the board,
    which Python would answer with [IndexError], is read as [EMPTY]; it does
    not happen on a [wf_board]. *)
Definition cell_at (b : board) (i j : Z) : cell :=
  match py_get b i ≫= (λ row, py_get row j) with
  | Ok c => c
  | Raise _ => EMPTY
  end.

(** The nine coordinates in the order of [for i in range(3): for j in range(3)]. *)
Definition coords : list (Z * Z) := range 3 ≫= (λ i, (λ j, (i, j)) <$> range 3).

(** The shape invariant: three rows of three cells. *)
Definition wf_board (b : board) : Prop := length b = 3%nat ∧ Forall (λ row, length row = 3%nat) b.

#[export] Instance wf_board_dec (b : board) : Decision (wf_board b).
Proof. unfold wf_board. apply _. Defined.

(** How many of the nine cells hold [c]. *)
Definition count_cell (c : cell) (b : board) : nat :=
  length (filter (λ ij, cell_at b ij.1 ij.2 = c) coords).

(** How many cells hold mark [m]. *)
Definition count_mark (m : mark) (b : board) : nat := count_cell (Some m) b.

(** How many cells are empty. *)
Definition n_empty (b : board) : nat := count_cell EMPTY b.

(** The abstract move: cell [a] of [b] now holds [m]. *)
Definition place (b : board) (a : Z * Z) (m : mark) : board :=
  alter (λ row, <[Z.to_nat a.2 := Some m]> row) (Z.to_nat a.1) b.

(** ** Lemmas *)

Lemma elem_of_coords (i j : Z) : (i, j) ∈ coords ↔ 0 <= i < 3 ∧ 0 <= j < 3.
Proof.
  unfold coords, range. rewrite list_elem_of_bind. split.
  - intros (i' & Hj & Hi). apply list_elem_of_fmap in Hj as (j' & [= -> ->] & Hj).
    apply elem_of_seqZ in Hi, Hj. lia.
  - intros [Hi Hj]. exists i. split; [|apply elem_of_seqZ; lia].
    apply list_elem_of_fmap. exists j. split; [done | apply elem_of_seqZ; lia].
Qed.

Lemma NoDup_coords : NoDup coords.
Proof. apply (bool_decide_unpack _). vm_compute. reflexivity. Qed.

Lemma length_coords : length coords = 9%nat.
Proof. reflexivity. Qed.

Lemma coords_9 :
  coords = [(0,0); (0,1); (0,2); (1,0); (1,1); (1,2); (2,0); (2,1); (2,2)].
Proof. reflexivity. Qed.

Lemma wf_board_lookup (b : board) (n : nat) (row : list cell) :
  wf_board b → b !! n = Some row → length row = 3%nat.
Proof. intros [_ Hrows] Hn. by eapply (Forall_lookup_1 _ _ _ _ Hrows). Qed.

(** On a well-formed board, an in-range read is the nested list lookup. *)
Lemma cell_at_wf (b : board) (i j : Z) :
  wf_board b → 0 <= i < 3 → 0 <= j < 3 →
  ∃ row, b !! Z.to_nat i = Some row ∧ row !! Z.to_nat j = Some (cell_at b i j).
Proof.
  intros Hwf Hi Hj. pose proof Hwf as [Hlen _].
  destruct (lookup_lt_is_Some_2 b (Z.to_nat i)) as [row Hrow]; [lia|].
  pose proof (wf_board_lookup b _ row Hwf Hrow) as Hrl.
  destruct (lookup_lt_is_Some_2 row (Z.to_nat j)) as [c Hc]; [lia|].
  exists row. split; [done|]. rewrite Hc. f_equal.
  unfold cell_at, py_get. rewrite Hlen, py_norm_nonneg by lia. simpl. rewrite Hrow. simpl.
  rewrite Hrl, py_norm_nonneg by lia. simpl. by rewrite Hc.
Qed.

Lemma place_wf (b : board) (a : Z * Z) (m : mark) : wf_board b → wf_board (place b a m).
Proof.
  intros [Hlen Hrows]. unfold place. split; [by rewrite length_alter|].
  apply Forall_lookup_2. intros n row Hn.
  destruct (decide (n = Z.to_nat a.1)) as [->|Hne].
  - rewrite list_lookup_alter_eq in Hn. destruct (b !! Z.to_nat a.1) as [r|] eqn:Hr; simpl in Hn; [|discriminate].
    injection Hn as <-. rewrite length_insert. by eapply wf_board_lookup.
  - rewrite list_lookup_alter_ne in Hn by done. by eapply wf_board_lookup.
Qed.

(** Reading a placed board: the placed cell holds the mark, every other
    cell is unchanged. *)
Lemma cell_at_place (b : board) (a : Z * Z) (m : mark) (i j : Z) :
  wf_board b → a ∈ coords → (i, j) ∈ coords →
  cell_at (place b a m) i j = if decide ((i, j) = a) then Some m else cell_at b i j.
Proof.
  destruct a as [ai aj]. rewrite !elem_of_coords. intros Hwf Ha Hij.
  destruct (cell_at_wf (place b (ai, aj) m) i j) as (row' & Hrow' & Hc');
    [by apply place_wf | lia | lia |].
  destruct (cell_at_wf b i j) as (row & Hrow & Hc); [done | lia | lia |].
  unfold place in Hrow'. simpl in Hrow'.
  destruct (decide (Z.to_nat i = Z.to_nat ai)) as [Ei|Ei].
  - rewrite <- Ei, list_lookup_alter_eq, Hrow in Hrow'. simpl in Hrow'. injection Hrow' as <-.
    destruct (decide (Z.to_nat j = Z.to_nat aj)) as [Ej|Ej].
    + rewrite <- Ej, list_lookup_insert_eq in Hc'.
      2:{ pose proof (wf_board_lookup b _ row Hwf Hrow). lia. }
      injection Hc' as Hc'. rewrite <- Hc', decide_True; [done | f_equal; lia].
    + rewrite list_lookup_insert_ne in Hc' by done.
      rewrite decide_False by (intros [= -> ->]; lia). congruence.
  - rewrite list_lookup_alter_ne in Hrow' by done. rewrite Hrow in Hrow'.
    injection Hrow' as ->. rewrite decide_False by (intros [= -> ->]; lia). congruence.
Qed.

(** Placing a mark changes the count of a cell value only at the placed cell. *)
Lemma count_cell_place (c : cell) (b : board) (a : Z * Z) (m : mark) :
  wf_board b → a ∈ coords →
  (count_cell c (place b a m) + (if decide (cell_at b a.1 a.2 = c) then 1 else 0)
   = count_cell c b + (if decide (Some m = c) then 1 else 0))%nat.
Proof.
  intros Hwf Ha. unfold count_cell. destruct a as [ai aj].
  pose proof (length_filter_point (λ ij, cell_at b ij.1 ij.2 = c)
    (λ ij, cell_at (place b (ai, aj) m) ij.1 ij.2 = c) coords (ai, aj) NoDup_coords Ha) as H.
  simpl in H |- *. rewrite (cell_at_place b (ai, aj) m ai aj Hwf Ha Ha),
    (decide_True (P := (ai, aj) = (ai, aj))) in H by done. apply H.
  intros [i j] Hij Hne. simpl. by rewrite (cell_at_place b (ai, aj) m i j Hwf Ha Hij), decide_False.
Qed.

(** Marking an empty cell adds one mark of that player ... *)
Lemma count_mark_place (b : board) (a : Z * Z) (m : mark) :
  wf_board b → a ∈ coords → cell_at b a.1 a.2 = EMPTY →
  count_mark m (place b a m) = S (count_mark m b).
Proof.
  intros Hwf Ha He. pose proof (count_cell_place (Some m) b a m Hwf Ha) as H.
  rewrite He, decide_False, decide_True in H by done. unfold count_mark. lia.
Qed.

(** ... leaves the other player's count alone ... *)
Lemma count_mark_place_other (b : board) (a : Z * Z) (m m' : mark) :
  wf_board b → a ∈ coords → cell_at b a.1 a.2 = EMPTY → m' ≠ m →
  count_mark m' (place b a m) = count_mark m' b.
Proof.
  intros Hwf Ha He Hm. pose proof (count_cell_place (Some m') b a m Hwf Ha) as H.
  rewrite He, !decide_False in H by congruence. unfold count_mark. lia.
Qed.

(** ... and removes one empty cell. *)
Lemma n_empty_place (b : board) (a : Z * Z) (m : mark) :
  wf_board b → a ∈ coords → cell_at b a.1 a.2 = EMPTY →
  S (n_empty (place b a m)) = n_empty b.
Proof.
  intros Hwf Ha He. pose proof (count_cell_place EMPTY b a m Hwf Ha) as H.
  rewrite He, decide_True, decide_False in H by done. unfold n_empty. lia.
Qed.

(** Every cell is [X], [O] or empty. *)
Lemma count_cells_total (b : board) :
  (count_mark X b + count_mark O b + n_empty b)%nat = 9%nat.
Proof.
  unfold count_mark, n_empty, count_cell. rewrite <- length_coords.
  induction coords as [|ij l IH]; [done|]. rewrite !filter_cons.
  destruct (cell_at b ij.1 ij.2) as [[]|];
    repeat (rewrite decide_True by done || rewrite decide_False by done); simpl; lia.
Qed.

(** A well-formed board is nine cells. *)
Lemma wf_board_cells (b : board) :
  wf_board b ↔ ∃ c00 c01 c02 c10 c11 c12 c20 c21 c22,
    b = [[c00; c01; c02]; [c10; c11; c12]; [c20; c21; c22]].
Proof.
  split.
  - intros [Hlen Hrows].
    destruct b as [|r0 [|r1 [|r2 [|]]]]; simpl in Hlen; try discriminate.
    apply Forall_cons in Hrows as [H0 Hrows]. apply Forall_cons in Hrows as [H1 Hrows].
    apply Forall_cons in Hrows as [H2 _].
    destruct r0 as [|c00 [|c01 [|c02 [|]]]]; simpl in H0; try discriminate.
    destruct r1 as [|c10 [|c11 [|c12 [|]]]]; simpl in H1; try discriminate.
    destruct r2 as [|c20 [|c21 [|c22 [|]]]]; simpl in H2; try discriminate.
    eauto 10.
  - intros (? & ? & ? & ? & ? & ? & ? & ? & ? & ->). split; [done|]. repeat constructor.
Qed.

(** Destruct a well-formed board into its nine cells. *)
Ltac wf_cells Hwf :=
  apply wf_board_cells in Hwf as (?c00 & ?c01 & ?c02 & ?c10 & ?c11 & ?c12 & ?c20 & ?c21 & ?c22 & ->).
