(* ===== verification/Rules.v ===== *)
(** * Rules: the game functions of [tictactoe.py]

    One definition per Python function.
    - [player] (lines 23-41): the explicit initial-state test, then the
      counting loop.
    - [actions] (lines 45-55): the set built by the nested loops, kept as
      the list of its elements in insertion order.
    - [result] (lines 58-71): the error cases are the [IndexError] of
      [board[i][j]] and the bare [raise Exception] on an occupied cell.
    - [winner] (lines 73-95): rows, columns, diagonal and the [~i]
      anti-diagonal, for X first and then O.
    - [terminal] (lines 99-108) and [utility] (lines 111-120).

    The theorems give each function's behaviour on every branch.  The
    eight winning lines of the specification are [lines]: [winner] checks
    exactly those (the [~i] index is the anti-diagonal (0,2),(1,1),(2,0)),
    and it prefers X when both players have a line. *)

From S2P Require Import Prelude Board.

Local Open Scope py_scope.

(** ** The functions *)

(** One step of the counting loop of [player]. *)
Definition count_step (b : board) (acc : nat * nat) (ij : Z * Z) : nat * nat :=
  let '(Xnum, Onum) := acc in
  let c := cell_at b ij.1 ij.2 in
  if c == Some X then (S Xnum, Onum)
  else if c == Some O then (Xnum, S Onum)
  else (Xnum, Onum).

(** [player(board)] *)
Definition player (b : board) : mark :=
  if b == initial_state then X
  else
    let '(Xnum, Onum) := foldl (count_step b) (0%nat, 0%nat) coords in
    if (Onum <? Xnum)%nat then O else X.

(** [actions(board)]: the elements of the set, in the order the loops add
    them ([acts.add((i,j))] on an empty cell). *)
Definition actions (b : board) : list (Z * Z) :=
  foldl (λ acts ij, let c := cell_at b ij.1 ij.2 in
                    if c == EMPTY then acts ++ [ij] else acts) [] coords.

(** [result(board, action)]: [player_move] is computed first, then
    [board[i][j]] is read (raising [IndexError] out of range), an occupied
    cell raises [Exception], and otherwise the copy's row [i] gets the mark
    at [j]. *)
Definition result (b : board) (action : Z * Z) : pyres board :=
  let player_move := player b in
  let '(i, j) := action in
  row ← py_get b i;
  c ← py_get row j;
  match c with
  | Some _ => raise Exception
  | None => new_row ← py_setitem row j (Some player_move); py_setitem b i new_row
  end%py.

(** [[player] * 3] *)
Definition three (p : mark) : list cell := [Some p; Some p; Some p].

(** [[board[x][i] for x in range(3)]] *)
Definition column (b : board) (i : Z) : list cell := (λ x, cell_at b x i) <$> range 3.

(** [[board[i][i] for i in range(0, 3)]] *)
Definition diagonal (b : board) : list cell := (λ i, cell_at b i i) <$> range 3.

(** [[board[i][~i] for i in range(0, 3)]]: [~i] is [-i-1], a negative index. *)
Definition anti_diagonal (b : board) : list cell := (λ i, cell_at b i (Z.lnot i)) <$> range 3.

(** The body of the loop of [winner] for one player: does any check fire? *)
Definition has_line (p : mark) (b : board) : bool :=
  existsb (λ row, row == three p) b
  || existsb (λ i, column b i == three p) (range 3)
  || (diagonal b == three p)
  || (anti_diagonal b == three p).

(** [winner(board)]: the first player of [(X, O)] whose checks fire. *)
Definition winner (b : board) : option mark := List.find (λ p, has_line p b) [X; O].

(** [terminal(board)] *)
Definition terminal (b : board) : bool :=
  if negb (winner b == None) then true
  else negb (existsb (λ row, py_in EMPTY row) b).

(** [utility(board)] *)
Definition utility (b : board) : Z :=
  let winPlayer := winner b in
  if winPlayer == Some X then 1
  else if winPlayer == Some O then -1
  else 0.

(** ** [player] *)

Lemma foldl_count_step (b : board) (l : list (Z * Z)) (x0 o0 : nat) :
  foldl (count_step b) (x0, o0) l
  = (x0 + length (filter (λ ij, cell_at b ij.1 ij.2 = Some X) l),
     o0 + length (filter (λ ij, cell_at b ij.1 ij.2 = Some O) l))%nat.
Proof.
  revert x0 o0. induction l as [|ij l IH]; intros x0 o0; [simpl; f_equal; lia|].
  cbn [foldl]. unfold count_step at 2. rewrite !filter_cons.
  destruct (cell_at b ij.1 ij.2) as [[]|]; simpl; rewrite IH;
    repeat case_decide; simplify_eq; simpl; f_equal; lia.
Qed.

(** [player] is decided by the counts alone: O moves exactly when X has
    more marks.  The explicit test against [initial_state] (line 27) agrees
    with the counting branch, so it is redundant. *)
Lemma player_counts (b : board) :
  player b = if (count_mark O b <? count_mark X b)%nat then O else X.
Proof.
  unfold player. rewrite foldl_count_step. simpl.
  destruct (b == initial_state) eqn:Hb; [|done].
  apply py_eq_spec in Hb as ->. reflexivity.
Qed.

(** ** [actions] *)

Lemma foldl_actions (b : board) (l : list (Z * Z)) (acts : list (Z * Z)) :
  foldl (λ acts ij, let c := cell_at b ij.1 ij.2 in if c == EMPTY then acts ++ [ij] else acts) acts l
  = acts ++ filter (λ ij, cell_at b ij.1 ij.2 = EMPTY) l.
Proof.
  revert acts. induction l as [|ij l IH]; intros acts; [simpl; by rewrite app_nil_r|].
  cbn [foldl]. rewrite IH, filter_cons.
  destruct (cell_at b ij.1 ij.2) eqn:E; cbn; case_decide; simplify_eq; try done.
  by rewrite <- app_assoc.
Qed.

(** The set built by [actions] holds the empty cells, in row-major order. *)
Lemma actions_filter (b : board) :
  actions b = filter (λ ij, cell_at b ij.1 ij.2 = EMPTY) coords.
Proof. unfold actions. by rewrite foldl_actions. Qed.

Lemma elem_of_actions (b : board) (a : Z * Z) :
  a ∈ actions b ↔ a ∈ coords ∧ cell_at b a.1 a.2 = EMPTY.
Proof. rewrite actions_filter, list_elem_of_filter. tauto. Qed.

Lemma NoDup_actions (b : board) : NoDup (actions b).
Proof. rewrite actions_filter. apply NoDup_filter, NoDup_coords. Qed.

Lemma length_actions (b : board) : length (actions b) = n_empty b.
Proof. unfold n_empty, count_cell. rewrite actions_filter. f_equal. by apply list_filter_iff. Qed.

#[export] Hint Resolve NoDup_actions NoDup_coords : pyres.

(** ** [result] *)

(** [result] on a well-formed board, every branch: both indices go through
    Python's index rule ([IndexError] outside [-3, 3)); an occupied cell
    raises [Exception]; an empty one receives the mark of [player b]. *)
Lemma result_spec (b : board) (i j : Z) :
  wf_board b →
  result b (i, j) =
    match py_norm 3 i, py_norm 3 j with
    | Some n, Some m =>
        let a := (Z.of_nat n, Z.of_nat m) in
        if cell_at b a.1 a.2 == EMPTY then Ok (place b a (player b)) else Raise Exception
    | _, _ => Raise IndexError
    end.
Proof.
  intros Hwf. unfold result. generalize (player b) as p. intros p.
  pose proof Hwf as [Hlen _].
  destruct (py_norm 3 i) as [n|] eqn:Ei; [|by rewrite py_get_out by (by rewrite Hlen)].
  destruct (lookup_lt_is_Some_2 b n) as [row Hrow]; [rewrite Hlen; by eapply py_norm_lt|].
  rewrite (py_get_norm b i n row) by (by rewrite ?Hlen). simpl.
  pose proof (wf_board_lookup b n row Hwf Hrow) as Hrl.
  destruct (py_norm 3 j) as [m|] eqn:Ej; [|by rewrite py_get_out by (by rewrite Hrl)].
  destruct (cell_at_wf b (Z.of_nat n) (Z.of_nat m)) as (row' & Hrow' & Hc);
    [done | apply py_norm_lt in Ei; lia | apply py_norm_lt in Ej; lia |].
  rewrite !Nat2Z.id in Hrow', Hc. rewrite Hrow in Hrow'. injection Hrow' as <-.
  rewrite (py_get_norm row j m _) by (by rewrite ?Hrl). simpl.
  destruct (cell_at b (Z.of_nat n) (Z.of_nat m)) as [c|]; [done|]. simpl.
  rewrite (py_setitem_Ok row j _ m) by (by rewrite Hrl). simpl.
  rewrite (py_setitem_Ok b i _ n) by (by rewrite Hlen). unfold place. simpl. rewrite !Nat2Z.id. by erewrite alter_lookup_insert.
Qed.

(** Marking an empty cell of the board. *)
Lemma result_empty (b : board) (a : Z * Z) :
  wf_board b → a ∈ coords → cell_at b a.1 a.2 = EMPTY →
  result b a = Ok (place b a (player b)).
Proof.
  destruct a as [i j]. rewrite elem_of_coords. intros Hwf [Hi Hj] He.
  rewrite result_spec, !py_norm_nonneg by (done || lia). simpl.
  rewrite !Z2Nat.id by lia. simpl in He. by rewrite He.
Qed.

(** C33: An occupied cell raises [Exception]. *)
Theorem result_occupied (b : board) (a : Z * Z) (m : mark) :
  wf_board b → a ∈ coords → cell_at b a.1 a.2 = Some m → result b a = Raise Exception.
Proof.
  destruct a as [i j]. rewrite elem_of_coords. intros Hwf [Hi Hj] Hm.
  rewrite result_spec, !py_norm_nonneg by (done || lia). simpl.
  rewrite !Z2Nat.id by lia. simpl in Hm. by rewrite Hm.
Qed.

(** C32: Indices outside [-3, 3) raise [IndexError]. *)
Theorem result_out_of_range (b : board) (i j : Z) :
  wf_board b → (i < -3 ∨ 3 <= i ∨ j < -3 ∨ 3 <= j) → result b (i, j) = Raise IndexError.
Proof.
  intros Hwf Hij. rewrite result_spec by done.
  destruct (decide (i < -3 ∨ 3 <= i)).
  - rewrite (py_norm_out 3 i) by (simpl; lia). done.
  - rewrite (py_norm_out 3 j) by (simpl; lia). by destruct (py_norm 3 i).
Qed.

(** C31: A negative index in [-3, 0) is the cell counted from the end:
    [result b (i, j)] and [result b (i + 3, j)] are the same move (and
    likewise for [j]).  Such an action is not an element of [actions b]. *)
Theorem result_negative_alias (b : board) (i j : Z) :
  wf_board b → -3 <= i < 0 → result b (i, j) = result b (i + 3, j).
Proof.
  intros Hwf Hi. rewrite !result_spec by done.
  rewrite py_norm_neg, (py_norm_nonneg 3 (i + 3)) by (simpl; lia).
  by replace (i + 3) with (Z.of_nat 3 + i) by lia.
Qed.

(** [result] keeps the shape of the board. *)
Theorem result_wf (b b' : board) (a : Z * Z) :
  wf_board b → result b a = Ok b' → wf_board b'.
Proof.
  destruct a as [i j]. intros Hwf. rewrite result_spec by done.
  repeat case_match; cbv zeta; try case_match; intros; simplify_eq. by apply place_wf.
Qed.

(** ** [winner], [terminal], [utility] *)

(** The eight winning lines of the specification: three rows, three
    columns, the main diagonal and the anti-diagonal (0,2),(1,1),(2,0). *)
Definition lines : list (list (Z * Z)) :=
  [[(0,0); (0,1); (0,2)]; [(1,0); (1,1); (1,2)]; [(2,0); (2,1); (2,2)];
   [(0,0); (1,0); (2,0)]; [(0,1); (1,1); (2,1)]; [(0,2); (1,2); (2,2)];
   [(0,0); (1,1); (2,2)]; [(0,2); (1,1); (2,0)]].

(** Every cell of [line] holds [p]. *)
Definition line_full (p : mark) (b : board) (line : list (Z * Z)) : bool :=
  forallb (λ ij, cell_at b ij.1 ij.2 == Some p) line.

Lemma list3_py_eq (a b c x y z : cell) :
  ([a; b; c] == [x; y; z]) = (a == x) && (b == y) && (c == z).
Proof. cbn. by rewrite !andb_true_r, andb_assoc. Qed.

(** Normalise a boolean goal about a board of nine cell variables:
    evaluate the reads [cell_at], compare rows cell by cell, and
    reassociate the connectives. *)
Ltac normalise_cells :=
  rewrite ?range_3, ?coords_9; cbn -[py_eq cell_at];
  repeat match goal with
  | |- context [cell_at ?b ?i ?j] =>
      let c := eval cbv in (cell_at b i j) in change (cell_at b i j) with c
  end;
  rewrite ?list3_py_eq, ?andb_true_r, ?orb_false_r, ?andb_assoc, ?orb_assoc.

(** On a well-formed board, a player's checks in [winner] fire exactly
    when one of the eight lines is full of that player's marks: the
    [board[i][~i]] read is the anti-diagonal. *)
Lemma has_line_lines (p : mark) (b : board) :
  wf_board b → has_line p b = existsb (line_full p b) lines.
Proof.
  intros Hwf. wf_cells Hwf.
  unfold has_line, line_full, lines, three, column, diagonal, anti_diagonal.
  normalise_cells. reflexivity.
Qed.

(** [winner] tries X before O. *)
Lemma winner_has_line (b : board) :
  winner b = if has_line X b then Some X else if has_line O b then Some O else None.
Proof. unfold winner. simpl. by destruct (has_line X b), (has_line O b). Qed.

(** The rows of a well-formed board contain [EMPTY] exactly when one of
    the nine cells is empty. *)
Lemma rows_have_empty (b : board) :
  wf_board b →
  existsb (λ row, py_in EMPTY row) b = existsb (λ ij, EMPTY == cell_at b ij.1 ij.2) coords.
Proof.
  intros Hwf. wf_cells Hwf. unfold py_in. normalise_cells. reflexivity.
Qed.

Lemma existsb_empty_actions (b : board) :
  existsb (λ ij, EMPTY == cell_at b ij.1 ij.2) coords = false ↔ actions b = [].
Proof.
  rewrite <- not_true_iff_false, existsb_exists. split.
  - intros Hno. destruct (actions b) as [|a l] eqn:E; [done|]. exfalso. apply Hno.
    assert (a ∈ actions b) as Ha by (rewrite E; set_solver).
    apply elem_of_actions in Ha as [Hc He]. exists a.
    split; [by apply list_elem_of_In | rewrite He; apply py_eq_true].
  - intros Hnil (a & Ha & He). apply py_eq_spec in He.
    assert (a ∈ actions b) as Ha'.
    { apply elem_of_actions. split; [by apply list_elem_of_In | done]. }
    rewrite Hnil in Ha'. set_solver.
Qed.

(** C35: [terminal] is true exactly when there is a winner or no legal move. *)
Theorem terminal_spec (b : board) :
  wf_board b → terminal b = true ↔ winner b ≠ None ∨ actions b = [].
Proof.
  intros Hwf. unfold terminal. rewrite rows_have_empty, <- existsb_empty_actions by done.
  remember (existsb (λ ij, EMPTY == cell_at b ij.1 ij.2) coords) as e eqn:He. clear He.
  destruct (winner b), e; cbn; split; intros H; try done;
    try (left; congruence); try (right; done); destruct H; congruence.
Qed.

(** A board with no legal action is finished. *)
Lemma terminal_no_actions (b : board) : wf_board b → actions b = [] → terminal b = true.
Proof.
  intros Hwf Hnil. apply existsb_empty_actions in Hnil.
  unfold terminal. rewrite rows_have_empty, Hnil by done.
  by destruct (negb (winner b == None)).
Qed.

Lemma utility_winner (b : board) :
  utility b = match winner b with Some X => 1 | Some O => -1 | None => 0 end.
Proof. unfold utility. by destruct (winner b) as [[]|]. Qed.

(** ** Main theorems of the rules *)

(** C6: [winner] on a well-formed board: X wins when one of the eight lines is
    full of X; O wins when a line is full of O and none is full of X; no
    one wins otherwise. *)
Theorem winner_lines (b : board) :
  wf_board b →
  winner b = (if existsb (line_full X b) lines then Some X
              else if existsb (line_full O b) lines then Some O else None).
Proof. intros Hwf. by rewrite winner_has_line, !has_line_lines. Qed.

(** C34: [utility] is +1 when X has a full line, -1 when only O has one, and 0
    otherwise, in particular on a full board with no line. *)
Theorem utility_lines (b : board) :
  wf_board b →
  utility b = (if existsb (line_full X b) lines then 1
               else if existsb (line_full O b) lines then -1 else 0).
Proof.
  intros Hwf. rewrite utility_winner, winner_has_line, !has_line_lines by done.
  by destruct (existsb (line_full X b) lines), (existsb (line_full O b) lines).
Qed.

(** C5: A legal action [a] succeeds: the board [result] returns holds the mark
    of the player to move at [a] and every other cell of the input
    unchanged. *)
Theorem result_legal (b : board) (a : Z * Z) :
  wf_board b → a ∈ actions b →
  ∃ b', result b a = Ok b' ∧ wf_board b' ∧ cell_at b' a.1 a.2 = Some (player b) ∧
        ∀ c, c ∈ coords → c ≠ a → cell_at b' c.1 c.2 = cell_at b c.1 c.2.
Proof.
  intros Hwf Ha. apply elem_of_actions in Ha as [Hc He]. destruct a as [ai aj].
  exists (place b (ai, aj) (player b)). split_and!; [by apply result_empty | by apply place_wf | |].
  - simpl. by rewrite (cell_at_place b (ai, aj) _ ai aj Hwf Hc Hc), decide_True.
  - intros [ci cj] Hc' Hne. simpl. by rewrite (cell_at_place b (ai, aj) _ ci cj Hwf Hc Hc'), decide_False.
Qed.

(** [actions] has one element per empty cell: nine minus the marked cells. *)
Theorem actions_length (b : board) :
  length (actions b) = (9 - count_mark X b - count_mark O b)%nat.
Proof. rewrite length_actions. pose proof (count_cells_total b). lia. Qed.

(** C36: [actions] is a set: no element twice, and exactly the empty cells. *)
Theorem actions_spec (b : board) :
  NoDup (actions b) ∧ ∀ a, a ∈ actions b ↔ a ∈ coords ∧ cell_at b a.1 a.2 = EMPTY.
Proof. split; [apply NoDup_actions | apply elem_of_actions]. Qed.

(** When both players have a full line, a board no game reaches,
    [winner] answers X: the loop tries X first. *)
Theorem winner_prefers_X (b : board) :
  wf_board b → existsb (line_full X b) lines = true → existsb (line_full O b) lines = true →
  winner b = Some X.
Proof. intros Hwf HX HO. by rewrite winner_has_line, !has_line_lines, HX. Qed.

(** ** Witnesses *)

Lemma winner_lines_witness :
  wf_board [[Some O; Some X; Some X]; [EMPTY; Some X; Some O]; [Some X; EMPTY; Some O]] ∧
  winner [[Some O; Some X; Some X]; [EMPTY; Some X; Some O]; [Some X; EMPTY; Some O]] = Some X.
Proof. split; [decide_true|]. rewrite winner_lines; [reflexivity | decide_true]. Defined.

Lemma utility_lines_witness :
  wf_board [[Some O; Some X; Some X]; [Some X; Some O; Some O]; [Some X; Some O; Some X]] ∧
  utility [[Some O; Some X; Some X]; [Some X; Some O; Some O]; [Some X; Some O; Some X]] = 0.
Proof. split; [decide_true|]. rewrite utility_lines; [reflexivity | decide_true]. Defined.

Lemma result_legal_witness :
  wf_board initial_state ∧ (1, 1) ∈ actions initial_state ∧
  ∃ b', result initial_state (1, 1) = Ok b' ∧ wf_board b' ∧ cell_at b' 1 1 = Some (player initial_state) ∧
        ∀ c, c ∈ coords → c ≠ (1, 1) → cell_at b' c.1 c.2 = cell_at initial_state c.1 c.2.
Proof.
  split; [decide_true|]. split; [decide_true|].
  apply (result_legal initial_state (1, 1)); decide_true.
Defined.

Lemma terminal_spec_witness :
  wf_board [[Some O; Some X; Some X]; [Some X; Some O; Some O]; [Some X; Some O; Some X]] ∧
  terminal [[Some O; Some X; Some X]; [Some X; Some O; Some O]; [Some X; Some O; Some X]] = true.
Proof.
  split; [decide_true|]. apply terminal_spec; [decide_true|]. right. reflexivity.
Defined.

Lemma result_negative_alias_witness :
  wf_board initial_state ∧ -3 <= -3 < 0 ∧ result initial_state (-3, -1) = result initial_state (0, -1).
Proof.
  split; [decide_true|]. split; [lia|]. apply (result_negative_alias initial_state (-3) (-1)); [decide_true | lia].
Defined.

Lemma result_out_of_range_witness :
  wf_board initial_state ∧ result initial_state (3, 0) = Raise IndexError.
Proof. split; [decide_true|]. apply result_out_of_range; [decide_true | lia]. Defined.

Lemma result_occupied_witness :
  wf_board [[Some X; EMPTY; EMPTY]; [EMPTY; EMPTY; EMPTY]; [EMPTY; EMPTY; EMPTY]] ∧
  result [[Some X; EMPTY; EMPTY]; [EMPTY; EMPTY; EMPTY]; [EMPTY; EMPTY; EMPTY]] (0, 0)
  = Raise Exception.
Proof.
  split; [decide_true|]. apply (result_occupied _ (0, 0) X); [decide_true | decide_true | reflexivity].
Defined.

Lemma result_wf_witness :
  wf_board initial_state ∧ result initial_state (1, 1) = Ok (place initial_state (1, 1) X) ∧
  wf_board (place initial_state (1, 1) X).
Proof.
  split; [decide_true|]. split; [reflexivity|].
  apply (result_wf initial_state _ (1, 1)); [decide_true | reflexivity].
Defined.

Lemma winner_prefers_X_witness :
  wf_board [[Some X; Some X; Some X]; [Some O; Some O; Some O]; [EMPTY; EMPTY; EMPTY]] ∧
  winner [[Some X; Some X; Some X]; [Some O; Some O; Some O]; [EMPTY; EMPTY; EMPTY]] = Some X.
Proof.
  split; [decide_true|]. apply winner_prefers_X; [decide_true | reflexivity | reflexivity].
Defined.
