(* ===== verification/RulesPy.v ===== *)
(** * RulesPy: the game functions of [tictactoe.py] with their [IndexError]s

    Rules.v reads [board[i][j]] inside the [range(3)] loops with [cell_at],
    which cannot fail.  That is Python's behaviour on a board of three rows
    of three cells ([wf_board]), the only boards a game creates.  This file
    translates [player], [actions], [winner], [terminal], [utility] and
    [result] again, with every read a [py_get] that raises [IndexError] and
    every early [return] of the source.  On well-formed boards they return
    what the functions of Rules.v compute (MinimaxPy.code_refine), so the
    theorems of Rules.v, Reach.v, Minimax.v and Play.v, which are about
    well-formed boards, hold of the code.  On other boards they raise where
    Python raises, or return before the read that would raise. *)

From S2P Require Import Prelude Board Rules.

Local Open Scope py_scope.

(** ** The functions *)

(** [board[i][j]] *)
Definition cell_get (b : board) (i j : Z) : pyres cell := row ← py_get b i; py_get row j.

(** [player(board)]: the [elif] reads [board[i][j]] a second time. *)
Definition player_py (b : board) : pyres mark :=
  if b == initial_state then Ok X
  else
    '(Xnum, Onum) ← py_for (λ '(Xnum, Onum) '(i, j),
        c ← cell_get b i j;
        if c == Some X then Ok (S Xnum, Onum)
        else c' ← cell_get b i j;
             if c' == Some O then Ok (Xnum, S Onum) else Ok (Xnum, Onum))
      coords (0%nat, 0%nat);
    if (Onum <? Xnum)%nat then Ok O else Ok X.

(** [actions(board)]: [acts.add((i,j))] adds a cell the loops have not
    visited before, so the set is the list of the cells in the order they
    are added. *)
Definition actions_py (b : board) : pyres (list (Z * Z)) :=
  py_for (λ acts '(i, j),
      c ← cell_get b i j;
      if c == EMPTY then Ok (acts ++ [(i, j)]) else Ok acts)
    coords [].

(** [[board[x][i] for x in range(3)]] *)
Definition column_py (b : board) (i : Z) : pyres (list cell) := py_map (λ x, cell_get b x i) (range 3).

(** [[board[i][i] for i in range(0, 3)]] *)
Definition diagonal_py (b : board) : pyres (list cell) := py_map (λ i, cell_get b i i) (range 3).

(** [[board[i][~i] for i in range(0, 3)]] *)
Definition anti_diagonal_py (b : board) : pyres (list cell) := py_map (λ i, cell_get b i (Z.lnot i)) (range 3).

(** The body of the loop of [winner] for one [player]: the rows, then the
    columns, then the diagonal, then ([elif]) the anti-diagonal, each
    check returning as soon as it fires. *)
Definition has_line_py (p : mark) (b : board) : pyres bool :=
  if existsb (λ row, row == three p) b then Ok true
  else
    py_any (λ i, column ← column_py b i; Ok (column == three p)) (range 3) ≫= λ found : bool,
    if found then Ok true
    else
      d ← diagonal_py b;
      if d == three p then Ok true
      else a ← anti_diagonal_py b; Ok (a == three p).

(** [winner(board)]: [for player in (X, O)], returning the first player
    whose checks fire, or [None]. *)
Definition winner_py (b : board) : pyres (option mark) := py_find (λ p, has_line_py p b) [X; O].

(** [terminal(board)] *)
Definition terminal_py (b : board) : pyres bool :=
  winner_py b ≫= λ w : option mark,
  if negb (w == None) then Ok true
  else Ok (negb (existsb (λ row, py_in EMPTY row) b)).

(** [utility(board)] *)
Definition utility_py (b : board) : pyres Z :=
  winner_py b ≫= λ winPlayer : option mark,
  if winPlayer == Some X then Ok 1
  else if winPlayer == Some O then Ok (-1)
  else Ok 0.

(** [result(board, action)]: [player(board)] runs first, and may raise. *)
Definition result_py (b : board) (action : Z * Z) : pyres board :=
  player_move ← player_py b;
  let '(i, j) := action in
  row ← py_get b i;
  c ← py_get row j;
  match c with
  | Some _ => raise Exception
  | None => new_row ← py_setitem row j (Some player_move); py_setitem b i new_row
  end.

(** ** Agreement with Rules.v on well-formed boards *)

Section WellFormed.
Variable b : board.
Hypothesis Hwf : wf_board b.

Lemma cell_get_wf (i j : Z) : -3 <= i < 3 → -3 <= j < 3 → cell_get b i j = Ok (cell_at b i j).
Proof.
  intros Hi Hj. destruct Hwf as [Hlen Hrows].
  destruct (py_get_in_range b i) as (row & Hrow & Hin); [rewrite Hlen; simpl; lia|].
  rewrite Forall_forall in Hrows. specialize (Hrows row Hin).
  destruct (py_get_in_range row j) as (c & Hc & _); [rewrite Hrows; simpl; lia|].
  unfold cell_at, cell_get. by rewrite Hrow, bind_Ok, Hc.
Qed.

Lemma cell_get_coords (i j : Z) : (i, j) ∈ coords → cell_get b i j = Ok (cell_at b i j).
Proof. rewrite elem_of_coords. intros [Hi Hj]. apply cell_get_wf; lia. Qed.

Lemma elem_of_range_3 (i : Z) : i ∈ range 3 → 0 <= i < 3.
Proof. rewrite range_3. intros Hi. repeat (apply elem_of_cons in Hi as [->|Hi]; [lia|]). set_solver. Qed.

Lemma player_py_wf : player_py b = Ok (player b).
Proof.
  unfold player_py, player. destruct (b == initial_state); [done|].
  rewrite (py_for_Ok _ (count_step b)).
  - rewrite bind_Ok. by destruct (foldl (count_step b) (0%nat, 0%nat) coords) as [x o], (o <? x)%nat.
  - intros [x o] [i j] Hij. rewrite cell_get_coords by done. simpl. unfold count_step. simpl.
    destruct (cell_at b i j == Some X); [done|]. by destruct (cell_at b i j == Some O).
Qed.

Lemma actions_py_wf : actions_py b = Ok (actions b).
Proof.
  unfold actions_py, actions. apply py_for_Ok. intros acts [i j] Hij.
  rewrite cell_get_coords by done. simpl. by destruct (cell_at b i j == EMPTY).
Qed.

Lemma has_line_py_wf (p : mark) : has_line_py p b = Ok (has_line p b).
Proof.
  unfold has_line_py, has_line. destruct (existsb _ b); [done|]. cbv beta iota.
  assert (Hline : ∀ f : Z → Z, (∀ i, 0 <= i < 3 → -3 <= f i < 3) →
            py_map (λ i, cell_get b i (f i)) (range 3) = Ok ((λ i, cell_at b i (f i)) <$> range 3)).
  { intros f Hf. apply py_map_Ok. intros i Hi%elem_of_range_3. apply cell_get_wf; [lia | by apply Hf]. }
  rewrite (py_any_Ok _ (λ i, column b i == three p)).
  - rewrite bind_Ok. destruct (existsb _ (range 3)); [done|]. cbv beta iota.
    unfold diagonal_py, anti_diagonal_py. rewrite (Hline (λ i, i)), (Hline Z.lnot) by (intros i Hi; pose proof (Z.add_lnot_diag i); lia).
    rewrite bind_Ok. by destruct (_ == three p).
  - intros i Hi%elem_of_range_3. unfold column_py, column.
    rewrite (py_map_Ok _ (λ x, cell_at b x i)) by (intros x Hx%elem_of_range_3; apply cell_get_wf; lia). done.
Qed.

Lemma winner_py_wf : winner_py b = Ok (winner b).
Proof. apply py_find_Ok. intros p _. apply has_line_py_wf. Qed.

Lemma terminal_py_wf : terminal_py b = Ok (terminal b).
Proof. unfold terminal_py, terminal. rewrite winner_py_wf, bind_Ok. by destruct (negb _). Qed.

Lemma utility_py_wf : utility_py b = Ok (utility b).
Proof. unfold utility_py, utility. rewrite winner_py_wf. simpl. by repeat case_match. Qed.

Lemma result_py_wf (a : Z * Z) : result_py b a = result b a.
Proof. unfold result_py, result. by rewrite player_py_wf. Qed.

End WellFormed.

(** ** A malformed board *)

(** A board of one full row: [winner] returns X from its row check before
    any read out of range, but [player], and so [result], raise
    [IndexError] at [board[1][0]], where Rules.v reads [EMPTY]. *)
Example short_board_behaviour :
  winner_py [[Some X; Some X; Some X]] = Ok (Some X) ∧
  player_py [[Some X; Some X; Some X]] = Raise IndexError ∧
  result_py [[Some X; Some X; Some X]] (0, 0) = Raise IndexError ∧
  result [[Some X; Some X; Some X]] (0, 0) = Raise Exception.
Proof. vm_compute. auto. Qed.
