(* ===== verification/ResultHeap.v ===== *)
(** * ResultHeap: [result] on the Python heap, with [deepcopy]

    A Python board is an object: the outer list holds references to three
    row lists, which hold the cells.  [result] copies it with
    [deepcopy(board)] and then writes [new_board[i][j] = player_move],
    which mutates the row object [new_board[i]].  Whether the caller's
    board changes depends on which objects the copy shares with it, so
    this file models the heap: a map from locations to objects, grids
    (lists of references to rows) and rows (lists of cells).

    [deepcopy_grid] follows [copy._deepcopy_list]: the new outer list is
    allocated and put in the memo first, then each row is copied unless
    the memo already maps it, in which case the copy is shared again, as
    in the original.  The theorem [result_heap_spec] shows the value
    semantics the specification asks for: the objects of the heap before
    the call are unchanged, and on a board whose rows are distinct objects
    the new board holds the value [result_py] computes.  The example
    [aliased_rows_result] shows the other case: a board whose three rows
    are one list is copied to a board whose three rows are one new list,
    and the move marks the whole column.

    Heaps of other shapes (a reference to nothing, a row where a grid is
    expected) do not arise in Python; [result_heap] answers [None] on them. *)

From stdpp Require Import gmap.
From S2P Require Import Prelude Board Rules RulesPy.

Local Open Scope py_scope.

(** ** The heap *)

(** A location of the heap (an object's [id]). *)
Abbreviation loc := positive.

(** The objects a board is made of: the outer list of rows, and a row. *)
Inductive obj := Grid (rows : list loc) | Row (cells : list cell).

Abbreviation heap := (gmap loc obj).

(** The row object at [l]. *)
Definition row_at (h : heap) (l : loc) : option (list cell) :=
  match h !! l with Some (Row cs) => Some cs | _ => None end.

(** The grid object at [l]. *)
Definition grid_at (h : heap) (l : loc) : option (list loc) :=
  match h !! l with Some (Grid rs) => Some rs | _ => None end.

(** The board value of the grid at [l]: the cells of its rows. *)
Definition read_board (h : heap) (l : loc) : option board :=
  rs ← grid_at h l; mapM (row_at h) rs.

(** ** [deepcopy] *)

(** The loop of [_deepcopy_list] over the rows of a grid: a row already in
    the memo is its copy; any other row is copied to a fresh location,
    recorded in the memo. *)
Fixpoint deepcopy_rows (h : heap) (memo : gmap loc loc) (rs : list loc) : option (heap * list loc) :=
  match rs with
  | [] => Some (h, [])
  | r :: rs' =>
      match memo !! r with
      | Some r' => '(h', nrs) ← deepcopy_rows h memo rs'; Some (h', r' :: nrs)
      | None =>
          cs ← row_at h r;
          let r' := fresh (dom h) in
          '(h', nrs) ← deepcopy_rows (<[r' := Row cs]> h) (<[r := r']> memo) rs';
          Some (h', r' :: nrs)
      end
  end.

(** [deepcopy(board)] of the grid at [l]: [y = []; memo[id(x)] = y], then
    the rows, then [y] holds the copies. *)
Definition deepcopy_grid (h : heap) (l : loc) : option (heap * loc) :=
  rs ← grid_at h l;
  let y := fresh (dom h) in
  '(h', nrs) ← deepcopy_rows (<[y := Grid []]> h) {[l := y]} rs;
  Some (<[y := Grid nrs]> h', y).

(** ** [result] *)

(** [result(board, action)] on the board object at [board]: [player]
    reads the board, [deepcopy] copies it, [board[i][j]] is read, and the
    write [new_board[i][j] = player_move] replaces the row object
    [new_board[i]] of the copy.  [None] when the heap is not of the shape
    of a board. *)
Definition result_heap (h : heap) (board : loc) (action : Z * Z) : option (pyres (heap * loc)) :=
  b ← read_board h board;
  '(h1, new_board) ← deepcopy_grid h board;
  nrs ← grid_at h1 new_board;
  nb ← read_board h1 new_board;
  Some (player_move ← player_py b;
        let '(i, j) := action in
        row ← py_get b i;
        c ← py_get row j;
        match c with
        | Some _ => raise Exception
        | None =>
            nr ← py_get nrs i;
            new_row ← py_get nb i;
            new_row' ← py_setitem new_row j (Some player_move);
            Ok (<[nr := Row new_row']> h1, new_board)
        end).

(** ** Lemmas on the heap *)

Lemma row_at_weaken (h h' : heap) (l : loc) (cs : list cell) :
  h ⊆ h' → row_at h l = Some cs → row_at h' l = Some cs.
Proof.
  unfold row_at. intros Hsub. destruct (h !! l) as [o|] eqn:Hl; [|done].
  by rewrite (lookup_weaken h h' l o).
Qed.

Lemma grid_at_weaken (h h' : heap) (l : loc) (rs : list loc) :
  h ⊆ h' → grid_at h l = Some rs → grid_at h' l = Some rs.
Proof.
  unfold grid_at. intros Hsub. destruct (h !! l) as [o|] eqn:Hl; [|done].
  by rewrite (lookup_weaken h h' l o).
Qed.

Lemma read_board_weaken (h h' : heap) (l : loc) (b : board) :
  h ⊆ h' → read_board h l = Some b → read_board h' l = Some b.
Proof.
  unfold read_board. intros Hsub Hb. apply bind_Some in Hb as (rs & Hrs & Hb).
  rewrite (grid_at_weaken h h' l rs) by done. simpl. apply mapM_Some in Hb. apply mapM_Some.
  eapply Forall2_impl; [done|]. intros r c. by apply row_at_weaken.
Qed.

(** A grid and a row are different objects. *)
Lemma grid_row_ne (h : heap) (l r : loc) (rs : list loc) (cs : list cell) :
  grid_at h l = Some rs → row_at h r = Some cs → r ≠ l.
Proof. unfold grid_at, row_at. intros Hl Hr ->. destruct (h !! l) as [[]|]; discriminate. Qed.

(** Copying distinct rows that are not in the memo: each gets a fresh
    location holding its cells, and nothing of the heap changes. *)
Lemma deepcopy_rows_spec (h0 h : heap) (memo : gmap loc loc) (rs : list loc) (css : list (list cell)) :
  Forall2 (λ r cs, row_at h0 r = Some cs) rs css → NoDup rs → (∀ r, r ∈ rs → memo !! r = None) → h0 ⊆ h →
  ∃ h' nrs, deepcopy_rows h memo rs = Some (h', nrs) ∧ h ⊆ h' ∧ NoDup nrs ∧
    (∀ n, n ∈ nrs → n ∉ dom h) ∧ Forall2 (λ n cs, row_at h' n = Some cs) nrs css.
Proof.
  intros Hrs. revert h memo. induction Hrs as [|r cs rs css Hr Hrs IH]; intros h memo Hnd Hmemo Hsub.
  { exists h, []. split_and!; [done | done | constructor | set_solver | constructor]. }
  apply NoDup_cons in Hnd as [Hr_rs Hnd]. simpl. rewrite Hmemo by set_solver.
  rewrite (row_at_weaken h0 h r cs) by done. simpl.
  set (r' := fresh (dom h)). pose proof (is_fresh (dom h)) as Hr'. fold r' in Hr'.
  assert (Hins : h ⊆ <[r' := Row cs]> h) by (apply insert_subseteq; by apply not_elem_of_dom).
  destruct (IH (<[r' := Row cs]> h) (<[r := r']> memo)) as (h' & nrs & Hdc & Hsub' & Hnd' & Hnew & Hrows);
    [done | | by etrans |].
  { intros x Hx. rewrite lookup_insert_ne by set_solver. apply Hmemo. set_solver. }
  rewrite Hdc. simpl. exists h', (r' :: nrs). split_and!; [done | by etrans | | |].
  - constructor; [|done]. intros Hin. apply (Hnew r' Hin). rewrite dom_insert. set_solver.
  - intros n Hn. apply elem_of_cons in Hn as [->|Hn]; [done|].
    specialize (Hnew n Hn). rewrite dom_insert in Hnew. set_solver.
  - constructor; [|done]. apply (row_at_weaken _ _ _ _ Hsub'). unfold row_at. by rewrite lookup_insert_eq.
Qed.

(** [deepcopy] of a grid of distinct rows: a fresh grid of fresh rows
    holding the same cells, and nothing of the heap changes. *)
Lemma deepcopy_grid_spec (h : heap) (l : loc) (rs : list loc) (b : board) :
  grid_at h l = Some rs → NoDup rs → Forall2 (λ r cs, row_at h r = Some cs) rs b →
  ∃ h' y nrs, deepcopy_grid h l = Some (h', y) ∧ h ⊆ h' ∧ y ∉ dom h ∧ grid_at h' y = Some nrs ∧
    NoDup nrs ∧ (∀ n, n ∈ nrs → n ∉ dom h) ∧ Forall2 (λ n cs, row_at h' n = Some cs) nrs b.
Proof.
  intros Hl Hnd Hrows. unfold deepcopy_grid. rewrite Hl. simpl.
  set (y := fresh (dom h)). pose proof (is_fresh (dom h)) as Hy. fold y in Hy.
  assert (Hins : h ⊆ <[y := Grid []]> h) by (apply insert_subseteq; by apply not_elem_of_dom).
  destruct (deepcopy_rows_spec h (<[y := Grid []]> h) {[l := y]} rs b) as (h' & nrs & Hdc & Hsub & Hnd' & Hnew & Hrows');
    [done | done | | done |].
  { intros r Hr. apply lookup_singleton_None. destruct (Forall2_ex_l _ _ _ Hrows r Hr) as [cs Hcs].
    apply not_eq_sym. by eapply grid_row_ne. }
  assert (Hyn : y ∉ nrs) by (intros Hin; apply (Hnew y Hin); rewrite dom_insert; set_solver).
  rewrite Hdc. simpl. exists (<[y := Grid nrs]> h'), y, nrs. split_and!; [done | | done | | done | |].
  - apply insert_subseteq_r; [by apply not_elem_of_dom | by etrans].
  - unfold grid_at. by rewrite lookup_insert_eq.
  - intros n Hn. specialize (Hnew n Hn). rewrite dom_insert in Hnew. set_solver.
  - eapply Forall2_impl; [done|]. intros n cs Hn. unfold row_at in *.
    rewrite lookup_insert_ne; [done|]. intros Heq. rewrite <- Heq in Hn.
    rewrite (lookup_weaken (<[y := Grid []]> h) h' y (Grid [])) in Hn; [done | | done].
    by rewrite lookup_insert_eq.
Qed.

(** Writing a new row object at the [n]-th row of a grid of distinct rows
    changes the board value at row [n] only. *)
Lemma rows_insert (h : heap) (nrs : list loc) (b : board) (n : nat) (nr : loc) (cs : list cell) :
  NoDup nrs → nrs !! n = Some nr → Forall2 (λ x c, row_at h x = Some c) nrs b →
  Forall2 (λ x c, row_at (<[nr := Row cs]> h) x = Some c) nrs (<[n := cs]> b).
Proof.
  intros Hnd Hn Hrows. pose proof (Forall2_length _ _ _ Hrows) as Hlen.
  apply Forall2_lookup. intros k. destruct (decide (k = n)) as [->|Hk].
  - rewrite Hn, list_lookup_insert_eq by (apply lookup_lt_Some in Hn; lia). constructor.
    unfold row_at. by rewrite lookup_insert_eq.
  - rewrite list_lookup_insert_ne by done. apply Forall2_lookup with (i := k) in Hrows.
    destruct (nrs !! k) as [x|] eqn:Hx; inversion Hrows as [? c Hxc|]; constructor.
    unfold row_at in *. rewrite lookup_insert_ne; [done|]. intros ->. apply Hk. by eapply NoDup_lookup.
Qed.

(** ** Value semantics *)

(** [result] on a board object whose rows are distinct objects, with
    what the recursion of the search needs: the new board object is a
    grid of distinct rows. *)
Lemma result_heap_correct (h : heap) (l : loc) (rs : list loc) (b : board) (a : Z * Z) :
  grid_at h l = Some rs → NoDup rs → read_board h l = Some b →
  ∃ r, result_heap h l a = Some r ∧
    match result_py b a with
    | Ok b' => ∃ h' l' nrs, r = Ok (h', l') ∧ h ⊆ h' ∧ l' ∉ dom h ∧
                 grid_at h' l' = Some nrs ∧ NoDup nrs ∧ read_board h' l' = Some b'
    | Raise e => r = Raise e
    end.
Proof.
  intros Hl Hnd Hb. pose proof Hb as Hrows. unfold read_board in Hrows. rewrite Hl in Hrows.
  apply mapM_Some in Hrows.
  destruct (deepcopy_grid_spec h l rs b Hl Hnd Hrows)
    as (h1 & y & nrs & Hdc & Hsub & Hy & Hgy & Hnd' & Hnew & Hrows').
  assert (Hnb : read_board h1 y = Some b) by (unfold read_board; rewrite Hgy; by apply mapM_Some).
  unfold result_heap. rewrite Hb. simpl. rewrite Hdc. simpl. rewrite Hgy. simpl. rewrite Hnb. simpl.
  eexists. split; [done|]. unfold result_py.
  destruct (player_py b) as [pm|e]; [rewrite !bind_Ok | done]. destruct a as [i j].
  destruct (py_get b i) as [row|e] eqn:Hrow; [rewrite !bind_Ok | done].
  destruct (py_get row j) as [[m|]|e]; [done | rewrite !bind_Ok | done].
  apply py_get_Ok in Hrow as (n & Hn & Hbn). pose proof (Forall2_length _ _ _ Hrows') as Hlen.
  destruct (lookup_lt_is_Some_2 nrs n) as [nr Hnr]; [apply lookup_lt_Some in Hbn; lia|].
  rewrite (py_get_norm nrs i n nr), !bind_Ok by (by rewrite ?Hlen).
  destruct (py_setitem row j (Some pm)) as [row'|e]; [rewrite !bind_Ok | done].
  rewrite (py_setitem_Ok b i row' n Hn).
  assert (Hnrh : h !! nr = None) by (apply not_elem_of_dom, Hnew; by eapply list_elem_of_lookup_2).
  assert (Hsub' : h ⊆ <[nr := Row row']> h1) by (by apply insert_subseteq_r).
  assert (Hny : nr ≠ y).
  { intros ->. destruct (Forall2_lookup_l _ _ _ _ _ Hrows' Hnr) as (c & _ & Hc).
    by apply (grid_row_ne h1 y y nrs c). }
  assert (Hgy' : grid_at (<[nr := Row row']> h1) y = Some nrs).
  { unfold grid_at. rewrite lookup_insert_ne by done. exact Hgy. }
  exists (<[nr := Row row']> h1), y, nrs. split_and!; [done.. |].
  unfold read_board. rewrite Hgy'. simpl. apply mapM_Some. by apply rows_insert.
Qed.


(** C12: [result] on a board object whose rows are distinct objects
    behaves as [result_py] on its value and leaves the caller's objects
    alone: it raises what [result_py] raises, and otherwise returns a new
    board object, at a location that was free, holding the value
    [result_py] returns, in a heap that extends the old one, so the
    caller's board still holds its old value. *)
Theorem result_heap_spec (h : heap) (l : loc) (rs : list loc) (b : board) (a : Z * Z) :
  grid_at h l = Some rs → NoDup rs → read_board h l = Some b →
  ∃ r, result_heap h l a = Some r ∧
    match result_py b a with
    | Ok b' => ∃ h' l', r = Ok (h', l') ∧ h ⊆ h' ∧ l' ∉ dom h ∧
                 read_board h' l = Some b ∧ read_board h' l' = Some b'
    | Raise e => r = Raise e
    end.
Proof.
  intros Hl Hnd Hb. destruct (result_heap_correct h l rs b a Hl Hnd Hb) as (r & Hr & Hm).
  exists r. split; [done|]. destruct (result_py b a); [|done].
  destruct Hm as (h' & l' & nrs & -> & Hsub & Hl' & _ & _ & Hb'). exists h', l'.
  split_and!; [done | done | done | by eapply read_board_weaken | done].
Qed.

(** ** Witnesses *)

(** The empty board as [initial_state()] builds it: three distinct row
    objects. *)
Definition example_heap : heap :=
  <[1%positive := Grid [2; 3; 4]%positive]> (<[2%positive := Row [EMPTY; EMPTY; EMPTY]]>
    (<[3%positive := Row [EMPTY; EMPTY; EMPTY]]> {[4%positive := Row [EMPTY; EMPTY; EMPTY]]})).

Lemma result_heap_spec_witness :
  grid_at example_heap 1 = Some [2; 3; 4]%positive ∧ NoDup [2; 3; 4]%positive ∧
  read_board example_heap 1 = Some initial_state ∧
  ∃ r, result_heap example_heap 1 (0, 0) = Some r ∧
    match result_py initial_state (0, 0) with
    | Ok b' => ∃ h' l', r = Ok (h', l') ∧ example_heap ⊆ h' ∧ l' ∉ dom example_heap ∧
                 read_board h' 1 = Some initial_state ∧ read_board h' l' = Some b'
    | Raise e => r = Raise e
    end.
Proof.
  split_and!; [vm_compute; reflexivity | decide_true | vm_compute; reflexivity |].
  apply (result_heap_spec example_heap 1 [2; 3; 4]%positive); [vm_compute; reflexivity | decide_true | vm_compute; reflexivity].
Defined.

(** The board [[[EMPTY] * 3] * 3]: one row object three times.  [deepcopy]
    keeps the sharing, so X's move at (0, 0) marks the first column,
    where [result_py] on the value marks one cell; the caller's board is
    still empty. *)
Example aliased_rows_result :
  let h : heap := <[1%positive := Grid [2; 2; 2]%positive]> {[2%positive := Row [EMPTY; EMPTY; EMPTY]]} in
  read_board h 1 = Some initial_state ∧
  match result_heap h 1 (0, 0) with
  | Some (Ok (h', l')) => read_board h' l' = Some [[Some X; EMPTY; EMPTY]; [Some X; EMPTY; EMPTY]; [Some X; EMPTY; EMPTY]]
                          ∧ read_board h' 1 = Some initial_state
  | _ => False
  end ∧
  result_py initial_state (0, 0) = Ok [[Some X; EMPTY; EMPTY]; [EMPTY; EMPTY; EMPTY]; [EMPTY; EMPTY; EMPTY]].
Proof. vm_compute. auto. Qed.
