(* ===== verification/Reach.v ===== *)
(** * Reach: games played with [result]

    The specification lets the engine trust its inputs: every board it
    receives was produced by [result] from [initial_state], by a driver
    that plays legal actions until the game is over.  The driver is not in
    the repository (the course's [runner.py]).  It is modelled here as the
    step relation [play_step]: from a board that is not [terminal], apply
    [result] to one of its [actions].  Its reflexive-transitive closure is
    [reachable].

    The invariants are proved by rule induction on [rtc play_step]:
    - the shape [wf_board];
    - the count balance [balanced]: X has as many marks as O, or one more;
    - turn alternation: [player] changes at every move;
    - at most one player has a line, so [winner]'s preference for X
      (it is tried first) never decides a reachable game. *)

From S2P Require Import Prelude Board Rules.

(** One move of a game: a board that is not over, one of its actions, and
    the board [result] returns. *)
Inductive play_step : board → board → Prop :=
| play_step_intro (b b' : board) (a : Z * Z) :
    terminal b = false → a ∈ actions b → result b a = Ok b' → play_step b b'.

(** The boards of games started from [initial_state]. *)
Definition reachable (b : board) : Prop := rtc play_step initial_state b.

(** X has as many marks as O, or one more. *)
Definition balanced (b : board) : Prop :=
  count_mark X b = count_mark O b ∨ count_mark X b = S (count_mark O b).

#[export] Instance balanced_dec (b : board) : Decision (balanced b).
Proof. unfold balanced. apply _. Defined.

(** ** Lemmas *)

(** A legal action marks its cell with the player to move. *)
Lemma result_action (b : board) (a : Z * Z) :
  wf_board b → a ∈ actions b → result b a = Ok (place b a (player b)).
Proof. intros Hwf Ha. apply elem_of_actions in Ha as [Hc He]. by apply result_empty. Qed.

Lemma play_step_inv (b b' : board) :
  wf_board b → play_step b b' →
  ∃ a, terminal b = false ∧ a ∈ actions b ∧ b' = place b a (player b).
Proof.
  intros Hwf Hmove. inversion Hmove as [b0 b1 a Ht Ha Hr]; subst.
  rewrite result_action in Hr by done. injection Hr as <-. eauto.
Qed.

(** On a balanced board, X moves exactly when the counts are equal. *)
Lemma player_balanced (b : board) :
  balanced b → player b = if decide (count_mark X b = count_mark O b) then X else O.
Proof.
  intros Hb. rewrite player_counts.
  destruct (Nat.ltb_spec (count_mark O b) (count_mark X b)); case_decide; unfold balanced in *; lia || done.
Qed.

(** Playing a legal action on a balanced board keeps it balanced and hands
    the turn to the other player. *)
Lemma place_balanced (b : board) (a : Z * Z) :
  wf_board b → balanced b → a ∈ actions b →
  balanced (place b a (player b)) ∧ player (place b a (player b)) = opponent (player b).
Proof.
  intros Hwf Hb Ha. apply elem_of_actions in Ha as [Hc He].
  rewrite (player_balanced b Hb). unfold balanced in *. rewrite !player_counts.
  destruct (decide (count_mark X b = count_mark O b)) as [E|E]; simpl.
  - rewrite count_mark_place, count_mark_place_other by done.
    destruct (Nat.ltb_spec (count_mark O b) (S (count_mark X b))); split; lia || done.
  - rewrite count_mark_place, (count_mark_place_other b a O X) by done.
    destruct (Nat.ltb_spec (S (count_mark O b)) (count_mark X b)); split; lia || done.
Qed.

Lemma lines_in_coords : Forall (Forall (λ ij, ij ∈ coords)) lines.
Proof. rewrite coords_9. repeat constructor; set_solver. Qed.

(** Marking a cell with [m] adds no line of another player. *)
Lemma line_full_place_other (b : board) (a : Z * Z) (m q : mark) (line : list (Z * Z)) :
  wf_board b → a ∈ coords → q ≠ m → Forall (λ ij, ij ∈ coords) line →
  line_full q (place b a m) line = true → line_full q b line = true.
Proof.
  intros Hwf Ha Hqm Hline. unfold line_full. rewrite !forallb_forall.
  intros Hall [i j] Hij. specialize (Hall (i, j) Hij). simpl in *.
  apply py_eq_spec. apply py_eq_spec in Hall.
  assert ((i, j) ∈ coords) as Hijc.
  { rewrite Forall_forall in Hline. by apply Hline, list_elem_of_In. }
  rewrite cell_at_place in Hall by done. case_decide; congruence.
Qed.

Lemma has_line_place_other (b : board) (a : Z * Z) (m q : mark) :
  wf_board b → a ∈ coords → q ≠ m → has_line q (place b a m) = true → has_line q b = true.
Proof.
  intros Hwf Ha Hqm.
  rewrite (has_line_lines q (place b a m)), (has_line_lines q b) by (done || by apply place_wf).
  rewrite !existsb_exists. intros (line & Hl & Hfull). exists line. split; [done|].
  eapply line_full_place_other; eauto.
  pose proof lines_in_coords as Hlc. rewrite Forall_forall in Hlc.
  by apply Hlc, list_elem_of_In.
Qed.

(** A board that is not over has no line. *)
Lemma not_terminal_no_line (b : board) (p : mark) : terminal b = false → has_line p b = false.
Proof.
  unfold terminal. rewrite winner_has_line.
  destruct p, (has_line X b), (has_line O b); simpl; congruence.
Qed.

(** ** The game invariant *)

(** The invariant of games: shape, balance, and at most one line. *)
Definition game_inv (b : board) : Prop :=
  wf_board b ∧ balanced b ∧ ¬ (has_line X b = true ∧ has_line O b = true).

Lemma game_inv_initial : game_inv initial_state.
Proof.
  split; [apply wf_board_cells; eauto 10|]. split; [by left|].
  vm_compute. intros [? ?]; congruence.
Qed.

Lemma game_inv_step (b b' : board) : play_step b b' → game_inv b → game_inv b'.
Proof.
  intros Hmove (Hwf & Hbal & _).
  destruct (play_step_inv b b' Hwf Hmove) as (a & Ht & Ha & ->).
  pose proof Ha as [Hc _]%elem_of_actions.
  destruct (place_balanced b a Hwf Hbal Ha) as [Hbal' _].
  split; [by apply place_wf|]. split; [done|]. intros [HX HO].
  destruct (player b) eqn:Hp.
  - apply (has_line_place_other b a X O) in HO; [|done..].
    by rewrite not_terminal_no_line in HO.
  - apply (has_line_place_other b a O X) in HX; [|done..].
    by rewrite not_terminal_no_line in HX.
Qed.

Lemma reachable_game_inv (b : board) : reachable b → game_inv b.
Proof.
  intros Hr. eapply rtc_invariant; [apply game_inv_step | exact Hr | apply game_inv_initial].
Qed.

(** ** Invariants of reachable boards *)

(** A reachable board has three rows of three cells. *)
Theorem reachable_wf (b : board) : reachable b → wf_board b.
Proof. intros Hr. apply (reachable_game_inv b Hr). Qed.

(** C28: On a reachable board X has as many marks as O, or exactly one more. *)
Theorem reachable_balanced (b : board) :
  reachable b → count_mark X b = count_mark O b ∨ count_mark X b = S (count_mark O b).
Proof. intros Hr. apply (reachable_game_inv b Hr). Qed.

(** C29: On a reachable board at most one player has a full line, so [winner]
    never has to choose between two. *)
Theorem reachable_one_winner (b : board) :
  reachable b → ¬ (existsb (line_full X b) lines = true ∧ existsb (line_full O b) lines = true).
Proof.
  intros Hr. destruct (reachable_game_inv b Hr) as (Hwf & _ & Hone).
  by rewrite <- !has_line_lines.
Qed.

(** C30: Every move of a game hands the turn to the other player; X starts. *)
Theorem player_alternates (b b' : board) :
  reachable b → play_step b b' → player b' = opponent (player b).
Proof.
  intros Hr Hmove. destruct (reachable_game_inv b Hr) as (Hwf & Hbal & _).
  destruct (play_step_inv b b' Hwf Hmove) as (a & _ & Ha & ->).
  apply (place_balanced b a Hwf Hbal Ha).
Qed.

(** ** Witnesses *)

(** The board after X takes the center and O the top-left corner. *)
Definition two_move_board : board :=
  [[Some O; EMPTY; EMPTY]; [EMPTY; Some X; EMPTY]; [EMPTY; EMPTY; EMPTY]].

Lemma two_move_board_reachable : reachable two_move_board.
Proof.
  eapply rtc_l; [apply (play_step_intro _ _ (1, 1)); [reflexivity | decide_true | reflexivity]|].
  eapply rtc_l; [apply (play_step_intro _ _ (0, 0)); [reflexivity | decide_true | reflexivity]|].
  apply rtc_refl.
Defined.

Lemma reachable_wf_witness : reachable two_move_board ∧ wf_board two_move_board.
Proof. split; [apply two_move_board_reachable | apply reachable_wf, two_move_board_reachable]. Defined.

Lemma reachable_balanced_witness :
  reachable two_move_board ∧
  (count_mark X two_move_board = count_mark O two_move_board ∨
   count_mark X two_move_board = S (count_mark O two_move_board)).
Proof.
  split; [apply two_move_board_reachable | apply reachable_balanced, two_move_board_reachable].
Defined.

Lemma reachable_one_winner_witness :
  reachable two_move_board ∧
  ¬ (existsb (line_full X two_move_board) lines = true ∧
     existsb (line_full O two_move_board) lines = true).
Proof.
  split; [apply two_move_board_reachable | apply reachable_one_winner, two_move_board_reachable].
Defined.

Lemma player_alternates_witness :
  reachable two_move_board ∧
  play_step two_move_board (place two_move_board (2, 2) X) ∧
  player (place two_move_board (2, 2) X) = opponent (player two_move_board).
Proof.
  assert (Hstep : play_step two_move_board (place two_move_board (2, 2) X)).
  { apply (play_step_intro _ _ (2, 2)); [reflexivity | decide_true | reflexivity]. }
  split; [apply two_move_board_reachable|]. split; [exact Hstep|].
  apply player_alternates; [apply two_move_board_reachable | exact Hstep].
Defined.
