(* ===== verification/Minimax.v ===== *)
(** * Minimax: the search of [minimax] ([tictactoe.py], lines 123-162)

    [max_value] and [min_value] are the two local functions of [minimax],
    as a mutual [Fixpoint].
    - The fuel counts nested calls; an exhausted fuel is Python's
      [RecursionError].
    - Their loops run over the set [actions(board)] in the iteration order
      of a Python set.  That order is CPython's hash order, which the code
      does not fix.  It is the [Variable iter_order] of [Section Search].
      The theorems assume only that it is a permutation.
    - [minimax] runs them with [recursion_limit], CPython's default 1000.

    The specification [minimax_value p b v] is the game-theoretic value of
    [b] with [p] to move, as a natural semantics.
    - On a finished board it is [utility b].
    - Otherwise it is the [best] for [p] of the values of the boards
      [place b a p], one for each action [a], with the other player to move.

    The theorems:
    - the search never raises with fuel above the number of empty cells;
    - beyond that bound the fuel does not change the result;
    - on a well-formed, balanced board it computes [minimax_value] for the
      player to move (refinement), and the value lies in [-1, 1];
    - on every reachable board the move it returns is optimal, and it is
      the first optimal action of the iteration order (strict-improvement
      tie-break);
    - the value does not depend on the iteration order. *)

From S2P Require Import Prelude Board Rules Reach.

Local Open Scope py_scope.

(** [optimal_move]: the empty tuple [()] or an action. *)
Inductive move := NoMove | Move (a : Z * Z).

(** ** Specification *)

(** [v] is at least as good as [w] for player [p]: X maximises, O minimises. *)
Definition prefers (p : mark) (v w : Z) : Prop :=
  match p with X => w <= v | O => v <= w end.

(** The best value of a non-empty list for player [p]. *)
Definition best (p : mark) (vs : list Z) : Z :=
  match vs with
  | [] => 0
  | v :: vs' => foldl (match p with X => Z.max | O => Z.min end) v vs'
  end.

(** The minimax value of a board with [p] to move. *)
Inductive minimax_value : mark → board → Z → Prop :=
| mv_terminal (p : mark) (b : board) :
    terminal b = true → minimax_value p b (utility b)
| mv_inner (p : mark) (b : board) (vs : list Z) :
    terminal b = false →
    Forall2 (λ a v, minimax_value (opponent p) (place b a p) v) (actions b) vs →
    minimax_value p b (best p vs).

(** *** Lemmas on the specification *)

Lemma foldl_best (p : mark) (v : Z) (vs : list Z) :
  let m := foldl (match p with X => Z.max | O => Z.min end) v vs in
  (m = v ∨ m ∈ vs) ∧ prefers p m v ∧ ∀ w, w ∈ vs → prefers p m w.
Proof.
  revert v. induction vs as [|x vs IH]; intros v; simpl.
  - split_and!; [by left | destruct p; simpl; lia | set_solver].
  - destruct (IH (match p with X => Z.max | O => Z.min end v x)) as (Hin & Hv & Hall).
    split_and!.
    + destruct Hin as [->|Hin]; [|right; set_solver]. destruct p; simpl.
      * destruct (Z.max_spec v x) as [[_ ->]|[_ ->]]; [right; set_solver | by left].
      * destruct (Z.min_spec v x) as [[_ ->]|[_ ->]]; [by left | right; set_solver].
    + destruct p; simpl in *; lia.
    + intros w [->|Hw]%elem_of_cons; [|by apply Hall]. destruct p; simpl in *; lia.
Qed.

(** [best p vs] is the value of [vs] that [p] prefers to all others. *)
Lemma best_char (p : mark) (vs : list Z) (v : Z) :
  v ∈ vs → (∀ w, w ∈ vs → prefers p v w) → best p vs = v.
Proof.
  destruct vs as [|x vs]; [set_solver|]. intros Hv Hpref. simpl.
  destruct (foldl_best p x vs) as (Hin & Hx & Hall).
  assert (Hm : prefers p (foldl (match p with X => Z.max | O => Z.min end) x vs) v).
  { apply elem_of_cons in Hv as [->|Hv]; [done | by apply Hall]. }
  assert (Hv' : prefers p v (foldl (match p with X => Z.max | O => Z.min end) x vs)).
  { apply Hpref. destruct Hin as [->|Hin]; set_solver. }
  destruct p; simpl in *; lia.
Qed.

Lemma best_elem (p : mark) (vs : list Z) : vs ≠ [] → best p vs ∈ vs.
Proof.
  destruct vs as [|x vs]; [done|]. intros _. simpl.
  destruct (foldl_best p x vs) as ([->|Hin] & _); set_solver.
Qed.

Lemma utility_range (b : board) : -1 <= utility b <= 1.
Proof. rewrite utility_winner. destruct (winner b) as [[]|]; lia. Qed.

(** The relation has one value per board. *)
Lemma minimax_value_unique (p : mark) (b : board) (v w : Z) :
  wf_board b → minimax_value p b v → minimax_value p b w → v = w.
Proof.
  remember (n_empty b) as n eqn:Hn. revert p b v w Hn.
  induction n as [n IH] using lt_wf_ind. intros p b v w Hn Hwf Hv Hw.
  inversion Hv as [? ? Ht|? ? vs Ht Hvs]; inversion Hw as [? ? Ht'|? ? ws Ht' Hws];
    subst; try congruence.
  f_equal. eapply Forall2_functional; [|exact Hvs|exact Hws].
  intros a v' w' Ha. apply elem_of_actions in Ha as [Hc He].
  eapply IH; [|done|by apply place_wf].
  rewrite <- (n_empty_place b a p) by done. lia.
Qed.

(** Game values lie in [-1, 1]. *)
Lemma minimax_value_range (p : mark) (b : board) (v : Z) :
  wf_board b → minimax_value p b v → -1 <= v <= 1.
Proof.
  remember (n_empty b) as n eqn:Hn. revert p b v Hn.
  induction n as [n IH] using lt_wf_ind. intros p b v Hn Hwf Hv.
  inversion Hv as [? ? Ht|? ? vs Ht Hvs]; subst; [apply utility_range|].
  assert (vs ≠ []) as Hne.
  { intros ->. apply Forall2_nil_inv_r in Hvs.
    assert (terminal b = true) by (by apply terminal_no_actions). congruence. }
  pose proof (best_elem p vs Hne) as Hin. apply list_elem_of_lookup in Hin as [k Hk].
  destruct (Forall2_lookup_r _ _ _ _ _ Hvs Hk) as (a & Ha & Hav).
  apply list_elem_of_lookup_2, elem_of_actions in Ha as [Hc He].
  eapply IH; [|done|by apply place_wf|exact Hav].
  rewrite <- (n_empty_place b a p) by done. lia.
Qed.

(** ** The code *)

(** The recursion limit of CPython, [sys.getrecursionlimit()]. *)
Definition recursion_limit : nat := 1000.

Section Search.
(** The order in which [for action in actions(board)] visits the set. *)
Variable iter_order : list (Z * Z) → list (Z * Z).

(** [max_value] and [min_value]: a terminal board returns its utility
    and [()]; otherwise the loop keeps the first action whose child value
    is strictly better than the running value, starting from -5 / 5. *)
Fixpoint max_value (fuel : nat) (b : board) : pyres (Z * move) :=
  match fuel with
  | 0%nat => raise RecursionError
  | S fuel' =>
      let optimal_move := NoMove in
      if terminal b then Ok (utility b, optimal_move)
      else
        py_for (λ '(v, optimal_move) action,
                  b' ← result b action;
                  r ← min_value fuel' b';
                  let minval := r.1 in
                  if minval >? v then Ok (minval, Move action) else Ok (v, optimal_move))
               (iter_order (actions b)) (-5, optimal_move)
  end
with min_value (fuel : nat) (b : board) : pyres (Z * move) :=
  match fuel with
  | 0%nat => raise RecursionError
  | S fuel' =>
      let optimal_move := NoMove in
      if terminal b then Ok (utility b, optimal_move)
      else
        py_for (λ '(v, optimal_move) action,
                  b' ← result b action;
                  r ← max_value fuel' b';
                  let maxval := r.1 in
                  if maxval <? v then Ok (maxval, Move action) else Ok (v, optimal_move))
               (iter_order (actions b)) (5, optimal_move)
  end.

(** [minimax(board)] with a given recursion budget: [None] on a finished
    board, otherwise the move part of [max_value] or [min_value] for the
    player to move. *)
Definition minimax_fuel (fuel : nat) (b : board) : pyres (option move) :=
  let curr_player := player b in
  if terminal b then Ok None
  else if curr_player == X then r ← max_value fuel b; Ok (Some r.2)
  else r ← min_value fuel b; Ok (Some r.2).

(** [minimax(board)] *)
Definition minimax (b : board) : pyres (option move) := minimax_fuel recursion_limit b.

(** The search run for player [p]. *)
Definition role_value (fuel : nat) (p : mark) : board → pyres (Z * move) :=
  match p with X => max_value fuel | O => min_value fuel end.

(** The improvement test of each loop: [minval > v] and [maxval < v]. *)
Definition better (p : mark) (v w : Z) : bool :=
  match p with X => w >? v | O => w <? v end.

(** The initial running value of each loop. *)
Definition sentinel (p : mark) : Z := match p with X => -5 | O => 5 end.

(** The value the search finds for the child of [b] on [a]. *)
Definition child_val (fuel : nat) (p : mark) (b : board) (a : Z * Z) : Z :=
  match role_value fuel (opponent p) (place b a (player b)) with
  | Ok r => r.1
  | Raise _ => 0
  end.

(** The order visits each element of the set once. *)
Hypothesis iter_order_perm : ∀ l, iter_order l ≡ₚ l.

Lemma elem_of_iter_order (l : list (Z * Z)) (a : Z * Z) : a ∈ iter_order l ↔ a ∈ l.
Proof. by rewrite (iter_order_perm l). Qed.

(** ** The improvement test *)

Ltac solve_better :=
  unfold better, prefers, sentinel in *; rewrite ?Z.gtb_ltb in *;
  rewrite ?Z.ltb_lt, ?Z.ltb_ge in *; lia.

Lemma better_irrefl (p : mark) (v : Z) : better p v v = false.
Proof. destruct p; solve_better. Qed.

Lemma better_trans (p : mark) (u v w : Z) :
  better p u v = true → better p v w = true → better p u w = true.
Proof. destruct p; solve_better. Qed.

Lemma better_total (p : mark) (v w : Z) : v ≠ w → better p v w = true ∨ better p w v = true.
Proof.
  intros Hvw. destruct (Z.lt_total v w) as [H|[H|H]]; [|done|]; destruct p;
    [left | right | right | left]; solve_better.
Qed.

(** Not strictly better means preferred, and strictly better means preferred. *)
Lemma better_false_prefers (p : mark) (v w : Z) : better p v w = false → prefers p v w.
Proof. destruct p; solve_better. Qed.

Lemma better_true_prefers (p : mark) (v w : Z) : better p v w = true → prefers p w v.
Proof. destruct p; solve_better. Qed.

Lemma better_true_not_prefers (p : mark) (v w : Z) : better p v w = true → ¬ prefers p v w.
Proof. destruct p; solve_better. Qed.

(** The initial running values -5 and 5 are beaten by every game value. *)
Lemma sentinel_better (p : mark) (v : Z) : -1 <= v <= 1 → better p (sentinel p) v = true.
Proof. destruct p; solve_better. Qed.

(** The candidate the loop keeps is the [best] of all candidates. *)
Lemma selected_is_best (p : mark) (b : board) (f : Z * Z → Z) l1 a l2 :
  iter_order (actions b) = l1 ++ a :: l2 →
  (∀ a', a' ∈ l1 → better p (f a') (f a) = true) →
  (∀ a', a' ∈ l2 → better p (f a) (f a') = false) →
  best p (f <$> actions b) = f a.
Proof.
  intros Hl Hbefore Hafter. apply best_char.
  - apply list_elem_of_fmap_2. rewrite <- elem_of_iter_order, Hl. set_solver.
  - intros w (a' & -> & Ha')%list_elem_of_fmap. rewrite <- elem_of_iter_order, Hl in Ha'.
    apply elem_of_app in Ha' as [Ha'|[->|Ha']%elem_of_cons].
    + by apply better_true_prefers, Hbefore.
    + destruct p; simpl; lia.
    + by apply better_false_prefers, Hafter.
Qed.

(** ** The two functions as one *)

Lemma role_value_S (fuel : nat) (p : mark) (b : board) :
  role_value (S fuel) p b =
    if terminal b then Ok (utility b, NoMove)
    else py_for (λ acc action,
                   b' ← result b action;
                   r ← role_value fuel (opponent p) b';
                   if better p acc.1 r.1 then Ok (r.1, Move action) else Ok acc)
                (iter_order (actions b)) (sentinel p, NoMove).
Proof.
  destruct p; simpl; (destruct (terminal b); [done|]);
    apply py_for_ext_in; intros [v m] a _; reflexivity.
Qed.

(** A child of a well-formed board is well formed and has one empty cell
    fewer. *)
Lemma child_wf (b : board) (a : Z * Z) (m : mark) :
  wf_board b → a ∈ actions b → wf_board (place b a m) ∧ S (n_empty (place b a m)) = n_empty b.
Proof.
  intros Hwf Ha. apply elem_of_actions in Ha as [Hc He].
  split; [by apply place_wf | by apply n_empty_place].
Qed.

(** When no child raises, the loop is the pure selection [sel_step]. *)
Lemma role_value_loop (fuel : nat) (p : mark) (b : board) :
  wf_board b → terminal b = false →
  (∀ a, a ∈ actions b → ∃ r, role_value fuel (opponent p) (place b a (player b)) = Ok r) →
  role_value (S fuel) p b
  = Ok (foldl (sel_step (better p) (child_val fuel p b) Move)
              (sentinel p, NoMove) (iter_order (actions b))).
Proof.
  intros Hwf Ht Hch. rewrite role_value_S, Ht. apply py_for_Ok.
  intros [v m] a Ha. rewrite elem_of_iter_order in Ha.
  rewrite result_action by done. simpl.
  destruct (Hch a Ha) as [r Hr]. unfold child_val, sel_step. rewrite Hr. simpl.
  by destruct (better p v r.1).
Qed.

(** ** Termination and errors *)

(** With more fuel than empty cells the search never raises: no
    [RecursionError], and neither [Exception] nor [IndexError] from
    [result], since it plays only the actions of [actions(board)]. *)
Theorem search_no_raise (fuel : nat) (p : mark) (b : board) :
  wf_board b → (n_empty b < fuel)%nat → ∃ r, role_value fuel p b = Ok r.
Proof.
  revert p b. induction fuel as [|fuel IH]; intros p b Hwf Hlt; [lia|].
  destruct (terminal b) eqn:Ht; [rewrite role_value_S, Ht; eauto|].
  erewrite role_value_loop; [eauto | done | done |].
  intros a Ha. destruct (child_wf b a (player b) Hwf Ha). apply IH; [done | lia].
Qed.

(** Beyond the number of empty cells, the fuel does not change the result. *)
Lemma role_value_fuel_eq (fuel1 fuel2 : nat) (p : mark) (b : board) :
  wf_board b → (n_empty b < fuel1)%nat → (n_empty b < fuel2)%nat →
  role_value fuel1 p b = role_value fuel2 p b.
Proof.
  revert fuel2 p b. induction fuel1 as [|f1 IH]; intros [|f2] p b Hwf H1 H2; try lia.
  destruct (terminal b) eqn:Ht; [by rewrite !role_value_S, Ht|].
  assert (∀ f a, (n_empty b <= f)%nat → a ∈ actions b →
            ∃ r, role_value f (opponent p) (place b a (player b)) = Ok r) as Hch.
  { intros f a Hf Ha. destruct (child_wf b a (player b) Hwf Ha).
    apply search_no_raise; [done | lia]. }
  rewrite !role_value_loop by (done || (intros; apply Hch; [lia | done])).
  f_equal. apply sel_fold_ext. intros a Ha. rewrite elem_of_iter_order in Ha.
  destruct (child_wf b a (player b) Hwf Ha). unfold child_val.
  by rewrite (IH f2) by (done || lia).
Qed.

(** C23: The recursion limit is never reached: on a well-formed board,
    any fuel above the number of empty cells makes the search return,
    without [RecursionError] or any other exception, and two such fuels
    return the same value and move.  So CPython's limit of 1000 frames
    and its exact frame accounting do not matter. *)
Theorem search_fuel_irrelevant (fuel1 fuel2 : nat) (p : mark) (b : board) :
  wf_board b → (n_empty b < fuel1)%nat → (n_empty b < fuel2)%nat →
  ∃ r, role_value fuel1 p b = Ok r ∧ role_value fuel2 p b = Ok r.
Proof.
  intros Hwf H1 H2. destruct (search_no_raise fuel1 p b Hwf H1) as [r Hr].
  exists r. split; [done|]. rewrite <- Hr. symmetry. by apply role_value_fuel_eq.
Qed.

(** ** Refinement *)

(** The children of a balanced board, searched with the other role, are
    the children of the specification. *)
Lemma children_spec (fuel : nat) (b : board) :
  wf_board b → balanced b →
  (∀ c, wf_board c → balanced c → (n_empty c < fuel)%nat →
        ∃ v m, role_value fuel (player c) c = Ok (v, m) ∧ minimax_value (player c) c v) →
  (n_empty b <= fuel)%nat →
  ∀ a, a ∈ actions b →
    (∃ r, role_value fuel (opponent (player b)) (place b a (player b)) = Ok r) ∧
    minimax_value (opponent (player b)) (place b a (player b)) (child_val fuel (player b) b a).
Proof.
  intros Hwf Hbal IH Hle a Ha.
  destruct (child_wf b a (player b) Hwf Ha) as [Hwf' Hn'].
  destruct (place_balanced b a Hwf Hbal Ha) as [Hbal' Hp'].
  destruct (IH _ Hwf' Hbal' ltac:(lia)) as (v & m & Hr & Hv).
  rewrite Hp' in Hr, Hv. unfold child_val. rewrite Hr. eauto.
Qed.

(** A well-formed board that is not finished has an action to try. *)
Lemma iter_order_actions_nonempty (b : board) :
  wf_board b → terminal b = false → iter_order (actions b) ≠ [].
Proof.
  intros Hwf Ht Hnil. pose proof (iter_order_perm (actions b)) as Hp.
  rewrite Hnil in Hp. apply Permutation_nil in Hp.
  rewrite terminal_no_actions in Ht by done. discriminate.
Qed.

(** One call of the search on a well-formed, balanced board, for the
    player to move: it returns the minimax value, [()] on a finished
    board, and otherwise the first action of the iteration order whose
    child has that value, every earlier child being strictly worse and
    no later child strictly better. *)
Lemma search_spec (fuel : nat) (b : board) :
  wf_board b → balanced b → (n_empty b < fuel)%nat →
  ∃ v m, role_value fuel (player b) b = Ok (v, m) ∧ minimax_value (player b) b v ∧
    (terminal b = true → m = NoMove) ∧
    (terminal b = false → ∃ l1 a l2,
       iter_order (actions b) = l1 ++ a :: l2 ∧ m = Move a ∧
       minimax_value (opponent (player b)) (place b a (player b)) v ∧
       (∀ a' w, a' ∈ l1 → minimax_value (opponent (player b)) (place b a' (player b)) w →
                better (player b) w v = true) ∧
       (∀ a' w, a' ∈ l2 → minimax_value (opponent (player b)) (place b a' (player b)) w →
                better (player b) v w = false)).
Proof.
  revert b. induction fuel as [|fuel IH]; intros b Hwf Hbal Hlt; [lia|].
  destruct (terminal b) eqn:Ht.
  { rewrite role_value_S, Ht. eexists _, _. split_and!; [done | by constructor | done | congruence]. }
  pose proof (children_spec fuel b Hwf Hbal
    (λ c Hc Hb Hn, match IH c Hc Hb Hn with ex_intro _ v (ex_intro _ m H) =>
       ex_intro _ v (ex_intro _ m (conj (proj1 H) (proj1 (proj2 H)))) end) ltac:(lia)) as Hch.
  rewrite role_value_loop by (done || (intros; by apply Hch)).
  set (f := child_val fuel (player b) b).
  assert (Hne : iter_order (actions b) ≠ []) by by apply iter_order_actions_nonempty.
  assert (Hrange : ∀ a, a ∈ actions b → -1 <= f a <= 1).
  { intros a Ha. eapply minimax_value_range; [by apply child_wf | apply Hch, Ha]. }
  destruct (sel_first (better (player b)) f Move (better_irrefl _) (better_trans _)
              (better_total _) _ (sentinel (player b)) NoMove Hne)
    as (l1 & a & l2 & Hl & Hfold & Hbefore & Hafter).
  { intros a Ha. rewrite elem_of_iter_order in Ha. by apply sentinel_better, Hrange. }
  assert (Ha : a ∈ actions b) by (rewrite <- elem_of_iter_order, Hl; set_solver).
  assert (Hchild : ∀ a' w, a' ∈ actions b →
            minimax_value (opponent (player b)) (place b a' (player b)) w → w = f a').
  { intros a' w Ha' Hw. eapply minimax_value_unique; [by apply child_wf | exact Hw | apply Hch, Ha']. }
  rewrite Hfold. eexists _, _. split_and!; [done | | done | intros _].
  - rewrite <- (selected_is_best (player b) b f l1 a l2) by done.
    constructor; [done|]. apply Forall2_fmap_r, Forall_Forall2_diag, Forall_forall.
    intros a' Ha'. apply Hch, Ha'.
  - exists l1, a, l2. split_and!; [done | done | apply Hch, Ha | |].
    + intros a' w Ha' Hw. rewrite (Hchild a' w) by (done || (rewrite <- elem_of_iter_order, Hl; set_solver)).
      by apply Hbefore.
    + intros a' w Ha' Hw. rewrite (Hchild a' w) by (done || (rewrite <- elem_of_iter_order, Hl; set_solver)).
      by apply Hafter.
Qed.

Lemma n_empty_le_9 (b : board) : (n_empty b <= 9)%nat.
Proof. pose proof (count_cells_total b). lia. Qed.

Lemma minimax_role (fuel : nat) (b : board) :
  terminal b = false → minimax_fuel fuel b = (r ← role_value fuel (player b) b; Ok (Some r.2)).
Proof. unfold minimax_fuel. intros ->. by destruct (player b). Qed.

(** ** Main theorems of the search *)

(** C2: Refinement: on a well-formed board where X has as many marks as O
    or one more, [max_value] (X to move) and [min_value] (O to move)
    return the minimax value of the board, once the recursion budget
    exceeds the number of empty cells. *)
Theorem max_min_value_refine (fuel : nat) (b : board) :
  wf_board b → balanced b → (n_empty b < fuel)%nat →
  (player b = X → ∃ v m, max_value fuel b = Ok (v, m) ∧ minimax_value X b v) ∧
  (player b = O → ∃ v m, min_value fuel b = Ok (v, m) ∧ minimax_value O b v).
Proof.
  intros Hwf Hbal Hlt. destruct (search_spec fuel b Hwf Hbal Hlt) as (v & m & Hr & Hv & _).
  split; intros Hp; rewrite Hp in Hr, Hv; eauto.
Qed.

(** Soundness of [minimax] on a well-formed, balanced board. *)
Lemma minimax_sound (b : board) :
  wf_board b → balanced b →
  (terminal b = true → minimax b = Ok None) ∧
  (terminal b = false → ∃ a v,
     minimax b = Ok (Some (Move a)) ∧ a ∈ actions b ∧
     result b a = Ok (place b a (player b)) ∧
     minimax_value (player b) b v ∧
     minimax_value (opponent (player b)) (place b a (player b)) v).
Proof.
  intros Hwf Hbal. split; [by unfold minimax, minimax_fuel; intros ->|intros Ht].
  destruct (search_spec recursion_limit b Hwf Hbal) as (v & m & Hr & Hv & _ & Hmove);
    [pose proof (n_empty_le_9 b); unfold recursion_limit; lia|].
  destruct (Hmove Ht) as (l1 & a & l2 & Hl & -> & Hav & _).
  assert (Ha : a ∈ actions b) by (rewrite <- elem_of_iter_order, Hl; set_solver).
  exists a, v. unfold minimax. rewrite minimax_role, Hr by done.
  split_and!; [done | done | by apply result_action | done | done].
Qed.

(** The tie-break on a well-formed, balanced board. *)
Lemma minimax_first_sound (b : board) (a : Z * Z) :
  wf_board b → balanced b → minimax b = Ok (Some (Move a)) →
  ∃ l1 l2 v, iter_order (actions b) = l1 ++ a :: l2 ∧
    minimax_value (player b) b v ∧
    (∀ a' w, a' ∈ l1 → minimax_value (opponent (player b)) (place b a' (player b)) w →
             ¬ prefers (player b) w v) ∧
    (∀ a' w, a' ∈ l2 → minimax_value (opponent (player b)) (place b a' (player b)) w →
             prefers (player b) v w).
Proof.
  intros Hwf Hbal Hmm.
  destruct (terminal b) eqn:Ht; [by unfold minimax, minimax_fuel in Hmm; rewrite Ht in Hmm|].
  destruct (search_spec recursion_limit b Hwf Hbal) as (v & m & Hr & Hv & _ & Hmove);
    [pose proof (n_empty_le_9 b); unfold recursion_limit; lia|].
  destruct (Hmove Ht) as (l1 & a' & l2 & Hl & -> & _ & Hbefore & Hafter).
  unfold minimax in Hmm. rewrite minimax_role, Hr in Hmm by done. simplify_eq/=.
  exists l1, l2, v. split_and!; [done | done | |].
  - intros a'' w Ha'' Hw. by apply better_true_not_prefers, (Hbefore a'' w).
  - intros a'' w Ha'' Hw. by apply better_false_prefers, (Hafter a'' w).
Qed.

(** C7: [minimax] never raises on a well-formed board: the recursion limit
    is never reached, and [result] is only called on legal actions, so
    neither [Exception] nor [IndexError] escapes. *)
Theorem minimax_no_raise (b : board) : wf_board b → ∃ r, minimax b = Ok r.
Proof.
  intros Hwf. unfold minimax. destruct (terminal b) eqn:Ht; [unfold minimax_fuel; rewrite Ht; eauto|].
  rewrite minimax_role by done.
  destruct (search_no_raise recursion_limit (player b) b Hwf) as [r ->];
    [pose proof (n_empty_le_9 b); unfold recursion_limit; lia | simpl; eauto].
Qed.
(** C1: [minimax] returns [None] on a finished board of a game.  Otherwise it
    returns a legal action whose resulting board has the game value of
    [b] for the player to move: the move is optimal. *)
Theorem minimax_optimal (b : board) :
  reachable b →
  (terminal b = true → minimax b = Ok None) ∧
  (terminal b = false → ∃ a v,
     minimax b = Ok (Some (Move a)) ∧ a ∈ actions b ∧
     result b a = Ok (place b a (player b)) ∧
     minimax_value (player b) b v ∧
     minimax_value (opponent (player b)) (place b a (player b)) v).
Proof. intros Hr. destruct (reachable_game_inv b Hr) as (Hwf & Hbal & _). by apply minimax_sound. Qed.

(** C3: Tie-break: on a board of a game, the action [minimax] returns is the
    first optimal action of the iteration order.  Every action before it
    leads to a board strictly worse for the player to move.  No action
    after it leads to a strictly better one. *)
Theorem minimax_first_optimal (b : board) (a : Z * Z) :
  reachable b → minimax b = Ok (Some (Move a)) →
  ∃ l1 l2 v, iter_order (actions b) = l1 ++ a :: l2 ∧
    minimax_value (player b) b v ∧
    (∀ a' w, a' ∈ l1 → minimax_value (opponent (player b)) (place b a' (player b)) w →
             ¬ prefers (player b) w v) ∧
    (∀ a' w, a' ∈ l2 → minimax_value (opponent (player b)) (place b a' (player b)) w →
             prefers (player b) v w).
Proof.
  intros Hr. destruct (reachable_game_inv b Hr) as (Hwf & Hbal & _). by apply minimax_first_sound.
Qed.
End Search.


(** ** Witnesses *)

(** X to move, with a win at (0,2). *)
Definition win_board : board :=
  [[Some X; Some X; EMPTY]; [Some O; Some O; EMPTY]; [EMPTY; EMPTY; EMPTY]].

Lemma id_order_perm (l : list (Z * Z)) : id l ≡ₚ l.
Proof. reflexivity. Qed.

(** The board after X (0,0), O (1,0), X (0,1), O (1,1). *)
Lemma win_board_reachable : reachable win_board.
Proof.
  eapply rtc_l; [apply (play_step_intro _ _ (0, 0)); [reflexivity | decide_true | reflexivity]|].
  eapply rtc_l; [apply (play_step_intro _ _ (1, 0)); [reflexivity | decide_true | reflexivity]|].
  eapply rtc_l; [apply (play_step_intro _ _ (0, 1)); [reflexivity | decide_true | reflexivity]|].
  eapply rtc_l; [apply (play_step_intro _ _ (1, 1)); [reflexivity | decide_true | reflexivity]|].
  apply rtc_refl.
Defined.

Lemma minimax_optimal_witness :
  reachable win_board ∧
  (terminal win_board = true → minimax id win_board = Ok None) ∧
  (terminal win_board = false → ∃ a v,
     minimax id win_board = Ok (Some (Move a)) ∧ a ∈ actions win_board ∧
     result win_board a = Ok (place win_board a (player win_board)) ∧
     minimax_value (player win_board) win_board v ∧
     minimax_value (opponent (player win_board)) (place win_board a (player win_board)) v).
Proof.
  split; [exact win_board_reachable|].
  apply (minimax_optimal id id_order_perm); exact win_board_reachable.
Defined.

Lemma max_min_value_refine_witness :
  wf_board win_board ∧ balanced win_board ∧ (n_empty win_board < 10)%nat ∧
  (player win_board = X → ∃ v m, max_value id 10 win_board = Ok (v, m) ∧ minimax_value X win_board v) ∧
  (player win_board = O → ∃ v m, min_value id 10 win_board = Ok (v, m) ∧ minimax_value O win_board v).
Proof.
  split; [decide_true|]. split; [decide_true|]. split; [vm_compute; lia|].
  apply (max_min_value_refine id id_order_perm); [decide_true | decide_true | vm_compute; lia].
Defined.

Lemma minimax_first_optimal_witness :
  reachable win_board ∧ minimax id win_board = Ok (Some (Move (0, 2))) ∧
  ∃ l1 l2 v, id (actions win_board) = l1 ++ (0, 2) :: l2 ∧
    minimax_value (player win_board) win_board v ∧
    (∀ a' w, a' ∈ l1 → minimax_value (opponent (player win_board)) (place win_board a' (player win_board)) w →
             ¬ prefers (player win_board) w v) ∧
    (∀ a' w, a' ∈ l2 → minimax_value (opponent (player win_board)) (place win_board a' (player win_board)) w →
             prefers (player win_board) v w).
Proof.
  assert (Hmm : minimax id win_board = Ok (Some (Move (0, 2)))) by (vm_compute; reflexivity).
  split; [exact win_board_reachable|]. split; [exact Hmm|].
  apply (minimax_first_optimal id id_order_perm); [exact win_board_reachable | exact Hmm].
Defined.

Lemma minimax_no_raise_witness :
  wf_board initial_state ∧ ∃ r, minimax id initial_state = Ok r.
Proof. split; [decide_true|]. apply (minimax_no_raise id id_order_perm). decide_true. Defined.

Lemma search_fuel_irrelevant_witness :
  ∃ r, role_value id 6 X win_board = Ok r ∧ role_value id recursion_limit X win_board = Ok r.
Proof.
  apply (search_fuel_irrelevant id id_order_perm); [decide_true | vm_compute; lia | vm_compute; lia].
Defined.

