(* ===== verification/MinimaxPy.v ===== *)
(** * MinimaxPy: [minimax] over the functions of [tictactoe.py] that raise

    Minimax.v runs [max_value] and [min_value] over the functions of
    Rules.v.  Here the search is written again over the translations of
    RulesPy.v, which raise [IndexError] at every read out of range, so that
    every call of the source is a call of the code's own translation:
    [terminal], [utility], [actions] and [result] in the loops, and
    [player] first of all in [minimax] ([curr_player = player(board)] runs
    before [terminal(board)]).  On a well-formed board the two searches
    are equal ([code_refine]); the boards the search visits are the
    results of legal moves, which keep the board well formed. *)

From S2P Require Import Prelude Board Rules RulesPy Minimax.

Local Open Scope py_scope.

Section SearchPy.
(** The order in which [for action in actions(board)] visits the set. *)
Variable iter_order : list (Z * Z) → list (Z * Z).

(** [max_value] and [min_value] of the source, over [terminal_py],
    [utility_py], [actions_py] and [result_py]. *)
Fixpoint max_value_py (fuel : nat) (b : board) : pyres (Z * move) :=
  match fuel with
  | 0%nat => raise RecursionError
  | S fuel' =>
      let optimal_move := NoMove in
      terminal_py b ≫= λ t : bool,
      if t then u ← utility_py b; Ok (u, optimal_move)
      else
        acts ← actions_py b;
        py_for (λ '(v, optimal_move) action,
                  b' ← result_py b action;
                  r ← min_value_py fuel' b';
                  let minval := r.1 in
                  if minval >? v then Ok (minval, Move action) else Ok (v, optimal_move))
               (iter_order acts) (-5, optimal_move)
  end
with min_value_py (fuel : nat) (b : board) : pyres (Z * move) :=
  match fuel with
  | 0%nat => raise RecursionError
  | S fuel' =>
      let optimal_move := NoMove in
      terminal_py b ≫= λ t : bool,
      if t then u ← utility_py b; Ok (u, optimal_move)
      else
        acts ← actions_py b;
        py_for (λ '(v, optimal_move) action,
                  b' ← result_py b action;
                  r ← max_value_py fuel' b';
                  let maxval := r.1 in
                  if maxval <? v then Ok (maxval, Move action) else Ok (v, optimal_move))
               (iter_order acts) (5, optimal_move)
  end.

(** [minimax(board)]: [player(board)] runs first, then [terminal(board)]. *)
Definition minimax_fuel_py (fuel : nat) (b : board) : pyres (option move) :=
  curr_player ← player_py b;
  terminal_py b ≫= λ t : bool,
  if t then Ok None
  else if curr_player == X then r ← max_value_py fuel b; Ok (Some r.2)
  else r ← min_value_py fuel b; Ok (Some r.2).

(** [minimax(board)] with CPython's recursion limit. *)
Definition minimax_py (b : board) : pyres (option move) := minimax_fuel_py recursion_limit b.

(** ** Agreement with Minimax.v *)

Lemma search_py_wf (fuel : nat) (b : board) :
  wf_board b →
  max_value_py fuel b = max_value iter_order fuel b ∧ min_value_py fuel b = min_value iter_order fuel b.
Proof.
  revert b. induction fuel as [|fuel IH]; intros b Hwf; [done|].
  cbn [max_value_py min_value_py max_value min_value].
  rewrite terminal_py_wf, bind_Ok by done. destruct (terminal b); [by rewrite utility_py_wf|].
  rewrite actions_py_wf, bind_Ok by done. split; apply py_for_ext_in; intros [v m] a _;
    rewrite result_py_wf by done; destruct (result b a) as [b'|] eqn:Hr; try done;
    rewrite !bind_Ok; cbv beta; destruct (IH b' ltac:(by eapply result_wf)) as [Hmax Hmin];
    by rewrite ?Hmax, ?Hmin.
Qed.

Lemma minimax_py_wf (b : board) : wf_board b → minimax_py b = minimax iter_order b.
Proof.
  intros Hwf. unfold minimax_py, minimax_fuel_py, minimax, minimax_fuel.
  rewrite player_py_wf, bind_Ok, terminal_py_wf, bind_Ok by done.
  destruct (terminal b); [done|]. destruct (search_py_wf recursion_limit b Hwf) as [-> ->].
  by destruct (player b == X).
Qed.

(** C11: On a board of three rows of three cells, the code of
    [tictactoe.py], with the [IndexError] of every read and the early
    returns of its loops, computes what the model of Rules.v and
    Minimax.v computes: [player], [actions], [winner], [terminal] and
    [utility] return the model's values, [result] agrees on every action,
    and [minimax] run over these functions returns what the model's
    [minimax] returns.  So the theorems about the model hold of the code
    on every board a game reaches. *)
Theorem code_refine (b : board) :
  wf_board b →
  player_py b = Ok (player b) ∧ actions_py b = Ok (actions b) ∧ winner_py b = Ok (winner b) ∧
  terminal_py b = Ok (terminal b) ∧ utility_py b = Ok (utility b) ∧
  (∀ a, result_py b a = result b a) ∧ minimax_py b = minimax iter_order b.
Proof.
  intros Hwf. split_and!; auto using player_py_wf, actions_py_wf, winner_py_wf,
    terminal_py_wf, utility_py_wf, result_py_wf, minimax_py_wf.
Qed.

End SearchPy.

Lemma code_refine_witness :
  wf_board initial_state ∧ player_py initial_state = Ok (player initial_state) ∧
  actions_py initial_state = Ok (actions initial_state) ∧ winner_py initial_state = Ok (winner initial_state) ∧
  terminal_py initial_state = Ok (terminal initial_state) ∧ utility_py initial_state = Ok (utility initial_state) ∧
  (∀ a, result_py initial_state a = result initial_state a) ∧
  minimax_py id initial_state = minimax id initial_state.
Proof. split; [decide_true | apply code_refine; decide_true]. Defined.
