(* ===== verification/MinimaxHeap.v ===== *)
(** * MinimaxHeap: [minimax] on the Python heap

    The search of [tictactoe.py] passes board objects around: [max_value]
    calls [result(board, action)] for every action of the same [board],
    and each call returns a new object, which the recursion then explores.
    This file runs [max_value], [min_value] and [minimax] on the heap of
    ResultHeap.v: the board is a location, [result] is [result_heap] with
    its [deepcopy], and the heap is threaded through the loop, since every
    call allocates.  The functions that only read the board ([player],
    [terminal], [utility], [actions]) read its value.

    The computation has two ways to stop early: a Python exception, and
    [None] when the heap is not of the shape of boards.  [hres A] is
    [option (pyres A)], with its bind [hbind] and the loop [hfor].

    [minimax_heap_spec]: on a board object whose rows are distinct
    objects, the search on the heap returns what [minimax_py] returns on
    the board's value, so the sibling calls of [result] do not disturb
    each other; [deepcopy] is what makes that true: a copy that shared
    the rows with the caller's board would write the move into it. *)

From stdpp Require Import gmap.
From S2P Require Import Prelude Board Rules RulesPy ResultHeap Minimax MinimaxPy.

Local Open Scope py_scope.

(** ** The monad [hres] *)

(** A Python computation on a heap that may not have the shape of boards. *)
Abbreviation hres A := (option (pyres A)).

Definition hbind {A B} (m : hres A) (f : A → hres B) : hres B :=
  match m with
  | None => None
  | Some (Raise e) => Some (Raise e)
  | Some (Ok a) => f a
  end.

Declare Scope heap_scope.
Delimit Scope heap_scope with heap.
Notation "x ⇐ m ; k" := (hbind m (λ x, k))
  (at level 20, m at level 100, k at level 200, only parsing) : heap_scope.
Notation "' x ⇐ m ; k" := (hbind m (λ x, k))
  (at level 20, x pattern, m at level 100, k at level 200, only parsing) : heap_scope.
Local Open Scope heap_scope.

(** [for x in l: body] on [hres]. *)
Fixpoint hfor {A B} (body : B → A → hres B) (l : list A) (acc : B) : hres B :=
  match l with
  | [] => Some (Ok acc)
  | x :: l' => acc' ⇐ body acc x; hfor body l' acc'
  end.

(** The value of the board at [l], read by the functions that do not
    write it. *)
Definition hread (h : heap) (l : loc) : hres board := Ok <$> read_board h l.

Lemma hbind_Ok {A B} (a : A) (f : A → hres B) : hbind (Some (Ok a)) f = f a.
Proof. reflexivity. Qed.

Lemma hbind_Raise {A B} (e : exn) (f : A → hres B) : hbind (Some (Raise e)) f = Some (Raise e).
Proof. reflexivity. Qed.

(** ** Agreement of the heap and the value *)

(** The heap computation's result [r] agrees with the value
    computation's [p]: the same exception, or the same value in a heap
    that extends [h]. *)
Definition agrees {A} (h : heap) (r : pyres (heap * A)) (p : pyres A) : Prop :=
  match r with
  | Ok (h', a) => p = Ok a ∧ h ⊆ h'
  | Raise e => p = Raise e
  end.

(** Close [∃ r, m = Some r ∧ agrees h r p] when [m] and [p] are computed. *)
Ltac agrees_now := eexists; split; [reflexivity | simpl; repeat split; done].

(** A board object the search can run on: a grid of distinct rows that
    holds the board [b]. *)
Definition board_obj (h : heap) (l : loc) (b : board) : Prop :=
  ∃ rs, grid_at h l = Some rs ∧ NoDup rs ∧ read_board h l = Some b.

Lemma agrees_weaken {A} (h h' : heap) (r : pyres (heap * A)) (p : pyres A) :
  h ⊆ h' → agrees h' r p → agrees h r p.
Proof. intros Hsub. destruct r as [[h'' a]|e]; simpl; [intros [? ?]; split; [done | by etrans] | done]. Qed.

Lemma board_obj_weaken (h h' : heap) (l : loc) (b : board) : h ⊆ h' → board_obj h l b → board_obj h' l b.
Proof.
  intros Hsub (rs & Hg & Hnd & Hb). exists rs.
  split_and!; [by eapply grid_at_weaken | done | by eapply read_board_weaken].
Qed.

Lemma hread_obj (h : heap) (l : loc) (b : board) : board_obj h l b → hread h l = Some (Ok b).
Proof. intros (rs & _ & _ & Hb). unfold hread. by rewrite Hb. Qed.

(** [hfor] agrees with [py_for] when every step does, from every heap
    that extends the first. *)
Lemma hfor_agree {A V} (bodyh : heap * V → A → hres (heap * V)) (bodyp : V → A → pyres V)
    (l : list A) (h0 : heap) :
  (∀ h v x, h0 ⊆ h → x ∈ l → ∃ r, bodyh (h, v) x = Some r ∧ agrees h r (bodyp v x)) →
  ∀ h v, h0 ⊆ h → ∃ r, hfor bodyh l (h, v) = Some r ∧ agrees h r (py_for bodyp l v).
Proof.
  revert h0. induction l as [|x l IH]; intros h0 Hbody h v Hh; simpl.
  { eexists. split; [done|]. by split. }
  destruct (Hbody h v x Hh ltac:(set_solver)) as (r & -> & Hr).
  destruct r as [[h' v']|e]; [|by rewrite hbind_Raise; eexists; split; [done | simpl in *; by rewrite Hr]].
  destruct Hr as [-> Hsub]. rewrite hbind_Ok, bind_Ok.
  destruct (IH h0 ltac:(intros; apply Hbody; set_solver) h' v') as (r & Hr & Hagr); [by etrans|].
  exists r. split; [done|]. by eapply agrees_weaken.
Qed.

Section SearchHeap.
(** The order in which [for action in actions(board)] visits the set. *)
Variable iter_order : list (Z * Z) → list (Z * Z).

(** [max_value] and [min_value] on the board object at [board]: the loop
    threads the heap, to which each [result] adds the new board. *)
Fixpoint max_value_heap (fuel : nat) (h : heap) (board : loc) : hres (heap * (Z * move)) :=
  match fuel with
  | 0%nat => Some (raise RecursionError)
  | S fuel' =>
      b ⇐ hread h board;
      let optimal_move := NoMove in
      t ⇐ Some (terminal_py b);
      if t : bool then u ⇐ Some (utility_py b); Some (Ok (h, (u, optimal_move)))
      else
        acts ⇐ Some (actions_py b);
        hfor (λ '(h, (v, optimal_move)) action,
                '(h, new_board) ⇐ result_heap h board action;
                '(h, r) ⇐ min_value_heap fuel' h new_board;
                let minval := r.1 in
                if minval >? v then Some (Ok (h, (minval, Move action)))
                else Some (Ok (h, (v, optimal_move))))
             (iter_order acts) (h, (-5, optimal_move))
  end
with min_value_heap (fuel : nat) (h : heap) (board : loc) : hres (heap * (Z * move)) :=
  match fuel with
  | 0%nat => Some (raise RecursionError)
  | S fuel' =>
      b ⇐ hread h board;
      let optimal_move := NoMove in
      t ⇐ Some (terminal_py b);
      if t : bool then u ⇐ Some (utility_py b); Some (Ok (h, (u, optimal_move)))
      else
        acts ⇐ Some (actions_py b);
        hfor (λ '(h, (v, optimal_move)) action,
                '(h, new_board) ⇐ result_heap h board action;
                '(h, r) ⇐ max_value_heap fuel' h new_board;
                let maxval := r.1 in
                if maxval <? v then Some (Ok (h, (maxval, Move action)))
                else Some (Ok (h, (v, optimal_move))))
             (iter_order acts) (h, (5, optimal_move))
  end.

(** [minimax(board)] on the board object at [board]. *)
Definition minimax_heap (h : heap) (board : loc) : hres (option move) :=
  b ⇐ hread h board;
  curr_player ⇐ Some (player_py b);
  t ⇐ Some (terminal_py b);
  if t : bool then Some (Ok None)
  else if curr_player == X then '(_, r) ⇐ max_value_heap recursion_limit h board; Some (Ok (Some r.2))
  else '(_, r) ⇐ min_value_heap recursion_limit h board; Some (Ok (Some r.2)).

(** The loop of [max_value] and [min_value] on the heap agrees with the
    loop on the value, when the recursive call does: [result_heap] leaves
    the board object of the loop intact for the next action. *)
Lemma search_loop_agree (bl : loc) (b : board) (h0 : heap)
    (rec_h : heap → loc → hres (heap * (Z * move))) (rec_p : board → pyres (Z * move))
    (cmp : Z → Z → bool) (acts : list (Z * Z)) (v0 : Z) :
  board_obj h0 bl b →
  (∀ h l b', board_obj h l b' → ∃ r, rec_h h l = Some r ∧ agrees h r (rec_p b')) →
  ∃ r, hfor (λ '(h, (v, optimal_move)) action,
               '(h, new_board) ⇐ result_heap h bl action;
               '(h, r) ⇐ rec_h h new_board;
               if cmp r.1 v then Some (Ok (h, (r.1, Move action)))
               else Some (Ok (h, (v, optimal_move))))
            acts (h0, (v0, NoMove)) = Some r ∧
    agrees h0 r (py_for (λ '(v, optimal_move) action,
                   b' ← result_py b action;
                   r ← rec_p b';
                   if cmp r.1 v then Ok (r.1, Move action) else Ok (v, optimal_move))
                 acts (v0, NoMove)).
Proof.
  intros Hobj Hrec. apply (hfor_agree _ _ acts h0); [|done].
  intros h [v m] a Hh _. pose proof (board_obj_weaken h0 h bl b Hh Hobj) as (rs & Hg & Hnd & Hb).
  destruct (result_heap_correct h bl rs b a Hg Hnd Hb) as (r & -> & Hr).
  destruct (result_py b a) as [b'|e]; [|subst r; eexists; split; [done | done]].
  destruct Hr as (h1 & l1 & nrs & -> & Hsub1 & _ & Hg1 & Hnd1 & Hb1). rewrite hbind_Ok, bind_Ok.
  destruct (Hrec h1 l1 b') as (r2 & -> & Hr2); [by exists nrs|].
  destruct r2 as [[h2 rv]|e]; [|rewrite hbind_Raise; simpl in Hr2; rewrite Hr2; by eexists].
  destruct Hr2 as [-> Hsub2]. rewrite hbind_Ok, bind_Ok.
  destruct (cmp rv.1 v); (eexists; split; [done | simpl; split; [done | by transitivity h1]]).
Qed.

Lemma search_heap_agree (fuel : nat) (h : heap) (l : loc) (b : board) :
  board_obj h l b →
  (∃ r, max_value_heap fuel h l = Some r ∧ agrees h r (max_value_py iter_order fuel b)) ∧
  (∃ r, min_value_heap fuel h l = Some r ∧ agrees h r (min_value_py iter_order fuel b)).
Proof.
  revert h l b. induction fuel as [|fuel IH]; intros h l b Hobj; [split; agrees_now|].
  cbn [max_value_heap min_value_heap max_value_py min_value_py]. rewrite (hread_obj h l b Hobj). cbn [hbind].
  destruct (terminal_py b) as [[|]|e]; cbn [hbind]; rewrite ?bind_Ok, ?bind_Raise; [| |split; agrees_now].
  - destruct (utility_py b) as [u|e]; cbn [hbind]; rewrite ?bind_Ok, ?bind_Raise; split; agrees_now.
  - destruct (actions_py b) as [acts|e]; cbn [hbind]; rewrite ?bind_Ok, ?bind_Raise; [|split; agrees_now].
    split; apply search_loop_agree; [done | intros; by apply IH | done | intros; by apply IH].
Qed.

(** C13: [minimax] run on a board object whose rows are distinct objects,
    with [result] copying each child by [deepcopy] and the heap threaded
    through the search, returns what [minimax] returns on the board's
    value: no call of [result] changes an object another call still
    reads, so the siblings of the search see the same board. *)
Theorem minimax_heap_spec (h : heap) (l : loc) (rs : list loc) (b : board) :
  grid_at h l = Some rs → NoDup rs → read_board h l = Some b →
  minimax_heap h l = Some (minimax_py iter_order b).
Proof.
  intros Hg Hnd Hb. assert (Hobj : board_obj h l b) by (by exists rs).
  unfold minimax_heap, minimax_py, minimax_fuel_py. rewrite (hread_obj h l b Hobj). cbn [hbind].
  destruct (player_py b) as [p|e]; cbn [hbind]; rewrite ?bind_Ok; [|done].
  destruct (terminal_py b) as [[|]|e]; cbn [hbind]; rewrite ?bind_Ok; [done | | done].
  destruct (search_heap_agree recursion_limit h l b Hobj) as [(r1 & Hr1 & Ha1) (r2 & Hr2 & Ha2)].
  destruct (p == X); [rewrite Hr1 | rewrite Hr2];
    [destruct r1 as [[h1 v1]|e1] | destruct r2 as [[h2 v2]|e2]]; unfold agrees in *; cbn [hbind];
    [destruct Ha1 as [-> _] | rewrite Ha1 | destruct Ha2 as [-> _] | rewrite Ha2]; done.
Qed.

End SearchHeap.

Lemma minimax_heap_spec_witness :
  grid_at example_heap 1 = Some [2; 3; 4]%positive ∧ NoDup [2; 3; 4]%positive ∧
  read_board example_heap 1 = Some initial_state ∧
  minimax_heap id example_heap 1 = Some (minimax_py id initial_state).
Proof.
  split_and!; [vm_compute; reflexivity | decide_true | vm_compute; reflexivity |].
  apply (minimax_heap_spec id example_heap 1 [2; 3; 4]%positive); [vm_compute; reflexivity | decide_true | vm_compute; reflexivity].
Defined.

(** On the board object of [[[X, X, _], [O, O, _], [_, _, _]]], the search
    on the heap finds X's winning move (0, 2). *)
Example minimax_heap_win_now :
  let h : heap := <[1%positive := Grid [2; 3; 4]%positive]> (<[2%positive := Row [Some X; Some X; EMPTY]]>
    (<[3%positive := Row [Some O; Some O; EMPTY]]> {[4%positive := Row [EMPTY; EMPTY; EMPTY]]})) in
  minimax_heap id h 1 = Some (Ok (Some (Move (0, 2)))).
Proof. vm_compute. reflexivity. Qed.
