(* ===== verification/Solver.v ===== *)
(** * Solver: a memoising evaluator of the specification

    [solve] computes [minimax_value] with a transposition table, a
    [gmap] keyed by (player to move, board).  Each position is evaluated
    once, so the 5478 positions of tic-tac-toe replace the 549946 nodes of
    the full search.  It is not code of the repository.  It is a verified
    tool that decides facts about the game tree, such as the value of the
    empty board.  [Play] then transfers those facts to the code through the
    refinement theorems of [Minimax].

    The theorem [solve_sound]: when [solve] answers, every entry of the
    table and the answer satisfy [minimax_value].  The table invariant
    [memo_ok] is threaded through the recursion, as the state of a
    state-passing computation. *)

From stdpp Require Import gmap countable.
From S2P Require Import Prelude Board Rules Minimax.

#[export] Instance mark_countable : Countable mark.
Proof.
  refine (inj_countable' (λ m, match m with X => true | O => false end)
                         (λ b : bool, if b then X else O) _).
  by intros [].
Defined.

(** The table: (player to move, board) to value. *)
Abbreviation memo := (gmap (mark * board) Z).

(** The values of the children [place b a p] for the actions [l], with
    [solve_child] for each, threading the table. *)
Fixpoint solve_list (solve_child : board → memo → option (Z * memo))
    (b : board) (p : mark) (l : list (Z * Z)) (m : memo) : option (list Z * memo) :=
  match l with
  | [] => Some ([], m)
  | a :: l' =>
      '(v, m1) ← solve_child (place b a p) m;
      '(vs, m2) ← solve_list solve_child b p l' m1;
      Some (v :: vs, m2)
  end.

(** The value of [b] with [p] to move, looked up or computed and stored. *)
Fixpoint solve (fuel : nat) (p : mark) (b : board) (m : memo) : option (Z * memo) :=
  match fuel with
  | 0%nat => None
  | S fuel' =>
      match m !! (p, b) with
      | Some v => Some (v, m)
      | None =>
          if terminal b then Some (utility b, <[(p, b) := utility b]> m)
          else
            '(vs, m') ← solve_list (solve fuel' (opponent p)) b p (actions b) m;
            let v := best p vs in
            Some (v, <[(p, b) := v]> m')
      end
  end.

(** Every entry of the table is a well-formed board with its value. *)
Definition memo_ok (m : memo) : Prop :=
  ∀ p b v, m !! (p, b) = Some v → wf_board b ∧ minimax_value p b v.

Lemma memo_ok_empty : memo_ok ∅.
Proof. intros p b v H. by rewrite lookup_empty in H. Qed.

Lemma memo_ok_insert (m : memo) (p : mark) (b : board) (v : Z) :
  memo_ok m → wf_board b → minimax_value p b v → memo_ok (<[(p, b) := v]> m).
Proof.
  intros Hm Hwf Hv q c w. rewrite lookup_insert.
  case_decide as Heq; [|apply Hm]. intros Hw. simplify_eq. done.
Qed.

(** The children loop is sound when [solve_child] is sound on the children. *)
Lemma solve_list_sound (solve_child : board → memo → option (Z * memo))
    (b : board) (p : mark) (l : list (Z * Z)) (m m' : memo) (vs : list Z) :
  (∀ a c m1 v m2, a ∈ l → c = place b a p → memo_ok m1 → solve_child c m1 = Some (v, m2) →
     minimax_value (opponent p) c v ∧ memo_ok m2) →
  memo_ok m → solve_list solve_child b p l m = Some (vs, m') →
  Forall2 (λ a v, minimax_value (opponent p) (place b a p) v) l vs ∧ memo_ok m'.
Proof.
  revert m vs. induction l as [|a l IH]; intros m vs Hchild Hm Hsolve; simpl in Hsolve.
  - injection Hsolve as <- <-. done.
  - destruct (solve_child (place b a p) m) as [[v m1]|] eqn:E1; [|discriminate]. simpl in Hsolve.
    destruct (solve_list solve_child b p l m1) as [[vs' m2]|] eqn:E2; [|discriminate].
    simpl in Hsolve. injection Hsolve as <- <-.
    destruct (Hchild a _ m v m1 ltac:(set_solver) eq_refl Hm E1) as [Hv Hm1].
    destruct (IH m1 vs' ltac:(intros; eapply Hchild; eauto; set_solver) Hm1 E2) as [Hvs Hm2].
    split; [by constructor | done].
Qed.

(** [solve] is sound: its answer is the minimax value, and the table it
    returns still holds only minimax values. *)
Theorem solve_sound (fuel : nat) (p : mark) (b : board) (m m' : memo) (v : Z) :
  wf_board b → memo_ok m → solve fuel p b m = Some (v, m') →
  minimax_value p b v ∧ memo_ok m'.
Proof.
  revert p b m m' v. induction fuel as [|fuel IH]; intros p b m m' v Hwf Hm Hsolve; [done|].
  simpl in Hsolve. destruct (m !! (p, b)) as [w|] eqn:Hlook.
  { injection Hsolve as <- <-. split; [apply (Hm p b w Hlook) | done]. }
  destruct (terminal b) eqn:Ht.
  { injection Hsolve as <- <-. assert (minimax_value p b (utility b)) by by constructor.
    split; [done | by apply memo_ok_insert]. }
  destruct (solve_list (solve fuel (opponent p)) b p (actions b) m) as [[vs m1]|] eqn:Hl;
    [|discriminate].
  simpl in Hsolve. injection Hsolve as <- <-.
  destruct (solve_list_sound (solve fuel (opponent p)) b p (actions b) m m1 vs)
    as [Hvs Hm1]; [|done|done|].
  { intros a c m2 w m3 Ha -> Hm2 Hc. eapply IH; [|done|exact Hc]. by apply place_wf. }
  assert (minimax_value p b (best p vs)) by by constructor.
  split; [done | by apply memo_ok_insert].
Qed.
