(* ===== verification/Play.v ===== *)
(** * Play: the end-to-end contract of the engine

    [self_play] is the driver of the specification (section 8): starting
    from a board, it asks [minimax] for a move and applies it with
    [result], for both sides, until [minimax] returns [None].  The driver is
    not in the repository, so it is modelled from the specification.

    The theorems hold for every iteration order of the action set.
    - [self_play_value]: self-play from a balanced board ends on a finished
      board whose utility is the minimax value of the start.
    - [self_play_draw]: from [initial_state] self-play ends in a draw.  The
      value 0 of the empty board comes from [Solver].
    - The concrete scenarios of the specification are decided:
      - on [[X,X,_],[O,O,_],[_,_,_]] the move is (0,2);
      - on [[X,O,X],[X,O,O],[_,_,_]] the move is (2,0), an immediate win for X;
      - on the empty board every opening has value 0, so [minimax] returns
        the first action of the iteration order.  Under CPython's order
        ([cpython_order]) that is the edge cell (0,1). *)

From stdpp Require Import gmap.
From S2P Require Import Prelude Board Rules Reach Minimax Solver.

Local Open Scope py_scope.

(** ** Game values decided by the solver *)

(** The value [solve] finds with a fresh table. *)
Definition solve_value (p : mark) (b : board) : option Z :=
  match solve 10 p b ∅ with Some (v, _) => Some v | None => None end.

(** Each action of [b] with the value [solve] finds for its child, with
    [player b] to move on [b]. *)
Definition child_table (b : board) : option (list ((Z * Z) * Z)) :=
  mapM (λ a, w ← solve_value (opponent (player b)) (place b a (player b)); Some (a, w)) (actions b).

(** The actions of [b] whose child has the value of [b]. *)
Definition optimal_actions (b : board) : option (list (Z * Z)) :=
  match solve_value (player b) b, child_table b with
  | Some v, Some t => Some (fst <$> filter (λ aw : (Z * Z) * Z, aw.2 = v) t)
  | _, _ => None
  end.

Lemma solve_value_sound (p : mark) (b : board) (v : Z) :
  wf_board b → solve_value p b = Some v → minimax_value p b v.
Proof.
  unfold solve_value. intros Hwf Hs. destruct (solve 10 p b ∅) as [[w m]|] eqn:E; [|done].
  injection Hs as <-. exact (proj1 (solve_sound 10 p b ∅ m w Hwf memo_ok_empty E)).
Qed.

(** The table lists every action once with the value of its child. *)
Lemma child_table_sound (b : board) (t : list ((Z * Z) * Z)) :
  wf_board b → child_table b = Some t →
  (∀ a w, (a, w) ∈ t → a ∈ actions b ∧
     minimax_value (opponent (player b)) (place b a (player b)) w) ∧
  (∀ a, a ∈ actions b → ∃ w, (a, w) ∈ t).
Proof.
  unfold child_table. intros Hwf Ht. apply mapM_Some in Ht.
  split.
  - intros a w Haw. apply list_elem_of_lookup in Haw as [k Hk].
    destruct (Forall2_lookup_r _ _ _ _ _ Ht Hk) as (a' & Ha' & Hs).
    destruct (solve_value _ _) as [w'|] eqn:Hw; simplify_eq/=.
    apply list_elem_of_lookup_2 in Ha'. split; [done|].
    eapply solve_value_sound; [|exact Hw]. by apply place_wf.
  - intros a Ha. apply list_elem_of_lookup in Ha as [k Hk].
    destruct (Forall2_lookup_l _ _ _ _ _ Ht Hk) as (aw & Haw & Hs).
    destruct (solve_value _ _) as [w'|] eqn:Hw; simplify_eq/=.
    exists w'. by apply list_elem_of_lookup_2 in Haw.
Qed.

(** An action the solver lists as optimal leads to a child with the value
    of the board. *)
Lemma optimal_actions_sound (b : board) (os : list (Z * Z)) (a : Z * Z) :
  wf_board b → optimal_actions b = Some os → a ∈ os →
  a ∈ actions b ∧ ∀ v, minimax_value (player b) b v →
    minimax_value (opponent (player b)) (place b a (player b)) v.
Proof.
  unfold optimal_actions. intros Hwf Hopt Ha.
  destruct (solve_value (player b) b) as [v0|] eqn:Hv0; [|done].
  destruct (child_table b) as [t|] eqn:Ht; [|done]. simplify_eq/=.
  apply list_elem_of_fmap in Ha as ([a' w] & -> & Haw). apply list_elem_of_filter in Haw as [Hw Haw].
  simpl in Hw |- *. subst w.
  destruct (child_table_sound b t Hwf Ht) as [Hsound _].
  destruct (Hsound a' v0 Haw) as [Ha' Hchild]. split; [done|].
  intros v Hv. assert (v = v0) as -> by (eapply minimax_value_unique; [done | exact Hv | by apply solve_value_sound]).
  done.
Qed.

Lemma prefers_refl (p : mark) (v : Z) : prefers p v v.
Proof. destruct p; simpl; lia. Qed.

Lemma minimax_value_terminal (p : mark) (b : board) (v : Z) :
  terminal b = true → minimax_value p b v → v = utility b.
Proof. intros Ht Hv. inversion Hv; congruence. Qed.

(** The empty board is a draw: its minimax value is 0. *)
Lemma initial_state_value : minimax_value X initial_state 0.
Proof. apply solve_value_sound; [by apply wf_board_cells; eauto 10 | vm_compute; reflexivity]. Qed.

(** Every opening is optimal. *)
Lemma initial_state_optimal_actions : optimal_actions initial_state = Some (actions initial_state).
Proof. vm_compute. reflexivity. Qed.

(** ** The move of [minimax] on concrete boards *)

(** The boards of the specification's scenarios. *)
Definition scenario_threat : board := [[Some X; Some X; EMPTY]; [Some O; Some O; EMPTY]; [EMPTY; EMPTY; EMPTY]].

Definition scenario_columns : board := [[Some X; Some O; Some X]; [Some X; Some O; Some O]; [EMPTY; EMPTY; EMPTY]].

Section Moves.
Variable iter_order : list (Z * Z) → list (Z * Z).
Hypothesis iter_order_perm : ∀ l, iter_order l ≡ₚ l.

(** The action [minimax] returns is one of the optimal actions. *)
Theorem minimax_in_optimal_actions (b : board) (os : list (Z * Z)) (a : Z * Z) :
  wf_board b → balanced b → optimal_actions b = Some os →
  minimax iter_order b = Ok (Some (Move a)) → a ∈ os.
Proof.
  intros Hwf Hbal Hopt Hmm. unfold optimal_actions in Hopt.
  destruct (solve_value (player b) b) as [v0|] eqn:Hv0; [|done].
  destruct (child_table b) as [t|] eqn:Ht; [|done]. simplify_eq/=.
  destruct (child_table_sound b t Hwf Ht) as [Hsound Hcomplete].
  destruct (minimax_sound iter_order iter_order_perm b Hwf Hbal) as [Hterm Hmove].
  destruct (terminal b) eqn:Htb; [by rewrite Hterm in Hmm|].
  destruct (Hmove eq_refl) as (a' & v & Hmm' & Ha & _ & Hv & Hav).
  rewrite Hmm in Hmm'. injection Hmm' as <-.
  assert (v0 = v) as -> by (eapply minimax_value_unique; [done | by apply solve_value_sound | done]).
  destruct (Hcomplete a Ha) as [w Hw].
  assert (w = v) as ->.
  { eapply minimax_value_unique; [by apply place_wf | apply (Hsound a w Hw) | done]. }
  apply list_elem_of_fmap. exists (a, v). split; [done|]. by apply list_elem_of_filter.
Qed.

(** When every action is optimal, [minimax] returns the first action of
    the iteration order: the strict-improvement loop never replaces it. *)
Theorem minimax_all_optimal_first (b : board) (os : list (Z * Z)) (a : Z * Z) (l : list (Z * Z)) :
  wf_board b → balanced b → terminal b = false → optimal_actions b = Some os →
  (∀ a', a' ∈ actions b → a' ∈ os) → iter_order (actions b) = a :: l →
  minimax iter_order b = Ok (Some (Move a)).
Proof.
  intros Hwf Hbal Ht Hopt Hall Hl.
  destruct (minimax_sound iter_order iter_order_perm b Hwf Hbal) as [_ Hmove].
  destruct (Hmove Ht) as (a' & v & Hmm & _).
  destruct (minimax_first_sound iter_order iter_order_perm b a' Hwf Hbal Hmm)
    as (l1 & l2 & v' & Hl' & Hv' & Hbefore & _).
  rewrite Hl in Hl'. destruct l1 as [|a1 l1]; simpl in Hl'; injection Hl' as <- _; [done|].
  exfalso. assert (Ha : a ∈ actions b) by (rewrite <- elem_of_iter_order, Hl; [set_solver | done]).
  destruct (optimal_actions_sound b os a Hwf Hopt (Hall a Ha)) as [_ Hchild].
  apply (Hbefore a v'); [set_solver | by apply Hchild | apply prefers_refl].
Qed.

(** When one action is optimal, [minimax] returns it, whatever the order. *)
Lemma minimax_unique_optimal (b : board) (a : Z * Z) :
  wf_board b → balanced b → terminal b = false → optimal_actions b = Some [a] →
  minimax iter_order b = Ok (Some (Move a)).
Proof.
  intros Hwf Hbal Ht Hopt.
  destruct (minimax_sound iter_order iter_order_perm b Hwf Hbal) as [_ Hmove].
  destruct (Hmove Ht) as (a' & v & Hmm & _).
  pose proof (minimax_in_optimal_actions b [a] a' Hwf Hbal Hopt Hmm) as Ha'.
  apply list_elem_of_singleton in Ha' as ->. done.
Qed.

(** ** Self-play *)

(** The driver: at most [n] rounds of "ask [minimax], apply its move
    with [result]", stopping when [minimax] has no move. *)
Fixpoint self_play (n : nat) (b : board) : pyres board :=
  match n with
  | 0%nat => Ok b
  | S n' =>
      r ← minimax iter_order b;
      match r with
      | Some (Move a) => b' ← result b a; self_play n' b'
      | _ => Ok b
      end
  end.

(** Self-play from a balanced board, given as many rounds as empty
    cells, makes legal moves only and ends on a finished board whose
    utility is the minimax value of the start. *)
Theorem self_play_value (n : nat) (b : board) (v : Z) :
  wf_board b → balanced b → minimax_value (player b) b v → (n_empty b <= n)%nat →
  ∃ b', self_play n b = Ok b' ∧ terminal b' = true ∧ utility b' = v ∧ rtc play_step b b'.
Proof.
  revert b v. induction n as [|n IH]; intros b v Hwf Hbal Hv Hn.
  - assert (terminal b = true) as Ht.
    { apply terminal_no_actions; [done|]. apply nil_length_inv. rewrite length_actions. lia. }
    exists b. split_and!; [done | done | by symmetry; eapply minimax_value_terminal | done].
  - destruct (minimax_sound iter_order iter_order_perm b Hwf Hbal) as [Hterm Hmove].
    destruct (terminal b) eqn:Ht.
    { exists b. simpl. rewrite Hterm by done. simpl.
      split_and!; [done | done | by symmetry; eapply minimax_value_terminal | done]. }
    destruct (Hmove eq_refl) as (a & v' & Hmm & Ha & Hres & Hv' & Hchild).
    assert (v' = v) as -> by (eapply minimax_value_unique; [done | exact Hv' | exact Hv]).
    destruct (child_wf b a (player b) Hwf Ha) as [Hwf' Hn'].
    destruct (place_balanced b a Hwf Hbal Ha) as [Hbal' Hp'].
    destruct (IH (place b a (player b)) v) as (b' & Hplay & Ht' & Hu & Hrtc);
      [done | done | by rewrite Hp' | lia |].
    exists b'. simpl. rewrite Hmm. simpl. rewrite Hres. simpl.
    split_and!; [done | done | done |]. eapply rtc_l; [|exact Hrtc]. by econstructor.
Qed.

(** C4: The canonical end-to-end property: self-play from the empty board
    plays legal moves only and ends in a finished game with no winner. *)
Theorem self_play_draw :
  ∃ b', self_play 9 initial_state = Ok b' ∧ terminal b' = true ∧ winner b' = None ∧
        utility b' = 0 ∧ reachable b'.
Proof.
  destruct (self_play_value 9 initial_state 0) as (b' & Hplay & Ht & Hu & Hrtc);
    [by apply wf_board_cells; eauto 10 | by left | apply initial_state_value | done |].
  exists b'. split_and!; try done.
  rewrite utility_winner in Hu. by destruct (winner b') as [[]|].
Qed.

(** ** The scenarios of the specification *)

(** C26: X has two in the top row: [minimax] plays the winning (0,2). *)
Theorem scenario_win_now :
  minimax iter_order scenario_threat
    = Ok (Some (Move (0, 2))) ∧
  result scenario_threat (0, 2)
    = Ok [[Some X; Some X; Some X]; [Some O; Some O; EMPTY]; [EMPTY; EMPTY; EMPTY]] ∧
  winner [[Some X; Some X; Some X]; [Some O; Some O; EMPTY]; [EMPTY; EMPTY; EMPTY]] = Some X ∧
  utility [[Some X; Some X; Some X]; [Some O; Some O; EMPTY]; [EMPTY; EMPTY; EMPTY]] = 1.
Proof.
  split_and!; [|reflexivity..].
  apply minimax_unique_optimal; [by apply wf_board_cells; eauto 10 | by left | reflexivity |].
  vm_compute. reflexivity.
Qed.

(** C27: [[X,O,X],[X,O,O],[_,_,_]]: X to move completes the first column at
    (2,0) and wins. *)
Theorem scenario_column_win :
  minimax iter_order scenario_columns
    = Ok (Some (Move (2, 0))) ∧
  utility [[Some X; Some O; Some X]; [Some X; Some O; Some O]; [Some X; EMPTY; EMPTY]] = 1.
Proof.
  split; [|reflexivity].
  apply minimax_unique_optimal; [by apply wf_board_cells; eauto 10 | by left | reflexivity |].
  vm_compute. reflexivity.
Qed.

(** C25: On the empty board every opening is optimal (each one draws), so
    [minimax] returns the first action of the iteration order, whichever
    cell it is. *)
Theorem opening_is_first_action (a : Z * Z) (l : list (Z * Z)) :
  iter_order (actions initial_state) = a :: l →
  optimal_actions initial_state = Some (actions initial_state) ∧
  minimax iter_order initial_state = Ok (Some (Move a)).
Proof.
  intros Hl. split; [apply initial_state_optimal_actions|]. eapply minimax_all_optimal_first;
    [by apply wf_board_cells; eauto 10 | by left | reflexivity
    | apply initial_state_optimal_actions | done | exact Hl].
Qed.
End Moves.

(** ** The first move under CPython's set order *)

(** The order in which CPython 3.11 iterates the set [actions(initial_state())]
    (as observed on the interpreter: [list(acts)]). *)
Definition cpython_opening_order : list (Z * Z) :=
  [(0,1); (1,2); (2,1); (0,0); (1,1); (2,0); (0,2); (2,2); (1,0)].

(** An iteration order that visits the empty board's actions in that order. *)
Definition cpython_order (l : list (Z * Z)) : list (Z * Z) :=
  if decide (l = actions initial_state) then cpython_opening_order else l.

Lemma cpython_order_perm (l : list (Z * Z)) : cpython_order l ≡ₚ l.
Proof.
  unfold cpython_order. case_decide as Hl; [|done]. subst l.
  apply (bool_decide_unpack _). vm_compute. reflexivity.
Qed.

(** Under that order [minimax] opens on the edge cell (0,1), neither a
    corner nor the center. *)
Theorem opening_edge_cell :
  minimax cpython_order initial_state = Ok (Some (Move (0, 1))).
Proof.
  apply (minimax_all_optimal_first cpython_order cpython_order_perm initial_state (actions initial_state)
    (0, 1) (drop 1 cpython_opening_order));
    [by apply wf_board_cells; eauto 10 | by left | reflexivity
    | apply initial_state_optimal_actions | done | reflexivity].
Qed.

(** ** Witnesses *)

Lemma self_play_draw_witness :
  (∀ l : list (Z * Z), id l ≡ₚ l) ∧
  ∃ b', self_play id 9 initial_state = Ok b' ∧ terminal b' = true ∧ winner b' = None ∧
        utility b' = 0 ∧ reachable b'.
Proof. split; [exact id_order_perm | apply (self_play_draw id id_order_perm)]. Defined.

Lemma opening_is_first_action_witness :
  id (actions initial_state) = (0, 0) :: drop 1 (actions initial_state) ∧
  optimal_actions initial_state = Some (actions initial_state) ∧
  minimax id initial_state = Ok (Some (Move (0, 0))).
Proof.
  assert (Hl : id (actions initial_state) = (0, 0) :: drop 1 (actions initial_state)) by reflexivity.
  split; [exact Hl | apply (opening_is_first_action id id_order_perm _ _ Hl)].
Defined.

Lemma scenario_win_now_witness :
  minimax reverse scenario_threat
    = Ok (Some (Move (0, 2))).
Proof. apply (scenario_win_now reverse (λ l : list (Z * Z), reverse_Permutation l)). Defined.

Lemma scenario_column_win_witness :
  minimax reverse scenario_columns
    = Ok (Some (Move (2, 0))).
Proof. apply (scenario_column_win reverse (λ l : list (Z * Z), reverse_Permutation l)). Defined.
